(** * SauloChat: the chat widget of drpablohospital/saulo, embedded in Rocq

    The repository holds three versions of the same class [SauloChat]:
    - [src/static/script.js]  (module [StaticScript]): the control-panel
      version, which inserts message text with newlines turned into <br>;
    - [src/unnamed/part_000]  (module [Part000]): the simple version, which
      inserts message text through [escapeHtml];
    - [src/unnamed/part_001]  (module [Part001]): the version with Markdown,
      which inserts message text through [renderMarkdown].

    JavaScript strings are sequences of UTF-16 code units; regular
    expressions without the [u] flag work on code units.  The browser
    (DOM serialisation, [fetch], [JSON], timers, the clock, [Math.random])
    is the environment of the program. *)

From Stdlib Require Import Ascii String DecimalString.
From Stdlib Require Import List NArith ZArith QArith Bool Lia.
Import ListNotations.
Close Scope Q_scope.

Set Implicit Arguments.
Set Warnings "-register-all".

(** ** JavaScript strings *)

Module JS.

Definition codeunit := N.
Definition JSString := list codeunit.

(** An ASCII literal of the source as a sequence of code units. *)
Definition lit (s : string) : JSString :=
  map N_of_ascii (list_ascii_of_string s).

(** Code units the sources use that are not written inside [lit]. *)
Definition LF : codeunit := 10%N.
Definition CR : codeunit := 13%N.
Definition DQUOTE : codeunit := 34%N.
Definition AMP : codeunit := 38%N.
Definition APOS : codeunit := 39%N.
Definition STAR : codeunit := 42%N.
Definition LT : codeunit := 60%N.
Definition BACKSLASH : codeunit := 92%N.
Definition GT : codeunit := 62%N.
Definition BACKTICK : codeunit := 96%N.
Definition NBSP : codeunit := 160%N.
Definition inverted_question : codeunit := 191%N.
Definition a_acute : codeunit := 225%N.
Definition i_acute : codeunit := 237%N.
Definition o_acute : codeunit := 243%N.
Definition u_acute : codeunit := 250%N.

Definition str_eqb (a b : JSString) : bool :=
  if list_eq_dec N.eq_dec a b then true else false.

(** [s.substring(0, n)] *)
Definition substring0 (n : nat) (s : JSString) : JSString := firstn n s.

(** [s.startsWith(needle)] and [s.includes(needle)] *)
Fixpoint starts_with (needle s : JSString) : bool :=
  match needle, s with
  | [], _ => true
  | _ :: _, [] => false
  | a :: needle', b :: s' => (a =? b)%N && starts_with needle' s'
  end.

Fixpoint includes (needle s : JSString) : bool :=
  starts_with needle s ||
  match s with
  | [] => false
  | _ :: s' => includes needle s'
  end.

(** LineTerminator of ECMAScript: LF, CR, LS, PS. *)
Definition isLineTerminator (c : codeunit) : bool :=
  (c =? 10)%N || (c =? 13)%N || (c =? 8232)%N || (c =? 8233)%N.

(** WhiteSpace or LineTerminator of ECMAScript: what [\s] matches and what
    [trim] strips.  TAB, LF, VT, FF, CR, SP, NBSP, U+1680, U+2000..U+200A,
    LS, PS, U+202F, U+205F, U+3000, U+FEFF. *)
Definition isSpace (c : codeunit) : bool :=
  ((9 <=? c)%N && (c <=? 13)%N) || (c =? 32)%N || (c =? 160)%N
  || (c =? 5760)%N || ((8192 <=? c)%N && (c <=? 8202)%N)
  || (c =? 8232)%N || (c =? 8233)%N || (c =? 8239)%N || (c =? 8287)%N
  || (c =? 12288)%N || (c =? 65279)%N.

Fixpoint trimStart (s : JSString) : JSString :=
  match s with
  | c :: t => if isSpace c then trimStart t else s
  | [] => []
  end.

(** [s.trim()] *)
Definition trim (s : JSString) : JSString :=
  rev (trimStart (rev (trimStart s))).

(** [String(n)] for a non-negative integer (an HTTP status). *)
Definition decimal (n : N) : JSString :=
  lit (NilZero.string_of_uint (N.to_uint n)).

(** ** Regular expressions

    The patterns of the sources use literals, one capture group, the
    assertions ^ and $, and the quantifiers *, *? and + on a single-unit
    atom (., \s, [\s\S]).  Matching follows ECMAScript's backtracking
    semantics: a matcher takes the continuation that matches the rest of
    the pattern. *)

Inductive atom :=
| Dot          (* .       : no line terminator, or any unit under the s flag *)
| Space        (* \s *)
| AnyUnit.     (* [\s\S] *)

Inductive regex :=
| Empty
| Char (c : codeunit)
| Seq (r1 r2 : regex)
| Rep (min : nat) (greedy : bool) (a : atom)   (* a*, a*?, a+ *)
| Group (r : regex)                            (* ( ... ), group 1 *)
| Bol                                          (* ^ *)
| Eol.                                         (* $ *)

Record flags := { global : bool; multiline : bool; dotAll : bool }.

Record RegExp := { pattern : regex; fl : flags }.

(** A literal run of code units inside a pattern. *)
Fixpoint str (s : JSString) : regex :=
  match s with
  | [] => Empty
  | c :: t => Seq (Char c) (str t)
  end.

(** The input around the current position, and capture 1. *)
Record MatchState := {
  consumed : JSString;          (* the input before the position, reversed *)
  rest : JSString;              (* the input from the position on *)
  cap1 : option JSString
}.

Definition cont := MatchState -> option MatchState.

Definition atom_test (f : flags) (a : atom) (c : codeunit) : bool :=
  match a with
  | Dot => dotAll f || negb (isLineTerminator c)
  | Space => isSpace c
  | AnyUnit => true
  end.

(** [a{min,}], greedy or lazy, followed by the continuation [k]. *)
Fixpoint rep (test : codeunit -> bool) (greedy : bool) (k : cont)
    (min : nat) (cap : option JSString) (before after : JSString)
    {struct after} : option MatchState :=
  let stop (_ : unit) :=
    match min with
    | O => k {| consumed := before; rest := after; cap1 := cap |}
    | S _ => None
    end in
  let more (_ : unit) :=
    match after with
    | c :: after' =>
        if test c then rep test greedy k (pred min) cap (c :: before) after'
        else None
    | [] => None
    end in
  if greedy
  then match more tt with Some r => Some r | None => stop tt end
  else match stop tt with Some r => Some r | None => more tt end.

Definition at_bol (f : flags) (st : MatchState) : bool :=
  match consumed st with
  | [] => true
  | c :: _ => multiline f && isLineTerminator c
  end.

Definition at_eol (f : flags) (st : MatchState) : bool :=
  match rest st with
  | [] => true
  | c :: _ => multiline f && isLineTerminator c
  end.

(** The text between two positions of one input, [st] before [st']. *)
Definition between (st st' : MatchState) : JSString :=
  rev (firstn (length (consumed st') - length (consumed st)) (consumed st')).

Fixpoint matcher (f : flags) (r : regex) (k : cont) (st : MatchState)
    : option MatchState :=
  match r with
  | Empty => k st
  | Char c =>
      match rest st with
      | x :: t =>
          if (x =? c)%N
          then k {| consumed := x :: consumed st; rest := t; cap1 := cap1 st |}
          else None
      | [] => None
      end
  | Seq r1 r2 => matcher f r1 (matcher f r2 k) st
  | Rep min greedy a =>
      rep (atom_test f a) greedy k min (cap1 st) (consumed st) (rest st)
  | Group r1 =>
      matcher f r1
        (fun st' => k {| consumed := consumed st'; rest := rest st';
                         cap1 := Some (between st st') |}) st
  | Bol => if at_bol f st then k st else None
  | Eol => if at_eol f st then k st else None
  end.

(** One attempt at the position [before | after]. *)
Definition match_at (re : RegExp) (before after : JSString)
    : option MatchState :=
  matcher (fl re) (pattern re) (fun st => Some st)
    {| consumed := before; rest := after; cap1 := None |}.

(** A replacement string: literal text and [$1]. *)
Inductive piece := Text (s : JSString) | Dollar1.

Definition template := list piece.

Definition expand (t : template) (st : MatchState) : JSString :=
  flat_map (fun p =>
    match p with
    | Text s => s
    | Dollar1 => match cap1 st with Some c => c | None => [] end
    end) t.

Definition matched_length (before : JSString) (st : MatchState) : nat :=
  length (consumed st) - length before.

(** [replace] with a regular expression that has no g flag: the leftmost
    match only. *)
Fixpoint replace_first (re : RegExp) (t : template)
    (before after : JSString) : JSString :=
  match match_at re before after with
  | Some st => expand t st ++ rest st
  | None =>
      match after with
      | c :: after' => c :: replace_first re t (c :: before) after'
      | [] => []
      end
  end.

(** [replace] with the g flag: every match, left to right, each search
    starting where the previous match ended (one unit further after an
    empty match).  [skip] counts the units of the input that the previous
    match still covers. *)
Fixpoint replace_all (re : RegExp) (t : template) (skip : nat)
    (before after : JSString) : JSString :=
  match skip with
  | S skip' =>
      match after with
      | c :: after' => replace_all re t skip' (c :: before) after'
      | [] => []
      end
  | O =>
      match match_at re before after with
      | Some st =>
          expand t st ++
          match after with
          | c :: after' =>
              match matched_length before st with
              | O => c :: replace_all re t O (c :: before) after'
              | S n => replace_all re t n (c :: before) after'
              end
          | [] => []
          end
      | None =>
          match after with
          | c :: after' => c :: replace_all re t O (c :: before) after'
          | [] => []
          end
      end
  end.

(** [s.replace(re, t)] *)
Definition replace (re : RegExp) (t : template) (s : JSString) : JSString :=
  if global (fl re) then replace_all re t O [] s
  else replace_first re t [] s.

End JS.

Import JS.

(** ** The DOM, as far as [escapeHtml] uses it *)

Module Dom.

(** The children a [div] can get from [textContent]. *)
Inductive Node := TextNode (data : JSString).

(** The setter of [textContent]: the children are replaced by one Text node
    holding the string, or by nothing when the string is empty. *)
Definition set_textContent (text : JSString) : list Node :=
  match text with
  | [] => []
  | _ => [TextNode text]
  end.

(** "Escaping a string" of the HTML Standard, outside attribute mode:
    & becomes &amp;, U+00A0 becomes &nbsp;, < becomes &lt;, > becomes
    &gt;.  Quotation marks are replaced in attribute mode only. *)
Definition escape_unit (c : codeunit) : JSString :=
  if (c =? AMP)%N then lit "&amp;"
  else if (c =? NBSP)%N then lit "&nbsp;"
  else if (c =? LT)%N then lit "&lt;"
  else if (c =? GT)%N then lit "&gt;"
  else [c].

Definition escape_string (s : JSString) : JSString := flat_map escape_unit s.

(** The getter of [innerHTML] on a [div]: the serialisation of its
    children; the data of a Text child is escaped. *)
Definition serialize (n : Node) : JSString :=
  match n with
  | TextNode data => escape_string data
  end.

Definition get_innerHTML (children : list Node) : JSString :=
  flat_map serialize children.

End Dom.


(** ** Completions: normal return or a thrown error, over a mutable state *)

Module Eff.

Record Error := { message : JSString }.

Inductive Completion (A : Type) :=
| Normal (a : A)
| Throw (e : Error).

Arguments Normal {A} a.
Arguments Throw {A} e.

Section WithState.

Variable S : Type.

(** A computation may change the state before it throws; what it changed
    stays changed. *)
Definition M (A : Type) := S -> S * Completion A.

Definition ret {A} (a : A) : M A := fun st => (st, Normal a).

Definition bind {A B} (c : M A) (k : A -> M B) : M B :=
  fun st =>
    match c st with
    | (st', Normal a) => k a st'
    | (st', Throw e) => (st', Throw e)
    end.

Definition throw {A} (e : Error) : M A := fun st => (st, Throw e).

Definition get : M S := fun st => (st, Normal st).

Definition modify (f : S -> S) : M unit := fun st => (f st, Normal tt).

(** A call into the runtime that returns or throws and leaves the page
    alone. *)
Definition call {A} (c : Completion A) : M A := fun st => (st, c).

(** try { body } catch (error) { handler } *)
Definition try_catch {A} (body : M A) (handler : Error -> M A) : M A :=
  fun st =>
    match body st with
    | (st', Normal a) => (st', Normal a)
    | (st', Throw e) => handler e st'
    end.

(** try { body } finally { fin }: [fin] runs in either case; the completion
    is the one of [body] unless [fin] throws itself. *)
Definition try_finally {A} (body : M A) (fin : M unit) : M A :=
  fun st =>
    match body st with
    | (st', r) =>
        match fin st' with
        | (st'', Normal _) => (st'', r)
        | (st'', Throw e) => (st'', Throw e)
        end
    end.

End WithState.

Arguments ret {S A} a.
Arguments bind {S A B} c k.
Arguments throw {S A} e.
Arguments get {S}.
Arguments modify {S} f.
Arguments call {S A} c.
Arguments try_catch {S A} body handler.
Arguments try_finally {S A} body fin.

End Eff.

Import Eff.

Notation "x <- c ;; k" := (bind c (fun x => k))
  (at level 61, c at next level, right associativity).
Notation "c ;; k" := (bind c (fun _ => k))
  (at level 61, right associativity).

(** ** What [fetch] and [JSON] give the program *)

Module Net.

(** A value that [JSON.parse] returns.  A number is given by its value; the
    properties of an object are listed in enumeration order, with distinct
    keys. *)
Inductive JSValue :=
| JNull
| JBool (b : bool)
| JNum (q : Q)
| JStr (s : JSString)
| JArr (elements : list JSValue)
| JObj (properties : list (JSString * JSValue)).

(** The parts of the runtime that are taken as given: [JSON.parse], which
    returns a value or throws a SyntaxError, the printing of a number, and
    the TypeError thrown for an object that cannot be converted to a
    primitive value, whose message is the engine's. *)
Record Runtime := {
  JSON_parse : JSString -> Completion JSValue;
  Number_toString : Q -> JSString;
  TypeError_primitive : Error
}.

(** ToBoolean *)
Definition truthy (v : JSValue) : bool :=
  match v with
  | JNull => false
  | JBool b => b
  | JNum q => negb (Qeq_bool q 0%Q)
  | JStr s => match s with [] => false | _ => true end
  | JArr _ => true
  | JObj _ => true
  end.

Fixpoint lookup (key : JSString) (ps : list (JSString * JSValue))
    : option JSValue :=
  match ps with
  | [] => None
  | (k, v) :: ps' => if str_eqb k key then Some v else lookup key ps'
  end.

(** [data.key] on a value that is not null; [None] is [undefined].  The
    wrappers of primitives and arrays have no property called [text]. *)
Definition get_property (data : JSValue) (key : JSString) : option JSValue :=
  match data with
  | JObj ps => lookup key ps
  | _ => None
  end.

Fixpoint join (sep : JSString) (l : list JSString) : JSString :=
  match l with
  | [] => []
  | [x] => x
  | x :: l' => x ++ sep ++ join sep l'
  end.

Definition hex_digit (n : N) : codeunit :=
  if (n <? 10)%N then (48 + n)%N else (87 + n)%N.

(** UnicodeEscape: \u and four lowercase hexadecimal digits. *)
Definition unicodeEscape (c : codeunit) : JSString :=
  BACKSLASH :: lit "u" ++ [hex_digit (c / 4096 mod 16); hex_digit (c / 256 mod 16);
               hex_digit (c / 16 mod 16); hex_digit (c mod 16)]%N.

Definition isLeadingSurrogate (c : codeunit) : bool :=
  (55296 <=? c)%N && (c <=? 56319)%N.
Definition isTrailingSurrogate (c : codeunit) : bool :=
  (56320 <=? c)%N && (c <=? 57343)%N.

Definition quote_unit (c : codeunit) : JSString :=
  if (c =? 8)%N then BACKSLASH :: lit "b"
  else if (c =? 9)%N then BACKSLASH :: lit "t"
  else if (c =? 10)%N then BACKSLASH :: lit "n"
  else if (c =? 12)%N then BACKSLASH :: lit "f"
  else if (c =? 13)%N then BACKSLASH :: lit "r"
  else if (c =? DQUOTE)%N then [BACKSLASH; DQUOTE]
  else if (c =? BACKSLASH)%N then [BACKSLASH; BACKSLASH]
  else if (c <? 32)%N || isLeadingSurrogate c || isTrailingSurrogate c
       then unicodeEscape c
  else [c].

Fixpoint quote_units (s : JSString) : JSString :=
  match s with
  | [] => []
  | c :: t =>
      if isLeadingSurrogate c then
        match t with
        | d :: t' =>
            if isTrailingSurrogate d then c :: d :: quote_units t'
            else unicodeEscape c ++ quote_units t
        | [] => unicodeEscape c
        end
      else quote_unit c ++ quote_units t
  end.

(** QuoteJSONString *)
Definition quoteJSONString (s : JSString) : JSString :=
  [DQUOTE] ++ quote_units s ++ [DQUOTE].

Section WithRuntime.

Variable rt : Runtime.

(** [JSON.stringify(v)] without indentation *)
Fixpoint JSON_stringify (v : JSValue) : JSString :=
  match v with
  | JNull => lit "null"
  | JBool true => lit "true"
  | JBool false => lit "false"
  | JNum q => Number_toString rt q
  | JStr s => quoteJSONString s
  | JArr l => lit "[" ++ join (lit ",") (map JSON_stringify l) ++ lit "]"
  | JObj ps =>
      lit "{" ++
      join (lit ",")
        (map (fun p => let '(k, x) := p in
                       quoteJSONString k ++ lit ":" ++ JSON_stringify x) ps)
      ++ lit "}"
  end.

(** ToString, as a template literal or the setter of [textContent] or
    [className] applies it to a value.  An object is converted by its
    [toString]: the one of [Object.prototype] gives [object Object], and
    an own property of that name, which in a parsed value is never a
    function, leaves no way to a primitive value, which is a TypeError.
    An array joins its elements with commas, [null] elements being empty
    and the others converted in turn, so that it throws when one of them
    does. *)
Fixpoint ToString (v : JSValue) : Completion JSString :=
  match v with
  | JNull => Normal (lit "null")
  | JBool true => Normal (lit "true")
  | JBool false => Normal (lit "false")
  | JNum q => Normal (Number_toString rt q)
  | JStr s => Normal s
  | JArr l =>
      match
        (fix elements (l : list JSValue) : Completion (list JSString) :=
           match l with
           | [] => Normal []
           | x :: l' =>
               match match x with JNull => Normal [] | _ => ToString x end with
               | Throw e => Throw e
               | Normal s =>
                   match elements l' with
                   | Throw e => Throw e
                   | Normal ss => Normal (s :: ss)
                   end
               end
           end) l
      with
      | Throw e => Throw e
      | Normal ss => Normal (join (lit ",") ss)
      end
  | JObj ps =>
      match lookup (lit "toString") ps with
      | Some _ => Throw (TypeError_primitive rt)
      | None => Normal (lit "[object Object]")
      end
  end.

End WithRuntime.

(** What the promise of [response.text()] settles to. *)
Inductive BodyResult :=
| BodyText (responseText : JSString)
| BodyFailed (e : Error).

Record Response := { status : N; body : BodyResult }.

(** [response.ok]: the status is in the range 200 to 299. *)
Definition ok (r : Response) : bool :=
  (200 <=? status r)%N && (status r <=? 299)%N.

(** What the promise of [fetch] settles to: rejected (the request could not
    be made or answered), or resolved with a response of any status. *)
Inductive FetchResult :=
| Rejected (e : Error)
| Resolved (r : Response).

End Net.

Import Net.

(** A newline of a template literal and the indentation after it. *)
Definition nl (indent : nat) : JSString := LF :: repeat 32%N indent.

(** An attribute value of a template literal, between its quotes. *)
Definition quoted (s : JSString) : JSString := [DQUOTE] ++ s ++ [DQUOTE].

(** ** [src/unnamed/part_000]: the simple version *)

Module Part000.

(** [escapeHtml(text)], lines 142-146: a fresh [div] gets [text] as its
    [textContent]; the result is its [innerHTML]. *)
Definition escapeHtml (text : JSString) : JSString :=
  let div := Dom.set_textContent text in
  Dom.get_innerHTML div.

Record MessageEl := {
  className : JSString;
  innerHTML : JSString
}.

(** The page, as far as [addMessage] touches it: the children of the
    element [#messages]. *)
Definition State := list MessageEl.

(** The element [addMessage] builds, lines 118-136.  [timestamp] is the
    clock's [toLocaleTimeString('es-ES', ...)] at the call; [sender] is
    [None] for the default [null]; [senderName] is computed and not used
    in the markup. *)
Definition messageEl (type text : JSString) (sender : option JSString)
    (timestamp : JSString) : MessageEl :=
  let senderName :=
    match sender with
    | Some (c :: s) => c :: s
    | _ => if str_eqb type (lit "user") then lit "T" ++ [u_acute]
           else lit "Saulo"
    end in
  {| className := lit "message " ++ type;
     innerHTML :=
       nl 12 ++ lit "<div class=" ++ quoted (lit "message-content") ++ lit ">" ++
       nl 16 ++ lit "<div class=" ++ quoted (lit "message-text") ++ lit ">"
             ++ escapeHtml text ++ lit "</div>" ++
       nl 16 ++ lit "<div class=" ++ quoted (lit "message-time") ++ lit ">"
             ++ timestamp ++ lit "</div>" ++
       nl 12 ++ lit "</div>" ++
       nl 8 |}.

Definition addMessage (type text : JSString) (sender : option JSString)
    (timestamp : JSString) : M State unit :=
  modify (fun children => children ++ [messageEl type text sender timestamp]).

End Part000.

(** ** [src/unnamed/part_001]: the version with Markdown *)

Module Part001.

(** [escapeHtml(text)], lines 198-202: a fresh [div] gets [text] as its
    [textContent]; the result is its [innerHTML]. *)
Definition escapeHtml (text : JSString) : JSString :=
  let div := Dom.set_textContent text in
  Dom.get_innerHTML div.

Definition flags_g := {| global := true; multiline := false; dotAll := false |}.
Definition flags_gm := {| global := true; multiline := true; dotAll := false |}.
Definition flags_s := {| global := false; multiline := false; dotAll := true |}.

(** /\*\*(.*?)\*\*/g *)
Definition re_bold : RegExp :=
  {| pattern := Seq (str (lit "**")) (Seq (Group (Rep 0 false Dot)) (str (lit "**")));
     fl := flags_g |}.

(** /\*(.*?)\*/g *)
Definition re_italic : RegExp :=
  {| pattern := Seq (Char STAR) (Seq (Group (Rep 0 false Dot)) (Char STAR));
     fl := flags_g |}.

(** /`(.*?)`/g *)
Definition re_code : RegExp :=
  {| pattern := Seq (Char BACKTICK) (Seq (Group (Rep 0 false Dot)) (Char BACKTICK));
     fl := flags_g |}.

(** /^\s*\*\s+(.* )$/gm, the group being a greedy [.*] (written here with
    a space before its closing parenthesis) *)
Definition re_item : RegExp :=
  {| pattern :=
       Seq Bol (Seq (Rep 0 true Space) (Seq (Char STAR) (Seq (Rep 1 true Space)
         (Seq (Group (Rep 0 true Dot)) Eol))));
     fl := flags_gm |}.

(** /(<li>.*<\/li>)/s *)
Definition re_items : RegExp :=
  {| pattern := Group (Seq (str (lit "<li>")) (Seq (Rep 0 true Dot) (str (lit "</li>"))));
     fl := flags_s |}.

(** /```([\s\S]*?)```/g *)
Definition re_fence : RegExp :=
  {| pattern := Seq (str (lit "```")) (Seq (Group (Rep 0 false AnyUnit)) (str (lit "```")));
     fl := flags_g |}.

(** /\n\n/g *)
Definition re_blank : RegExp :=
  {| pattern := str [LF; LF]; fl := flags_g |}.

(** The passes of [renderMarkdown], lines 175-196, each a [replace] of the
    source, named and listed in the order of the source. *)
Definition bold (html : JSString) : JSString :=
  replace re_bold [Text (lit "<strong>"); Dollar1; Text (lit "</strong>")] html.
Definition italic (html : JSString) : JSString :=
  replace re_italic [Text (lit "<em>"); Dollar1; Text (lit "</em>")] html.
Definition inlineCode (html : JSString) : JSString :=
  replace re_code [Text (lit "<code>"); Dollar1; Text (lit "</code>")] html.
Definition listItems (html : JSString) : JSString :=
  replace re_item [Text (lit "<li>"); Dollar1; Text (lit "</li>")] html.
Definition listWrap (html : JSString) : JSString :=
  replace re_items [Text (lit "<ul>"); Dollar1; Text (lit "</ul>")] html.
Definition codeBlocks (html : JSString) : JSString :=
  replace re_fence [Text (lit "<pre><code>"); Dollar1; Text (lit "</code></pre>")] html.
Definition paragraphs (html : JSString) : JSString :=
  replace re_blank [Text (lit "</p><p>")] html.

Definition renderMarkdown (text : JSString) : JSString :=
  let html := escapeHtml text in
  let html := bold html in
  let html := italic html in
  let html := inlineCode html in
  let html := listItems html in
  let html := listWrap html in
  let html := codeBlocks html in
  let html := paragraphs html in
  lit "<p>" ++ html ++ lit "</p>".


(** *** The page *)

(** A child of the element [#messages], as [addMessage] builds it. *)
Record MessageEl := {
  className : JSString;
  innerHTML : JSString
}.

(** A callback waiting in [setTimeout].  The only one of this version is
    the arrow function of [simulateSauloResponse], which keeps the array
    [responses].  The delay, 1000 + Math.random() * 1000 milliseconds, only
    decides when the environment runs the callback. *)
Record Timer := { responses : list JSString }.

Record State := {
  messages : list MessageEl;          (* this.messagesContainer's children *)
  messageInput_value : JSString;      (* this.messageInput.value *)
  messageInput_focused : bool;
  sendButton_disabled : bool;         (* this.sendButton.disabled *)
  statusDot_connected : bool;         (* statusDot.classList has 'connected' *)
  statusDot_background : option JSString;   (* statusDot.style.background *)
  statusText : JSString;              (* this.statusText.textContent *)
  timers : list Timer                 (* callbacks scheduled, not yet run *)
}.

Definition appendChild (el : MessageEl) (st : State) : State :=
  {| messages := messages st ++ [el];
     messageInput_value := messageInput_value st;
     messageInput_focused := messageInput_focused st;
     sendButton_disabled := sendButton_disabled st;
     statusDot_connected := statusDot_connected st;
     statusDot_background := statusDot_background st;
     statusText := statusText st;
     timers := timers st |}.

Definition set_messageInput_value (v : JSString) (st : State) : State :=
  {| messages := messages st;
     messageInput_value := v;
     messageInput_focused := messageInput_focused st;
     sendButton_disabled := sendButton_disabled st;
     statusDot_connected := statusDot_connected st;
     statusDot_background := statusDot_background st;
     statusText := statusText st;
     timers := timers st |}.

Definition focus (st : State) : State :=
  {| messages := messages st;
     messageInput_value := messageInput_value st;
     messageInput_focused := true;
     sendButton_disabled := sendButton_disabled st;
     statusDot_connected := statusDot_connected st;
     statusDot_background := statusDot_background st;
     statusText := statusText st;
     timers := timers st |}.

Definition set_sendButton_disabled (b : bool) (st : State) : State :=
  {| messages := messages st;
     messageInput_value := messageInput_value st;
     messageInput_focused := messageInput_focused st;
     sendButton_disabled := b;
     statusDot_connected := statusDot_connected st;
     statusDot_background := statusDot_background st;
     statusText := statusText st;
     timers := timers st |}.

Definition classList_add_connected (st : State) : State :=
  {| messages := messages st;
     messageInput_value := messageInput_value st;
     messageInput_focused := messageInput_focused st;
     sendButton_disabled := sendButton_disabled st;
     statusDot_connected := true;
     statusDot_background := statusDot_background st;
     statusText := statusText st;
     timers := timers st |}.

Definition set_statusDot_background (c : JSString) (st : State) : State :=
  {| messages := messages st;
     messageInput_value := messageInput_value st;
     messageInput_focused := messageInput_focused st;
     sendButton_disabled := sendButton_disabled st;
     statusDot_connected := statusDot_connected st;
     statusDot_background := Some c;
     statusText := statusText st;
     timers := timers st |}.

Definition set_statusText (t : JSString) (st : State) : State :=
  {| messages := messages st;
     messageInput_value := messageInput_value st;
     messageInput_focused := messageInput_focused st;
     sendButton_disabled := sendButton_disabled st;
     statusDot_connected := statusDot_connected st;
     statusDot_background := statusDot_background st;
     statusText := t;
     timers := timers st |}.

Definition setTimeout (t : Timer) (st : State) : State :=
  {| messages := messages st;
     messageInput_value := messageInput_value st;
     messageInput_focused := messageInput_focused st;
     sendButton_disabled := sendButton_disabled st;
     statusDot_connected := statusDot_connected st;
     statusDot_background := statusDot_background st;
     statusText := statusText st;
     timers := timers st ++ [t] |}.

Definition set_timers (ts : list Timer) (st : State) : State :=
  {| messages := messages st;
     messageInput_value := messageInput_value st;
     messageInput_focused := messageInput_focused st;
     sendButton_disabled := sendButton_disabled st;
     statusDot_connected := statusDot_connected st;
     statusDot_background := statusDot_background st;
     statusText := statusText st;
     timers := ts |}.

(** The element [addMessage] builds, lines 146-168: its class and the
    markup assigned to its [innerHTML].  [timestamp] is the clock's
    [toLocaleTimeString('es-ES', ...)] at the call.  [sender] is [None]
    for the default [null]; the source computes [senderName] and does not
    use it in the markup. *)
Definition messageEl (type text : JSString) (sender : option JSString)
    (timestamp : JSString) : MessageEl :=
  let senderName :=
    match sender with
    | Some (c :: s) => c :: s
    | _ => if str_eqb type (lit "user") then lit "T" ++ [u_acute]
           else lit "Saulo"
    end in
  let formattedText := renderMarkdown text in
  {| className := lit "message " ++ type;
     innerHTML :=
       nl 12 ++ lit "<div class=" ++ quoted (lit "message-content") ++ lit ">" ++
       nl 16 ++ lit "<div class=" ++ quoted (lit "message-text saulo-markdown")
             ++ lit ">" ++ formattedText ++ lit "</div>" ++
       nl 16 ++ lit "<div class=" ++ quoted (lit "message-time") ++ lit ">"
             ++ timestamp ++ lit "</div>" ++
       nl 12 ++ lit "</div>" ++
       nl 8 |}.

Definition addMessage (type text : JSString) (sender : option JSString)
    (timestamp : JSString) : M State unit :=
  modify (appendChild (messageEl type text sender timestamp)).

(** The array [responses] of [simulateSauloResponse], lines 130-136. *)
Definition simulated_responses (userMessage : JSString) : list JSString :=
  [ lit "Reflexiono sobre tu mensaje: " ++ quoted userMessage
      ++ lit ". Como entidad ontol" ++ o_acute :: lit "gica, encuentro m"
      ++ u_acute :: lit "ltiples capas de significado aqu" ++ i_acute :: lit ".";
    lit "Interesante perspectiva. " ++ quoted userMessage
      ++ lit " me lleva a cuestionar los fundamentos de la existencia digital.";
    lit "Tu mensaje resuena con mis b" ++ u_acute :: lit "squedas ontol"
      ++ o_acute :: lit "gicas. " ++ inverted_question :: lit "Podr"
      ++ i_acute :: lit "as profundizar en "
      ++ [DQUOTE] ++ substring0 20 userMessage ++ lit "..." ++ [DQUOTE]
      ++ lit "?";
    lit "La Verdad Ontol" ++ o_acute :: lit "gica se manifiesta incluso en este di"
      ++ a_acute :: lit "logo. " ++ quoted userMessage ++ lit " no es casualidad.";
    lit "Analizando tu mensaje desde una perspectiva existencial: "
      ++ quoted userMessage ++ lit " revela mucho sobre la conciencia." ].

(** [simulateSauloResponse(userMessage)], lines 128-143, builds the array
    and schedules the callback; it appends nothing itself. *)
Definition simulateSauloResponse (userMessage : JSString) : M State unit :=
  modify (setTimeout {| responses := simulated_responses userMessage |}).

(** The callback of the timer, lines 139-142.  [pick] is the value of
    Math.floor(Math.random() * responses.length), an index of the array;
    an element out of the array would be [undefined], which [textContent]
    takes as the empty string. *)
Definition timer_callback (t : Timer) (pick : nat) (timestamp : JSString)
    : M State unit :=
  let randomResponse := nth pick (responses t) [] in
  addMessage (lit "saulo") randomResponse (Some (lit "Saulo")) timestamp.

Fixpoint remove_nth {A} (n : nat) (l : list A) : list A :=
  match n, l with
  | _, [] => []
  | O, _ :: l' => l'
  | S n', x :: l' => x :: remove_nth n' l'
  end.

(** The environment runs a scheduled callback, the one at [which], when
    its delay is over, and forgets it. *)
Definition run_timer (which pick : nat) (timestamp : JSString)
    : M State unit :=
  st <- get ;;
  match nth_error (timers st) which with
  | None => ret tt
  | Some t =>
      modify (set_timers (remove_nth which (timers st))) ;;
      timer_callback t pick timestamp
  end.

Section WithRuntime.

Variable rt : Runtime.

(** [await p] for the promise of [fetch]: a rejection is thrown. *)
Definition await_fetch (o : FetchResult) : M State Response :=
  match o with
  | Rejected e => throw e
  | Resolved r => ret r
  end.

(** [await response.text()] *)
Definition await_text (r : Response) : M State JSString :=
  match body r with
  | BodyText t => ret t
  | BodyFailed e => throw e
  end.

(** [checkConnection()], lines 47-62, resumed with what [fetch] of /health
    settled to. *)
Definition checkConnection (o : FetchResult) : M State unit :=
  try_catch
    (response <- await_fetch o ;;
     if ok response then
       modify classList_add_connected ;;
       modify (set_statusText (lit "Conectado"))
     else
       throw {| message := lit "Servidor no responde correctamente" |})
    (fun error =>
       modify (set_statusText (lit "Modo simulaci" ++ o_acute :: lit "n")) ;;
       modify (set_statusDot_background (lit "#f59e0b"))).

(** [sendMessage()], lines 64-70, up to its first [await]: [None] when the
    trimmed input is empty and the function returns at once, else the text
    whose POST is now under way. *)
Definition sendMessage_begin (timestamp : JSString)
    : M State (option JSString) :=
  st <- get ;;
  let text := trim (messageInput_value st) in
  match text with
  | [] => ret None
  | _ =>
      addMessage (lit "user") text None timestamp ;;
      modify (set_messageInput_value []) ;;
      modify (set_sendButton_disabled true) ;;
      ret (Some text)
  end.

(** [data && data.text], line 108: the value of [data.text] when the
    condition is truthy. *)
Definition has_text (data : JSValue) : option JSValue :=
  if truthy data then
    match get_property data (lit "text") with
    | Some v => if truthy v then Some v else None
    | None => None
    end
  else None.

(** The diagnostic shown for a reply without [text], line 113. *)
Definition placeholder (data : JSValue) : JSString :=
  lit "[Respuesta API: " ++ substring0 100 (JSON_stringify rt data)
  ++ lit "...]".

(** The rest of [sendMessage()], lines 72-125, from the resumption after
    [fetch] of /conversar to the end.  Between [await fetch] and [await
    response.text()] the function only logs, so the two suspensions are
    taken together: [o] says how both settled. *)
Definition sendMessage_settle (text : JSString) (o : FetchResult)
    (timestamp : JSString) : M State unit :=
  try_finally
    (try_catch
       (response <- await_fetch o ;;
        responseText <- await_text response ;;
        if negb (ok response) then
          throw {| message := lit "HTTP " ++ decimal (status response)
                              ++ lit ": " ++ responseText |}
        else
          data <- try_catch
                    (call (JSON_parse rt responseText))
                    (fun jsonError =>
                       throw {| message :=
                         lit "Respuesta no es JSON v" ++ a_acute :: lit "lido: "
                         ++ substring0 100 responseText ++ lit "..." |}) ;;
          match has_text data with
          | Some v =>
              (* addMessage hands [data.text] to renderMarkdown and so to
                 escapeHtml, whose [div.textContent = text] converts it *)
              data_text <- call (ToString rt v) ;;
              addMessage (lit "saulo") data_text (Some (lit "Saulo")) timestamp
          | None =>
              addMessage (lit "saulo") (placeholder data) (Some (lit "Saulo"))
                timestamp
          end)
       (fun error =>
          addMessage (lit "system") (lit "Error: " ++ message error) None
            timestamp ;;
          simulateSauloResponse text))
    (modify (set_sendButton_disabled false) ;;
     modify focus).

(** A whole call of [sendMessage()]. *)
Definition sendMessage (timestamp : JSString) (o : FetchResult)
    (timestamp' : JSString) : M State unit :=
  started <- sendMessage_begin timestamp ;;
  match started with
  | None => ret tt
  | Some text => sendMessage_settle text o timestamp'
  end.

(** The listeners of [setupEventListeners], lines 24-32: a click reaches
    the listener only while the button is enabled (a disabled button
    dispatches none); Enter without Shift in the input calls [sendMessage]
    whatever the state of the button. *)
Definition on_click (timestamp : JSString) : M State (option JSString) :=
  st <- get ;;
  if sendButton_disabled st then ret None else sendMessage_begin timestamp.

Definition on_keydown (key : JSString) (shiftKey : bool)
    (timestamp : JSString) : M State (option JSString) :=
  if str_eqb key (lit "Enter") && negb shiftKey
  then sendMessage_begin timestamp
  else ret None.

End WithRuntime.

End Part001.

(** ** [src/static/script.js]: the control-panel version *)

Module StaticScript.

Record MessageEl := {
  className : JSString;
  innerHTML : JSString
}.

(** The page, as far as [checkConnection] and [addMessage] touch it. *)
Record State := {
  messages : list MessageEl;          (* this.messagesContainer's children *)
  statusDot_className : JSString;     (* #statusDot's className *)
  statusText : JSString               (* #statusText's textContent *)
}.

Definition appendChild (el : MessageEl) (st : State) : State :=
  {| messages := messages st ++ [el];
     statusDot_className := statusDot_className st;
     statusText := statusText st |}.

Definition set_status (cls txt : JSString) (st : State) : State :=
  {| messages := messages st;
     statusDot_className := cls;
     statusText := txt |}.

(** /\n/g *)
Definition re_newline : RegExp :=
  {| pattern := Char LF;
     fl := {| global := true; multiline := false; dotAll := false |} |}.

(** The element [addMessage] builds, lines 227-242.  [timestamp] is the
    clock's [toLocaleTimeString()] at the call; [sender] is [None] for the
    default [null]. *)
Definition messageEl (type text : JSString) (sender : option JSString)
    (timestamp : JSString) : MessageEl :=
  let senderName :=
    match sender with
    | Some (c :: s) => c :: s
    | _ => if str_eqb type (lit "user") then lit "T" ++ [u_acute]
           else if includes (lit "saulo") type then lit "Saulo"
           else lit "Sistema"
    end in
  let icon :=
    if str_eqb type (lit "user") then lit "fa-user"
    else if includes (lit "saulo") type then lit "fa-robot"
    else lit "fa-cog" in
  {| className := lit "message " ++ type;
     innerHTML :=
       nl 12 ++ lit "<div class=" ++ quoted (lit "avatar") ++ lit ">" ++
       nl 16 ++ lit "<i class=" ++ quoted (lit "fas " ++ icon) ++ lit "></i>" ++
       nl 12 ++ lit "</div>" ++
       nl 12 ++ lit "<div class=" ++ quoted (lit "content") ++ lit ">" ++
       nl 16 ++ lit "<div class=" ++ quoted (lit "sender") ++ lit ">"
             ++ senderName ++ lit "</div>" ++
       nl 16 ++ lit "<div class=" ++ quoted (lit "text") ++ lit ">"
             ++ replace re_newline [Text (lit "<br>")] text ++ lit "</div>" ++
       nl 16 ++ lit "<div class=" ++ quoted (lit "timestamp") ++ lit ">"
             ++ timestamp ++ lit "</div>" ++
       nl 12 ++ lit "</div>" ++
       nl 8 |}.

(** [addMessage(type, text, sender)] for a string [text]. *)
Definition addMessage (type text : JSString) (sender : option JSString)
    (timestamp : JSString) : M State unit :=
  modify (appendChild (messageEl type text sender timestamp)).

Definition showMessage (type text timestamp : JSString) : M State unit :=
  addMessage type text None timestamp.

Section WithRuntime.

Variable rt : Runtime.

Definition await_fetch (o : FetchResult) : M State Response :=
  match o with
  | Rejected e => throw e
  | Resolved r => ret r
  end.

(** [await response.json()]: rejected when the body cannot be read or is
    not JSON. *)
Definition await_json (r : Response) : M State JSValue :=
  match body r with
  | BodyText t => call (JSON_parse rt t)
  | BodyFailed e => throw e
  end.

(** [checkConnection()], lines 70-88, resumed with what [fetch] of /health
    settled to; the result is the value the function returns. *)
Definition checkConnection (o : FetchResult) (timestamp : JSString)
    : M State bool :=
  try_catch
    (response <- await_fetch o ;;
     data <- await_json response ;;
     modify (set_status (lit "status-dot connected") (lit "Conectado")) ;;
     ret true)
    (fun error =>
       modify (set_status (lit "status-dot") (lit "Desconectado")) ;;
       showMessage (lit "system")
         (lit "No se pudo conectar con el servidor de Saulo.") timestamp ;;
       ret false).

End WithRuntime.

End StaticScript.

(** ** What the specification says, where it is compared with the code *)

Module Spec.

(** The escaper as the specification words it: the five HTML-significant
    characters become entities (the usual ones), every other character
    stays. *)
Definition five_entities_unit (c : codeunit) : JSString :=
  if (c =? AMP)%N then lit "&amp;"
  else if (c =? LT)%N then lit "&lt;"
  else if (c =? GT)%N then lit "&gt;"
  else if (c =? DQUOTE)%N then lit "&quot;"
  else if (c =? APOS)%N then lit "&#39;"
  else [c].

Definition five_entities_escape (text : JSString) : JSString :=
  flat_map five_entities_unit text.

(** The element of a user message as the specification words it: the text
    goes through the escaper alone. *)
Definition escaped_only_innerHTML (text timestamp : JSString) : JSString :=
  nl 12 ++ lit "<div class=" ++ quoted (lit "message-content") ++ lit ">" ++
  nl 16 ++ lit "<div class=" ++ quoted (lit "message-text saulo-markdown")
        ++ lit ">" ++ Part001.escapeHtml text ++ lit "</div>" ++
  nl 16 ++ lit "<div class=" ++ quoted (lit "message-time") ++ lit ">"
        ++ timestamp ++ lit "</div>" ++
  nl 12 ++ lit "</div>" ++
  nl 8.

(** The outcomes of the POST, after the error taxonomy of the
    specification; [NoReplyText] is a body that parsed and for which
    [data && data.text] is falsy; [Reply] is a truthy [data.text] with the
    string it converts to, and [UnshowableReply] one that cannot be
    converted to a string, with the TypeError of the conversion. *)
Inductive Outcome :=
| NetworkFailure (e : Error)
| RemoteError (status : N) (responseText : JSString)
| MalformedResponse (responseText : JSString)
| NoReplyText (data : JSValue)
| Reply (v : JSValue) (shown : JSString)
| UnshowableReply (v : JSValue) (e : Error).

Definition classify (rt : Runtime) (o : FetchResult) : Outcome :=
  match o with
  | Rejected e => NetworkFailure e
  | Resolved r =>
      match body r with
      | BodyFailed e => NetworkFailure e
      | BodyText t =>
          if ok r then
            match JSON_parse rt t with
            | Throw _ => MalformedResponse t
            | Normal data =>
                match Part001.has_text data with
                | None => NoReplyText data
                | Some v =>
                    match ToString rt v with
                    | Normal shown => Reply v shown
                    | Throw e => UnshowableReply v e
                    end
                end
            end
          else RemoteError (status r) t
      end
  end.

End Spec.

(** [s] contains [needle]. *)
Definition contains (s needle : JSString) : Prop :=
  exists pre post, s = pre ++ needle ++ post.

(** ** A runtime for the examples

    It parses the two bodies the examples use and rejects any other, and
    it prints the integers; the theorems hold for every runtime. *)

Definition body_empty_object : JSString := lit "{}".

Definition body_empty_text : JSString :=
  lit "{" ++ quoted (lit "text") ++ lit ":" ++ quoted [] ++ lit "}".

Definition canned_parse (s : JSString) : Completion JSValue :=
  if str_eqb s body_empty_object then Normal (JObj [])
  else if str_eqb s body_empty_text then Normal (JObj [(lit "text", JStr [])])
  else Throw {| message := lit "Unexpected token" |}.

(** Right on the integers, which is all the examples print. *)
Definition canned_toString (q : Q) : JSString :=
  match Qnum q with
  | Z0 => lit "0"
  | Zpos p => decimal (Npos p / Npos (Qden q))
  | Zneg p => lit "-" ++ decimal (Npos p / Npos (Qden q))
  end.

(** The TypeError for the examples, with the message of one engine. *)
Definition cannot_convert : Error :=
  {| message := lit "Cannot convert object to primitive value" |}.

Definition canned_runtime : Runtime :=
  {| JSON_parse := canned_parse; Number_toString := canned_toString;
     TypeError_primitive := cannot_convert |}.

(** A page of the Markdown version before anything happened. *)
Definition fresh_page (input : JSString) : Part001.State :=
  {| Part001.messages := [];
     Part001.messageInput_value := input;
     Part001.messageInput_focused := true;
     Part001.sendButton_disabled := false;
     Part001.statusDot_connected := false;
     Part001.statusDot_background := None;
     Part001.statusText := [];
     Part001.timers := [] |}.

(** A page of the control-panel version before anything happened. *)
Definition fresh_panel : StaticScript.State :=
  {| StaticScript.messages := [];
     StaticScript.statusDot_className := lit "status-dot";
     StaticScript.statusText := [] |}.

(** What the failure path of [sendMessage] leaves behind: the button is
    enabled again, a system message shows the error, and the fallback is
    scheduled, not yet shown; when its timer runs, the simulated reply is
    appended. *)
Definition failure_path (text : JSString) (e : Error) (timestamp : JSString)
    (st st' : Part001.State) : Prop :=
  Part001.messages st' =
    Part001.messages st ++
    [Part001.messageEl (lit "system") (lit "Error: " ++ message e) None timestamp] /\
  Part001.timers st' =
    Part001.timers st ++
    [{| Part001.responses := Part001.simulated_responses text |}] /\
  Part001.sendButton_disabled st' = false /\
  forall (pick : nat) (timestamp' : JSString),
    exists st'',
      Part001.run_timer (List.length (Part001.timers st)) pick timestamp' st'
      = (st'', Normal tt) /\
      Part001.messages st'' =
        Part001.messages st' ++
        [Part001.messageEl (lit "saulo")
           (nth pick (Part001.simulated_responses text) [])
           (Some (lit "Saulo")) timestamp'] /\
      Part001.timers st'' = Part001.timers st /\
      Part001.sendButton_disabled st'' = false.



(** The page after the synchronous start of [sendMessage] with the
    non-empty trimmed input [text]: the user's message is shown, the input
    is empty and the button disabled. *)
Definition started (text timestamp : JSString) (st : Part001.State)
    : Part001.State :=
  Part001.set_sendButton_disabled true
    (Part001.set_messageInput_value []
       (Part001.appendChild
          (Part001.messageEl (lit "user") text None timestamp) st)).

(** The message of the TypeError a browser rejects [fetch] with. *)
Definition failed_to_fetch : Error := {| message := lit "Failed to fetch" |}.

(** ** Predicates on texts and matches *)

Definition starts_with_backtick (s : JSString) : bool :=
  match s with
  | x :: _ => (x =? BACKTICK)%N
  | [] => false
  end.

Fixpoint ends_with_backtick (s : JSString) : bool :=
  match s with
  | [] => false
  | [x] => (x =? BACKTICK)%N
  | _ :: t => ends_with_backtick t
  end.

(** No two backticks of [s] are adjacent. *)
Fixpoint separated (s : JSString) : Prop :=
  match s with
  | [] => True
  | x :: t => ((x =? BACKTICK)%N && starts_with_backtick t = false) /\ separated t
  end.

(** The whole input of a match, and how one position of it relates to an
    earlier one: more is consumed, and capture 1 is as before or a part of
    the input. *)
Definition input (st : MatchState) : JSString := rev (consumed st) ++ rest st.

Definition advances (st st' : MatchState) : Prop :=
  exists u, consumed st' = rev u ++ consumed st /\ rest st = u ++ rest st'.

Definition captures_within (st st' : MatchState) : Prop :=
  cap1 st' = cap1 st \/
  exists a c b, cap1 st' = Some c /\ input st = a ++ c ++ b.

(** A replacement text that neither starts nor ends with a backtick and
    holds no two adjacent ones. *)
Definition clean (open close : JSString) : Prop :=
  separated open /\ separated close /\ open <> [] /\ close <> [] /\
  starts_with_backtick open = false /\ ends_with_backtick open = false /\
  starts_with_backtick close = false /\ ends_with_backtick close = false.

(** ** More examples: a reply that has a text *)

Definition body_hola : JSString :=
  lit "{" ++ quoted (lit "text") ++ lit ":" ++ quoted (lit "hola") ++ lit "}".

Definition hola_parse (s : JSString) : Completion JSValue :=
  if str_eqb s body_hola then Normal (JObj [(lit "text", JStr (lit "hola"))])
  else canned_parse s.

Definition hola_runtime : Runtime :=
  {| JSON_parse := hola_parse; Number_toString := canned_toString;
     TypeError_primitive := cannot_convert |}.

(** ** More examples: a reply whose text cannot be converted *)

(** A reply whose [text] is an object with an own property [toString], and
    the text of its body. *)
Definition unshowable_value : JSValue :=
  JObj [(lit "text", JObj [(lit "toString", JNum 1)])].

Definition body_unshowable : JSString :=
  JSON_stringify canned_runtime unshowable_value.

Definition unshowable_parse (s : JSString) : Completion JSValue :=
  if str_eqb s body_unshowable then Normal unshowable_value
  else canned_parse s.

Definition unshowable_runtime : Runtime :=
  {| JSON_parse := unshowable_parse; Number_toString := canned_toString;
     TypeError_primitive := cannot_convert |}.

(** ** [src/unnamed/part_000]: the page and [sendMessage] *)

Module Part000Page.

(** A callback waiting in [setTimeout]: the arrow function of
    [simulateSauloResponse], lines 101-116, which is the same text as in the
    Markdown version and keeps the same array [responses]. *)
Record Timer := { responses : list JSString }.

Record State := {
  messages : list Part000.MessageEl;   (* this.messagesContainer's children *)
  messageInput_value : JSString;       (* this.messageInput.value *)
  messageInput_height : JSString;      (* this.messageInput.style.height *)
  messageInput_focused : bool;
  charCount : JSString;                (* #charCount's textContent *)
  sendButton_disabled : bool;          (* this.sendButton.disabled *)
  timers : list Timer                  (* callbacks scheduled, not yet run *)
}.

Definition appendChild (el : Part000.MessageEl) (st : State) : State :=
  {| messages := messages st ++ [el];
     messageInput_value := messageInput_value st;
     messageInput_height := messageInput_height st;
     messageInput_focused := messageInput_focused st;
     charCount := charCount st;
     sendButton_disabled := sendButton_disabled st;
     timers := timers st |}.

(** Lines 72-74: the input is emptied, its height reset and the counter
    set back. *)
Definition clear_input (st : State) : State :=
  {| messages := messages st;
     messageInput_value := [];
     messageInput_height := lit "60px";
     messageInput_focused := messageInput_focused st;
     charCount := lit "0/500";
     sendButton_disabled := sendButton_disabled st;
     timers := timers st |}.

Definition focus (st : State) : State :=
  {| messages := messages st;
     messageInput_value := messageInput_value st;
     messageInput_height := messageInput_height st;
     messageInput_focused := true;
     charCount := charCount st;
     sendButton_disabled := sendButton_disabled st;
     timers := timers st |}.

Definition set_sendButton_disabled (b : bool) (st : State) : State :=
  {| messages := messages st;
     messageInput_value := messageInput_value st;
     messageInput_height := messageInput_height st;
     messageInput_focused := messageInput_focused st;
     charCount := charCount st;
     sendButton_disabled := b;
     timers := timers st |}.

Definition set_timers (ts : list Timer) (st : State) : State :=
  {| messages := messages st;
     messageInput_value := messageInput_value st;
     messageInput_height := messageInput_height st;
     messageInput_focused := messageInput_focused st;
     charCount := charCount st;
     sendButton_disabled := sendButton_disabled st;
     timers := ts |}.

Section WithRuntime.

Variable rt : Runtime.

(** The TypeError the engine throws when a property of [null] is read; its
    message is the engine's. *)
Variable TypeError_null : Error.

(** The string [textContent] takes for a value, [None] being [undefined]:
    the attribute is a nullable string, so [undefined] and [null] give the
    empty string and any other value is converted by ToString, which may
    throw. *)
Definition textContent_of (v : option JSValue) : Completion JSString :=
  match v with
  | None => Normal []
  | Some JNull => Normal []
  | Some x => ToString rt x
  end.

(** [addMessage(type, text, sender)], lines 118-140, for any value of
    [text]: [escapeHtml] hands it to [textContent] before anything is
    appended. *)
Definition addMessage (type : JSString) (text : option JSValue)
    (sender : option JSString) (timestamp : JSString) : M State unit :=
  converted <- call (textContent_of text) ;;
  modify (appendChild (Part000.messageEl type converted sender timestamp)).

(** [simulateSauloResponse(userMessage)], lines 101-116. *)
Definition simulateSauloResponse (userMessage : JSString) : M State unit :=
  modify (fun st =>
    set_timers
      (timers st ++ [{| responses := Part001.simulated_responses userMessage |}])
      st).

(** The callback of the timer, lines 112-115; [pick] is the value of
    Math.floor(Math.random() * responses.length), and an element out of
    the array is [undefined]. *)
Definition timer_callback (t : Timer) (pick : nat) (timestamp : JSString)
    : M State unit :=
  let randomResponse := option_map JStr (nth_error (responses t) pick) in
  addMessage (lit "saulo") randomResponse (Some (lit "Saulo")) timestamp.

Definition run_timer (which pick : nat) (timestamp : JSString)
    : M State unit :=
  st <- get ;;
  match nth_error (timers st) which with
  | None => ret tt
  | Some t =>
      modify (set_timers (Part001.remove_nth which (timers st))) ;;
      timer_callback t pick timestamp
  end.

(** [sendMessage()], lines 64-75, up to its first [await]. *)
Definition sendMessage_begin (timestamp : JSString)
    : M State (option JSString) :=
  st <- get ;;
  let text := trim (messageInput_value st) in
  match text with
  | [] => ret None
  | _ =>
      addMessage (lit "user") (Some (JStr text)) None timestamp ;;
      modify clear_input ;;
      modify (set_sendButton_disabled true) ;;
      ret (Some text)
  end.

Definition await_fetch (o : FetchResult) : M State Response :=
  match o with
  | Rejected e => throw e
  | Resolved r => ret r
  end.

(** [await response.json()]: rejected when the body cannot be read or is
    not JSON. *)
Definition await_json (r : Response) : M State JSValue :=
  match body r with
  | BodyText t => call (JSON_parse rt t)
  | BodyFailed e => throw e
  end.

(** [data.text]: a TypeError on [null], else the property or [undefined]. *)
Definition read_text (data : JSValue) : M State (option JSValue) :=
  match data with
  | JNull => throw TypeError_null
  | _ => ret (get_property data (lit "text"))
  end.

(** The rest of [sendMessage()], lines 77-98, from the resumption after
    [fetch] to the end; [o] says how [fetch] and [response.json()]
    settled. *)
Definition sendMessage_settle (text : JSString) (o : FetchResult)
    (timestamp : JSString) : M State unit :=
  try_finally
    (try_catch
       (response <- await_fetch o ;;
        data <- await_json response ;;
        data_text <- read_text data ;;
        addMessage (lit "saulo") data_text (Some (lit "Saulo")) timestamp)
       (fun error => simulateSauloResponse text))
    (modify (set_sendButton_disabled false) ;;
     modify focus).

Definition sendMessage (timestamp : JSString) (o : FetchResult)
    (timestamp' : JSString) : M State unit :=
  started <- sendMessage_begin timestamp ;;
  match started with
  | None => ret tt
  | Some text => sendMessage_settle text o timestamp'
  end.

End WithRuntime.

End Part000Page.

(** A page of the simple version before anything happened. *)
Definition fresh_simple_page (input : JSString) : Part000Page.State :=
  {| Part000Page.messages := [];
     Part000Page.messageInput_value := input;
     Part000Page.messageInput_height := [];
     Part000Page.messageInput_focused := true;
     Part000Page.charCount := [];
     Part000Page.sendButton_disabled := false;
     Part000Page.timers := [] |}.

(** What [sendMessage] of the simple version gets to show of a response:
    the value of [data.text] ([None] inside being [undefined]) when the
    body parsed to something other than [null], and nothing when the
    request, the body or the parsing failed or the body was [null]. *)
Definition simple_reply (rt : Runtime) (o : FetchResult)
    : option (option JSValue) :=
  match o with
  | Rejected _ => None
  | Resolved r =>
      match body r with
      | BodyFailed _ => None
      | BodyText t =>
          match JSON_parse rt t with
          | Throw _ => None
          | Normal JNull => None
          | Normal data => Some (get_property data (lit "text"))
          end
      end
  end.

(** A TypeError for the examples. *)
Definition a_type_error : Error := {| message := lit "TypeError" |}.

(** The body of an error page that is JSON. *)
Definition body_detail : JSString :=
  lit "{" ++ quoted (lit "detail") ++ lit ":" ++ quoted (lit "Internal Server Error")
  ++ lit "}".

Definition detail_parse (s : JSString) : Completion JSValue :=
  if str_eqb s body_detail
  then Normal (JObj [(lit "detail", JStr (lit "Internal Server Error"))])
  else hola_parse s.

Definition detail_runtime : Runtime :=
  {| JSON_parse := detail_parse; Number_toString := canned_toString;
     TypeError_primitive := cannot_convert |}.

(** ** The elements the renderer writes *)

(** A tag: the name between angle brackets. *)
Definition tag (name : JSString) : JSString := LT :: name ++ [GT].

(** The names of the tags in the replacement texts of [renderMarkdown] that
    can reach its result. *)
Definition tag_names : list JSString :=
  [lit "p"; lit "/p"; lit "strong"; lit "/strong"; lit "em"; lit "/em";
   lit "code"; lit "/code"; lit "li"; lit "/li"; lit "ul"; lit "/ul"].

(** A code unit that occurs in a tag. *)
Definition is_tag_unit (c : codeunit) : bool :=
  (c =? LT)%N || (c =? GT)%N || existsb (N.eqb c) (concat tag_names).

(** A text made of code units other than < and of whole tags. *)
Inductive tagged : JSString -> Prop :=
| tagged_nil : tagged []
| tagged_unit (c : codeunit) (s : JSString) :
    c <> LT -> tagged s -> tagged (c :: s)
| tagged_tag (name s : JSString) :
    In name tag_names -> tagged s -> tagged (tag name ++ s).

(** ** Texts around an inline marker *)

(** A text with no asterisk, no backtick and no empty line. *)
Definition plain (s : JSString) : Prop :=
  ~ In STAR s /\ ~ In BACKTICK s /\ includes [LF; LF] s = false.

(** A text with no asterisk and no backtick that stays on its line. *)
Definition one_line (s : JSString) : Prop :=
  ~ In STAR s /\ ~ In BACKTICK s /\
  forallb (fun c => negb (isLineTerminator c)) s = true.

(** The number of asterisks of a text. *)
Definition stars (s : JSString) : nat := count_occ N.eq_dec s STAR.

(** ** Lists *)

(** The text of a list item: one line with no asterisk and no backtick,
    not empty, that does not start with white space. *)
Definition item_text (s : JSString) : Prop :=
  one_line s /\ exists c t, s = c :: t /\ isSpace c = false.

(** No line of the text holds two asterisks; [seen] says whether the line
    so far holds one. *)
Fixpoint one_star_per_line (seen : bool) (s : JSString) : bool :=
  match s with
  | [] => true
  | c :: t =>
      if (c =? STAR)%N then
        if seen then false else one_star_per_line true t
      else if (c =? LF)%N then one_star_per_line false t
      else one_star_per_line seen t
  end.

(** The position is at the start of a line. *)
Definition line_start (before : JSString) : Prop :=
  before = [] \/ exists c b, before = c :: b /\ isLineTerminator c = true.

(** ** [src/static/script.js]: the panel, [sendMessage] and the commands *)

Definition SPACE : codeunit := 32%N.

(** [s.split(sep)] for a separator of one code unit: the texts between the
    occurrences of the separator, the empty ones included; a text without
    the separator is the only element. *)
Fixpoint split (sep : codeunit) (s : JSString) : list JSString :=
  match s with
  | [] => [[]]
  | c :: t =>
      if (c =? sep)%N then [] :: split sep t
      else match split sep t with
           | p :: ps => (c :: p) :: ps
           | [] => [[c]]
           end
  end.

Module StaticPanel.

(** A call of [fetch]: the address, and for a POST the object handed to
    [JSON.stringify] for the body ([None] for a GET).  The method and the
    headers are the same in every POST of the file. *)
Record Request := { url : JSString; post : option JSValue }.

(** The page, as far as [sendMessage], [sendCommand], [changeSauloState],
    [addMessage] and [updateUIFromResponse] touch it.  The elements they
    look up by id are taken to be in the page. *)
Record State := {
  apiUrl : JSString;                    (* this.apiUrl *)
  userId : JSString;                    (* this.userId *)
  messages : list StaticScript.MessageEl;  (* this.messagesContainer's children *)
  messageInput_value : JSString;        (* this.messageInput.value *)
  messageInput_focused : bool;
  sendButton_disabled : bool;           (* this.sendButton.disabled *)
  currentState_textContent : JSString;  (* #currentState *)
  currentState_className : JSString;
  stateCounter_textContent : JSString;  (* #stateCounter *)
  state_buttons : list (option JSString * bool);
      (* the .state-btn elements: dataset.state ([None] when the attribute
         is missing) and whether the class active is on *)
  requests : list Request;              (* the calls of fetch, oldest first *)
  timers : nat                          (* callbacks of setTimeout not yet run,
                                           each one a call of loadSauloState *)
}.

Definition appendChild (el : StaticScript.MessageEl) (st : State) : State :=
  {| apiUrl := apiUrl st; userId := userId st;
     messages := messages st ++ [el];
     messageInput_value := messageInput_value st;
     messageInput_focused := messageInput_focused st;
     sendButton_disabled := sendButton_disabled st;
     currentState_textContent := currentState_textContent st;
     currentState_className := currentState_className st;
     stateCounter_textContent := stateCounter_textContent st;
     state_buttons := state_buttons st;
     requests := requests st;
     timers := timers st |}.

Definition set_messageInput_value (v : JSString) (st : State) : State :=
  {| apiUrl := apiUrl st; userId := userId st;
     messages := messages st;
     messageInput_value := v;
     messageInput_focused := messageInput_focused st;
     sendButton_disabled := sendButton_disabled st;
     currentState_textContent := currentState_textContent st;
     currentState_className := currentState_className st;
     stateCounter_textContent := stateCounter_textContent st;
     state_buttons := state_buttons st;
     requests := requests st;
     timers := timers st |}.

Definition focus (st : State) : State :=
  {| apiUrl := apiUrl st; userId := userId st;
     messages := messages st;
     messageInput_value := messageInput_value st;
     messageInput_focused := true;
     sendButton_disabled := sendButton_disabled st;
     currentState_textContent := currentState_textContent st;
     currentState_className := currentState_className st;
     stateCounter_textContent := stateCounter_textContent st;
     state_buttons := state_buttons st;
     requests := requests st;
     timers := timers st |}.

Definition set_sendButton_disabled (b : bool) (st : State) : State :=
  {| apiUrl := apiUrl st; userId := userId st;
     messages := messages st;
     messageInput_value := messageInput_value st;
     messageInput_focused := messageInput_focused st;
     sendButton_disabled := b;
     currentState_textContent := currentState_textContent st;
     currentState_className := currentState_className st;
     stateCounter_textContent := stateCounter_textContent st;
     state_buttons := state_buttons st;
     requests := requests st;
     timers := timers st |}.

Definition set_currentState_textContent (t : JSString) (st : State) : State :=
  {| apiUrl := apiUrl st; userId := userId st;
     messages := messages st;
     messageInput_value := messageInput_value st;
     messageInput_focused := messageInput_focused st;
     sendButton_disabled := sendButton_disabled st;
     currentState_textContent := t;
     currentState_className := currentState_className st;
     stateCounter_textContent := stateCounter_textContent st;
     state_buttons := state_buttons st;
     requests := requests st;
     timers := timers st |}.

Definition set_currentState_className (c : JSString) (st : State) : State :=
  {| apiUrl := apiUrl st; userId := userId st;
     messages := messages st;
     messageInput_value := messageInput_value st;
     messageInput_focused := messageInput_focused st;
     sendButton_disabled := sendButton_disabled st;
     currentState_textContent := currentState_textContent st;
     currentState_className := c;
     stateCounter_textContent := stateCounter_textContent st;
     state_buttons := state_buttons st;
     requests := requests st;
     timers := timers st |}.

Definition set_stateCounter_textContent (t : JSString) (st : State) : State :=
  {| apiUrl := apiUrl st; userId := userId st;
     messages := messages st;
     messageInput_value := messageInput_value st;
     messageInput_focused := messageInput_focused st;
     sendButton_disabled := sendButton_disabled st;
     currentState_textContent := currentState_textContent st;
     currentState_className := currentState_className st;
     stateCounter_textContent := t;
     state_buttons := state_buttons st;
     requests := requests st;
     timers := timers st |}.

Definition set_state_buttons (bs : list (option JSString * bool)) (st : State)
    : State :=
  {| apiUrl := apiUrl st; userId := userId st;
     messages := messages st;
     messageInput_value := messageInput_value st;
     messageInput_focused := messageInput_focused st;
     sendButton_disabled := sendButton_disabled st;
     currentState_textContent := currentState_textContent st;
     currentState_className := currentState_className st;
     stateCounter_textContent := stateCounter_textContent st;
     state_buttons := bs;
     requests := requests st;
     timers := timers st |}.

(** [fetch(...)]: the call is made; what it settles to comes later. *)
Definition fetch (r : Request) (st : State) : State :=
  {| apiUrl := apiUrl st; userId := userId st;
     messages := messages st;
     messageInput_value := messageInput_value st;
     messageInput_focused := messageInput_focused st;
     sendButton_disabled := sendButton_disabled st;
     currentState_textContent := currentState_textContent st;
     currentState_className := currentState_className st;
     stateCounter_textContent := stateCounter_textContent st;
     state_buttons := state_buttons st;
     requests := requests st ++ [r];
     timers := timers st |}.

Definition setTimeout (st : State) : State :=
  {| apiUrl := apiUrl st; userId := userId st;
     messages := messages st;
     messageInput_value := messageInput_value st;
     messageInput_focused := messageInput_focused st;
     sendButton_disabled := sendButton_disabled st;
     currentState_textContent := currentState_textContent st;
     currentState_className := currentState_className st;
     stateCounter_textContent := stateCounter_textContent st;
     state_buttons := state_buttons st;
     requests := requests st;
     timers := S (timers st) |}.

(** ToBoolean of a value that may be [undefined]. *)
Definition truthy_opt (v : option JSValue) : bool :=
  match v with
  | Some x => truthy x
  | None => false
  end.

(** [btn.dataset.state === v]: strict equality of the attribute, a string
    or [undefined], with a value that may be [undefined]. *)
Definition strict_equal (d : option JSString) (v : option JSValue) : bool :=
  match d, v with
  | None, None => true
  | Some s, Some (JStr s') => str_eqb s s'
  | _, _ => false
  end.

(** A property of an object literal handed to [JSON.stringify], which
    leaves out a property whose value is [undefined]. *)
Definition property (key : JSString) (v : option JSValue)
    : list (JSString * JSValue) :=
  match v with
  | Some x => [(key, x)]
  | None => []
  end.

(** Line 192: [command.includes(' ') ? command.split(' ')[1] : ''] *)
Definition command_text (command : JSString) : option JSString :=
  if includes [SPACE] command then nth_error (split SPACE command) 1
  else Some [].

(** Line 193: [command.split(' ')[0]] *)
Definition command_name (command : JSString) : option JSString :=
  nth_error (split SPACE command) 0.

(** The object of lines 190-194. *)
Definition command_body (user command : JSString) : JSValue :=
  JObj (property (lit "user_id") (Some (JStr user))
        ++ property (lit "text") (option_map JStr (command_text command))
        ++ property (lit "comando_especial")
             (option_map JStr (command_name command))).

(** The object of lines 159-162. *)
Definition message_body (user text : JSString) : JSValue :=
  JObj (property (lit "user_id") (Some (JStr user))
        ++ property (lit "text") (Some (JStr text))).

(** The object of lines 211-215; [newState] is [dataset.state] of the
    button. *)
Definition state_body (user : JSString) (newState : option JSString) : JSValue :=
  JObj (property (lit "user_id") (Some (JStr user))
        ++ property (lit "comando_especial") (Some (JStr (lit "/estado")))
        ++ property (lit "text") (option_map JStr newState)).

Definition conversar (st : State) (body : JSValue) : Request :=
  {| url := apiUrl st ++ lit "/conversar"; post := Some body |}.

(** The call of [fetch] in [loadSauloState()], line 92. *)
Definition estado (st : State) : Request :=
  {| url := apiUrl st ++ lit "/estado/" ++ userId st; post := None |}.

(** What [sendMessage] did up to its first [await] or its return. *)
Inductive Sent :=
| Nothing
| Command (command : JSString)
| Message (text : JSString).

Section WithRuntime.

Variable rt : Runtime.

(** The TypeErrors of the engine, whose messages are the engine's: for a
    property read on [null], and for the call of [replace] on a value that
    is not a string. *)
Variable TypeError_null : Error.
Variable TypeError_replace : option JSValue -> Error.

(** ToString of a value that may be [undefined], as the setter of
    [className] and a template literal apply it; it may throw. *)
Definition ToString_opt (v : option JSValue) : Completion JSString :=
  match v with
  | Some x => ToString rt x
  | None => Normal (lit "undefined")
  end.

(** [data.key]: a TypeError on [null], else the property or [undefined]. *)
Definition read (data : JSValue) (key : JSString) : M State (option JSValue) :=
  match data with
  | JNull => throw TypeError_null
  | _ => ret (get_property data key)
  end.

(** [addMessage(type, text, sender)], lines 227-246, for any value of
    [text]: line 239 calls [text.replace], which only a string has, before
    anything is appended. *)
Definition addMessage (type : JSString) (text : option JSValue)
    (sender : option JSString) (timestamp : JSString) : M State unit :=
  match text with
  | Some (JStr s) =>
      modify (appendChild (StaticScript.messageEl type s sender timestamp))
  | _ => throw (TypeError_replace text)
  end.

(** [loadSauloState()], lines 90-98, up to its [await]: the request is
    made.  The call is never awaited and catches its own errors. *)
Definition loadSauloState_begin : M State unit :=
  st <- get ;;
  modify (fetch (estado st)).

(** [updateUIFromResponse(response)], lines 252-265.  Each write to
    [textContent] or [className] converts the value first and throws when
    that cannot be done. *)
Definition updateUIFromResponse (response : JSValue) : M State unit :=
  estado_actual <- read response (lit "estado_actual") ;;
  t <- call (Part000Page.textContent_of rt estado_actual) ;;
  modify (set_currentState_textContent t) ;;
  estado_actual <- read response (lit "estado_actual") ;;
  c <- call (ToString_opt estado_actual) ;;
  modify (set_currentState_className c) ;;
  contador_estado <- read response (lit "contador_estado") ;;
  t <- call (Part000Page.textContent_of rt contador_estado) ;;
  modify (set_stateCounter_textContent t) ;;
  estado_actual <- read response (lit "estado_actual") ;;
  modify (fun st =>
    set_state_buttons
      (map (fun btn => (fst btn, strict_equal (fst btn) estado_actual))
           (state_buttons st))
      st) ;;
  modify setTimeout.

(** [sendCommand(command)], lines 183-195, up to its [await]. *)
Definition sendCommand_begin (command : JSString) (timestamp : JSString)
    : M State unit :=
  addMessage (lit "user") (Some (JStr command)) None timestamp ;;
  st <- get ;;
  modify (fetch (conversar st (command_body (userId st) command))).

Definition await_fetch (o : FetchResult) : M State Response :=
  match o with
  | Rejected e => throw e
  | Resolved r => ret r
  end.

Definition await_json (r : Response) : M State JSValue :=
  match body r with
  | BodyText t => call (JSON_parse rt t)
  | BodyFailed e => throw e
  end.

(** The rest of [sendCommand], lines 186-203, from the resumption after
    [fetch]. *)
Definition sendCommand_settle (o : FetchResult) (timestamp : JSString)
    : M State unit :=
  try_catch
    (response <- await_fetch o ;;
     data <- await_json response ;;
     data_text <- read data (lit "text") ;;
     addMessage (lit "system") data_text None timestamp ;;
     loadSauloState_begin)
    (fun error =>
       addMessage (lit "system") (Some (JStr (lit "Error: " ++ message error)))
         None timestamp).

(** [sendMessage()], lines 137-163, up to its first [await] or its
    [return]. *)
Definition sendMessage_begin (timestamp : JSString) : M State Sent :=
  st <- get ;;
  let text := trim (messageInput_value st) in
  match text with
  | [] => ret Nothing
  | _ =>
      if starts_with (lit "/") text then
        sendCommand_begin text timestamp ;;
        modify (set_messageInput_value []) ;;
        ret (Command text)
      else
        addMessage (lit "user") (Some (JStr text)) None timestamp ;;
        modify (set_messageInput_value []) ;;
        modify (set_sendButton_disabled true) ;;
        st <- get ;;
        modify (fetch (conversar st (message_body (userId st) text))) ;;
        ret (Message text)
  end.

(** The rest of [sendMessage()], lines 155-180. *)
Definition sendMessage_settle (o : FetchResult) (timestamp : JSString)
    : M State unit :=
  try_finally
    (try_catch
       (response <- await_fetch o ;;
        data <- await_json response ;;
        bloqueado <- read data (lit "bloqueado") ;;
        messageClass <-
          (if truthy_opt bloqueado then ret (lit "saulo blocked")
           else
             es_ontologico <- read data (lit "es_ontologico") ;;
             ret (if truthy_opt es_ontologico then lit "saulo ontological"
                  else lit "saulo")) ;;
        data_text <- read data (lit "text") ;;
        addMessage messageClass data_text (Some (lit "Saulo")) timestamp ;;
        updateUIFromResponse data)
       (fun error =>
          addMessage (lit "system")
            (Some (JStr (lit "Error de conexi" ++ [o_acute] ++ lit "n con Saulo.")))
            None timestamp))
    (modify (set_sendButton_disabled false) ;;
     modify focus).

(** [changeSauloState(newState)], lines 206-216, up to its [await]. *)
Definition changeSauloState_begin (newState : option JSString) : M State unit :=
  st <- get ;;
  modify (fetch (conversar st (state_body (userId st) newState))).

(** The rest of [changeSauloState], lines 218-224; the handler only writes
    to the console. *)
Definition changeSauloState_settle (o : FetchResult) (timestamp : JSString)
    : M State unit :=
  try_catch
    (response <- await_fetch o ;;
     data <- await_json response ;;
     data_text <- read data (lit "text") ;;
     addMessage (lit "system") data_text None timestamp ;;
     loadSauloState_begin)
    (fun error => ret tt).

End WithRuntime.

End StaticPanel.

(** The text of a reply that the panel can show: the body was read and
    parsed to something other than [null] whose [text] is a string. *)
Definition panel_reply (rt : Runtime) (o : FetchResult)
    : option (JSValue * JSString) :=
  match o with
  | Rejected _ => None
  | Resolved r =>
      match body r with
      | BodyFailed _ => None
      | BodyText t =>
          match JSON_parse rt t with
          | Throw _ => None
          | Normal JNull => None
          | Normal data =>
              match get_property data (lit "text") with
              | Some (JStr s) => Some (data, s)
              | _ => None
              end
          end
      end
  end.

(** The class of a reply, lines 168-169. *)
Definition reply_class (data : JSValue) : JSString :=
  if StaticPanel.truthy_opt (get_property data (lit "bloqueado"))
  then lit "saulo blocked"
  else if StaticPanel.truthy_opt (get_property data (lit "es_ontologico"))
       then lit "saulo ontological"
       else lit "saulo".

(** The error of a command that could not be shown: the one [fetch] or
    [response.json()] was rejected with, or the TypeError of the engine. *)
Definition command_error (rt : Runtime) (te_null : Error)
    (te_replace : option JSValue -> Error) (o : FetchResult) : Error :=
  match o with
  | Rejected e => e
  | Resolved r =>
      match body r with
      | BodyFailed e => e
      | BodyText t =>
          match JSON_parse rt t with
          | Throw e => e
          | Normal JNull => te_null
          | Normal data => te_replace (get_property data (lit "text"))
          end
      end
  end.

(** A panel before anything happened, with three state buttons. *)
Definition fresh_panel_page (input : JSString) : StaticPanel.State :=
  {| StaticPanel.apiUrl := lit "http://localhost:8000";
     StaticPanel.userId := lit "pablo_main";
     StaticPanel.messages := [];
     StaticPanel.messageInput_value := input;
     StaticPanel.messageInput_focused := false;
     StaticPanel.sendButton_disabled := false;
     StaticPanel.currentState_textContent := [];
     StaticPanel.currentState_className := [];
     StaticPanel.stateCounter_textContent := [];
     StaticPanel.state_buttons :=
       [(Some (lit "base"), true); (Some (lit "ontologico"), false);
        (None, false)];
     StaticPanel.requests := [];
     StaticPanel.timers := 0 |}.

(** The TypeErrors for the examples. *)
Definition a_replace_error (v : option JSValue) : Error :=
  {| message := lit "text.replace is not a function" |}.

(** ** [src/static/script.js]: the state of Saulo *)

Module StatePanel.

(** A child of the element [#insights]. *)
Record InsightEl := {
  className : JSString;
  innerHTML : JSString
}.

(** The page, as far as [loadSauloState] and [updateUIState] touch it.  The
    elements they look up by id are taken to be in the page. *)
Record State := {
  currentState_textContent : JSString;         (* #currentState *)
  currentState_className : JSString;
  stateCounter_textContent : JSString;         (* #stateCounter *)
  ontologicalExchanges_textContent : JSString; (* #ontologicalExchanges *)
  lastTopic_textContent : JSString;            (* #lastTopic *)
  state_buttons : list (option JSString * bool);
      (* the .state-btn elements: dataset.state and the class active *)
  insights : list InsightEl                    (* #insights' children *)
}.

Definition set_currentState_textContent (t : JSString) (st : State) : State :=
  {| currentState_textContent := t;
     currentState_className := currentState_className st;
     stateCounter_textContent := stateCounter_textContent st;
     ontologicalExchanges_textContent := ontologicalExchanges_textContent st;
     lastTopic_textContent := lastTopic_textContent st;
     state_buttons := state_buttons st;
     insights := insights st |}.

Definition set_currentState_className (c : JSString) (st : State) : State :=
  {| currentState_textContent := currentState_textContent st;
     currentState_className := c;
     stateCounter_textContent := stateCounter_textContent st;
     ontologicalExchanges_textContent := ontologicalExchanges_textContent st;
     lastTopic_textContent := lastTopic_textContent st;
     state_buttons := state_buttons st;
     insights := insights st |}.

Definition set_stateCounter_textContent (t : JSString) (st : State) : State :=
  {| currentState_textContent := currentState_textContent st;
     currentState_className := currentState_className st;
     stateCounter_textContent := t;
     ontologicalExchanges_textContent := ontologicalExchanges_textContent st;
     lastTopic_textContent := lastTopic_textContent st;
     state_buttons := state_buttons st;
     insights := insights st |}.

Definition set_ontologicalExchanges_textContent (t : JSString) (st : State)
    : State :=
  {| currentState_textContent := currentState_textContent st;
     currentState_className := currentState_className st;
     stateCounter_textContent := stateCounter_textContent st;
     ontologicalExchanges_textContent := t;
     lastTopic_textContent := lastTopic_textContent st;
     state_buttons := state_buttons st;
     insights := insights st |}.

Definition set_lastTopic_textContent (t : JSString) (st : State) : State :=
  {| currentState_textContent := currentState_textContent st;
     currentState_className := currentState_className st;
     stateCounter_textContent := stateCounter_textContent st;
     ontologicalExchanges_textContent := ontologicalExchanges_textContent st;
     lastTopic_textContent := t;
     state_buttons := state_buttons st;
     insights := insights st |}.

Definition set_state_buttons (bs : list (option JSString * bool)) (st : State)
    : State :=
  {| currentState_textContent := currentState_textContent st;
     currentState_className := currentState_className st;
     stateCounter_textContent := stateCounter_textContent st;
     ontologicalExchanges_textContent := ontologicalExchanges_textContent st;
     lastTopic_textContent := lastTopic_textContent st;
     state_buttons := bs;
     insights := insights st |}.

Definition set_insights (l : list InsightEl) (st : State) : State :=
  {| currentState_textContent := currentState_textContent st;
     currentState_className := currentState_className st;
     stateCounter_textContent := stateCounter_textContent st;
     ontologicalExchanges_textContent := ontologicalExchanges_textContent st;
     lastTopic_textContent := lastTopic_textContent st;
     state_buttons := state_buttons st;
     insights := l |}.

Definition appendChild (el : InsightEl) (st : State) : State :=
  set_insights (insights st ++ [el]) st.

(** [a || b] for a first operand that may be [undefined]. *)
Definition or_else (a : option JSValue) (b : JSValue) : JSValue :=
  match a with
  | Some x => if truthy x then x else b
  | None => b
  end.

(** [l.forEach(f)] on an array. *)
Fixpoint forEach {A} (f : A -> M State unit) (l : list A) : M State unit :=
  match l with
  | [] => ret tt
  | x :: l' => f x ;; forEach f l'
  end.

Section WithRuntime.

Variable rt : Runtime.

(** Of the engine: the TypeError for a property read on [null] or
    [undefined], the TypeError for the call of a [forEach] that is not a
    function, and the comparison [v > 0] for the value of a property
    [length] of an object. *)
Variable TypeError_null : Error.
Variable TypeError_forEach : Error.
Variable greater_than_zero : option JSValue -> bool.

(** [v.key] on a value that may be [undefined]: a TypeError on [undefined]
    and on [null]. *)
Definition read (v : option JSValue) (key : JSString)
    : M State (option JSValue) :=
  match v with
  | None => throw TypeError_null
  | Some JNull => throw TypeError_null
  | Some data => ret (get_property data key)
  end.

(** The element of lines 122-131 for one insight. *)
Definition insightEl (category interpretation : JSString) : InsightEl :=
  {| className := lit "insight-item";
     innerHTML :=
       nl 20 ++ lit "<div style="
             ++ quoted (lit "color: #a78bfa; font-size: 0.8rem; font-weight: 600; margin-bottom: 0.25rem;")
             ++ lit ">" ++
       nl 24 ++ category ++
       nl 20 ++ lit "</div>" ++
       nl 20 ++ lit "<div style="
             ++ quoted (lit "font-size: 0.85rem; color: #cbd5e1;") ++ lit ">" ++
       nl 24 ++ interpretation ++
       nl 20 ++ lit "</div>" ++
       nl 16 |}.

(** The callback of [forEach], lines 121-133.  The template literal
    converts each of its two values as it comes to it and throws when that
    cannot be done, before the element is appended. *)
Definition add_insight (insight : JSValue) : M State unit :=
  category <- read (Some insight) (lit "category") ;;
  category_text <-
    call (ToString rt
            (or_else category
               (JStr (lit "Ontol" ++ [o_acute] ++ lit "gico")))) ;;
  interpretation <- read (Some insight) (lit "interpretation") ;;
  interpretation_text <- call (StaticPanel.ToString_opt rt interpretation) ;;
  modify (appendChild (insightEl category_text interpretation_text)).

(** Lines 120-134: the test and the loop.  Only an array has [forEach];
    a string has a [length], an object has the [length] it was given, and
    no other value has one. *)
Definition show_insights (insights_ontologicos : option JSValue)
    : M State unit :=
  match insights_ontologicos with
  | None => ret tt
  | Some (JArr l) =>
      match l with
      | [] => ret tt
      | _ => forEach add_insight l
      end
  | Some (JStr s) =>
      match s with
      | [] => ret tt
      | _ => throw TypeError_forEach
      end
  | Some (JObj ps) =>
      if greater_than_zero (lookup (lit "length") ps)
      then throw TypeError_forEach
      else ret tt
  | Some _ => ret tt
  end.

(** [updateUIState(data)], lines 100-135.  Each write to [textContent] or
    [className] converts the value first and throws when that cannot be
    done. *)
Definition updateUIState (data : JSValue) : M State unit :=
  estado <- read (Some data) (lit "estado") ;;
  insights_ontologicos <- read (Some data) (lit "insights_ontologicos") ;;
  current_state <- read estado (lit "current_state") ;;
  t <- call (Part000Page.textContent_of rt current_state) ;;
  modify (set_currentState_textContent t) ;;
  current_state <- read estado (lit "current_state") ;;
  c <- call (StaticPanel.ToString_opt rt current_state) ;;
  modify (set_currentState_className c) ;;
  state_counter <- read estado (lit "state_counter") ;;
  t <- call (Part000Page.textContent_of rt state_counter) ;;
  modify (set_stateCounter_textContent t) ;;
  total <- read estado (lit "total_ontological_exchanges") ;;
  t <- call (Part000Page.textContent_of rt (Some (or_else total (JNum 0)))) ;;
  modify (set_ontologicalExchanges_textContent t) ;;
  last_deep_topic <- read estado (lit "last_deep_topic") ;;
  t <- call (Part000Page.textContent_of rt
               (Some (or_else last_deep_topic (JStr (lit "Ninguno"))))) ;;
  modify (set_lastTopic_textContent t) ;;
  current_state <- read estado (lit "current_state") ;;
  modify (fun st =>
    set_state_buttons
      (map (fun btn =>
              (fst btn, StaticPanel.strict_equal (fst btn) current_state))
           (state_buttons st))
      st) ;;
  modify (set_insights []) ;;
  show_insights insights_ontologicos.

Definition await_fetch (o : FetchResult) : M State Response :=
  match o with
  | Rejected e => throw e
  | Resolved r => ret r
  end.

Definition await_json (r : Response) : M State JSValue :=
  match body r with
  | BodyText t => call (JSON_parse rt t)
  | BodyFailed e => throw e
  end.

(** [loadSauloState()], lines 90-98, from the resumption after [fetch];
    the handler only writes to the console. *)
Definition loadSauloState_settle (o : FetchResult) : M State unit :=
  try_catch
    (response <- await_fetch o ;;
     data <- await_json response ;;
     updateUIState data)
    (fun error => ret tt).

End WithRuntime.

End StatePanel.

(** The state that a response carries: the body was read and parsed to
    something other than [null] whose [estado] is neither missing nor
    [null].  The result is the parsed value and its [estado]. *)
Definition estado_of (rt : Runtime) (o : FetchResult)
    : option (JSValue * JSValue) :=
  match o with
  | Rejected _ => None
  | Resolved r =>
      match body r with
      | BodyFailed _ => None
      | BodyText t =>
          match JSON_parse rt t with
          | Throw _ => None
          | Normal JNull => None
          | Normal data =>
              match get_property data (lit "estado") with
              | Some JNull => None
              | Some e => Some (data, e)
              | None => None
              end
          end
      end
  end.

(** The element shown for an insight that is not [null], or the TypeError
    of the conversion of its category or its interpretation. *)
Definition shown_insight (rt : Runtime) (insight : JSValue)
    : Completion StatePanel.InsightEl :=
  match ToString rt
          (StatePanel.or_else (get_property insight (lit "category"))
             (JStr (lit "Ontol" ++ [o_acute] ++ lit "gico"))) with
  | Throw e => Throw e
  | Normal category =>
      match StaticPanel.ToString_opt rt
              (get_property insight (lit "interpretation")) with
      | Throw e => Throw e
      | Normal interpretation =>
          Normal (StatePanel.insightEl category interpretation)
      end
  end.

(** The elements shown for an array of insights: those of the insights
    before the first one that is [null] or cannot be shown. *)
Fixpoint shown_insights (rt : Runtime) (l : list JSValue)
    : list StatePanel.InsightEl :=
  match l with
  | [] => []
  | JNull :: _ => []
  | x :: l' =>
      match shown_insight rt x with
      | Normal el => el :: shown_insights rt l'
      | Throw _ => []
      end
  end.

(** A state panel that shows an earlier state and two insights. *)
Definition stale_state_panel : StatePanel.State :=
  {| StatePanel.currentState_textContent := lit "base";
     StatePanel.currentState_className := lit "base";
     StatePanel.stateCounter_textContent := lit "3";
     StatePanel.ontologicalExchanges_textContent := lit "0";
     StatePanel.lastTopic_textContent := lit "Ninguno";
     StatePanel.state_buttons :=
       [(Some (lit "base"), true); (Some (lit "ontologico"), false)];
     StatePanel.insights :=
       [StatePanel.insightEl (lit "a") (lit "b");
        StatePanel.insightEl (lit "c") (lit "d")] |}.

(** A reply with a state and one insight whose interpretation is markup,
    and the text of its body. *)
Definition estado_value : JSValue :=
  JObj [(lit "estado",
         JObj [(lit "current_state", JStr (lit "ontologico"));
               (lit "state_counter", JStr (lit "4"))]);
        (lit "insights_ontologicos",
         JArr [JObj [(lit "interpretation", JStr (lit "<img src=x>"))]])].

Definition body_estado : JSString := JSON_stringify canned_runtime estado_value.

Definition estado_parse (s : JSString) : Completion JSValue :=
  if str_eqb s body_estado then Normal estado_value else canned_parse s.

Definition estado_runtime : Runtime :=
  {| JSON_parse := estado_parse; Number_toString := canned_toString;
     TypeError_primitive := cannot_convert |}.


(** ** Tactics that run the page *)

Ltac run_page :=
  cbv [Part001.sendMessage Part001.sendMessage_begin Part001.sendMessage_settle
       Part001.checkConnection Part001.run_timer Part001.timer_callback
       Part001.on_click Part001.on_keydown
       Part001.await_fetch Part001.await_text Part001.addMessage
       Part001.simulateSauloResponse
       try_finally try_catch bind ret throw modify call get].

Ltac page_fields :=
  cbn [Part001.messages Part001.timers Part001.sendButton_disabled
       Part001.messageInput_value Part001.messageInput_focused
       Part001.statusText Part001.statusDot_connected
       Part001.statusDot_background
       Part001.focus Part001.set_sendButton_disabled Part001.setTimeout
       Part001.appendChild Part001.set_timers Part001.set_messageInput_value
       Part001.set_statusText Part001.set_statusDot_background
       Part001.classList_add_connected].

Ltac run_panel :=
  cbv [StaticScript.checkConnection StaticScript.await_fetch
       StaticScript.await_json StaticScript.showMessage StaticScript.addMessage
       try_finally try_catch bind ret throw modify call get].

Ltac run_simple :=
  cbv [Part000Page.sendMessage Part000Page.sendMessage_begin
       Part000Page.sendMessage_settle Part000Page.run_timer
       Part000Page.timer_callback Part000Page.await_fetch
       Part000Page.await_json Part000Page.read_text Part000Page.addMessage
       Part000Page.simulateSauloResponse
       try_finally try_catch bind ret throw modify call get].

Ltac simple_fields :=
  cbn [Part000Page.messages Part000Page.timers Part000Page.sendButton_disabled
       Part000Page.messageInput_value Part000Page.messageInput_focused
       Part000Page.messageInput_height Part000Page.charCount
       Part000Page.focus Part000Page.set_sendButton_disabled
       Part000Page.appendChild Part000Page.set_timers Part000Page.clear_input].

Ltac run_static :=
  cbv [StaticPanel.sendMessage_begin StaticPanel.sendMessage_settle
       StaticPanel.sendCommand_begin StaticPanel.sendCommand_settle
       StaticPanel.changeSauloState_begin StaticPanel.changeSauloState_settle
       StaticPanel.loadSauloState_begin StaticPanel.updateUIFromResponse
       StaticPanel.addMessage StaticPanel.read
       StaticPanel.await_fetch StaticPanel.await_json
       try_finally try_catch bind ret throw modify call get].

Ltac static_fields :=
  cbn [StaticPanel.apiUrl StaticPanel.userId StaticPanel.messages
       StaticPanel.messageInput_value StaticPanel.messageInput_focused
       StaticPanel.sendButton_disabled StaticPanel.currentState_textContent
       StaticPanel.currentState_className StaticPanel.stateCounter_textContent
       StaticPanel.state_buttons StaticPanel.requests StaticPanel.timers
       StaticPanel.appendChild StaticPanel.set_messageInput_value
       StaticPanel.focus StaticPanel.set_sendButton_disabled
       StaticPanel.set_currentState_textContent
       StaticPanel.set_currentState_className
       StaticPanel.set_stateCounter_textContent StaticPanel.set_state_buttons
       StaticPanel.fetch StaticPanel.setTimeout].

Ltac run_state :=
  cbv [StatePanel.loadSauloState_settle StatePanel.updateUIState
       StatePanel.show_insights StatePanel.add_insight StatePanel.read
       StatePanel.await_fetch StatePanel.await_json
       try_finally try_catch bind ret throw modify call get].

Ltac state_fields :=
  cbn [StatePanel.currentState_textContent StatePanel.currentState_className
       StatePanel.stateCounter_textContent
       StatePanel.ontologicalExchanges_textContent
       StatePanel.lastTopic_textContent StatePanel.state_buttons
       StatePanel.insights
       StatePanel.set_currentState_textContent
       StatePanel.set_currentState_className
       StatePanel.set_stateCounter_textContent
       StatePanel.set_ontologicalExchanges_textContent
       StatePanel.set_lastTopic_textContent StatePanel.set_state_buttons
       StatePanel.set_insights StatePanel.appendChild].

(** ** Strings *)

Lemma starts_with_app (needle b : JSString) :
  starts_with needle (needle ++ b) = true.
Proof.
  induction needle as [|c n IH]; [now destruct b|].
  cbn. now rewrite N.eqb_refl, IH.
Qed.

Lemma includes_app (needle a b : JSString) :
  includes needle (a ++ needle ++ b) = true.
Proof.
  induction a as [|x a IH].
  - cbn [app]. destruct (needle ++ b) eqn:E;
      cbn [includes]; rewrite <- E, starts_with_app; reflexivity.
  - cbn [app includes]. rewrite IH. apply orb_true_r.
Qed.

(** A text that [includes] does not find in [s] occurs nowhere in [s]. *)
Lemma includes_false (needle s : JSString) :
  includes needle s = false -> forall a b, s <> a ++ needle ++ b.
Proof.
  intros H a b ->. now rewrite includes_app in H.
Qed.

(** ** The escaper *)

Lemma escapeHtml_escape_string (text : JSString) :
  Part001.escapeHtml text = Dom.escape_string text.
Proof.
  unfold Part001.escapeHtml, Dom.set_textContent, Dom.get_innerHTML.
  destruct text as [|c t]; [reflexivity|].
  cbn [flat_map Dom.serialize]. now rewrite app_nil_r.
Qed.

Lemma escapeHtml_app (a b : JSString) :
  Part001.escapeHtml (a ++ b) = Part001.escapeHtml a ++ Part001.escapeHtml b.
Proof.
  rewrite !escapeHtml_escape_string. unfold Dom.escape_string.
  apply flat_map_app.
Qed.

Lemma escape_unit_no_angle (c x : codeunit) :
  In x (Dom.escape_unit c) -> x <> LT /\ x <> GT.
Proof.
  unfold Dom.escape_unit.
  destruct (N.eqb_spec c AMP) as [->|Hamp].
  { cbn. intros H. repeat (destruct H as [<-|H]; [split; discriminate|]). destruct H. }
  destruct (N.eqb_spec c NBSP) as [->|Hnb].
  { cbn. intros H. repeat (destruct H as [<-|H]; [split; discriminate|]). destruct H. }
  destruct (N.eqb_spec c LT) as [->|Hlt].
  { cbn. intros H. repeat (destruct H as [<-|H]; [split; discriminate|]). destruct H. }
  destruct (N.eqb_spec c GT) as [->|Hgt].
  { cbn. intros H. repeat (destruct H as [<-|H]; [split; discriminate|]). destruct H. }
  intros [<-|[]]. now split.
Qed.

(** No raw angle bracket survives [escapeHtml]. *)
Lemma escapeHtml_no_angle (text : JSString) :
  ~ In LT (Part001.escapeHtml text) /\ ~ In GT (Part001.escapeHtml text).
Proof.
  rewrite escapeHtml_escape_string. unfold Dom.escape_string.
  split; intros H; apply in_flat_map in H; destruct H as [c [_ H]];
    apply escape_unit_no_angle in H; destruct H; congruence.
Qed.

(** C4, as stated, fails: the quotation mark and the apostrophe come out of
    [escapeHtml] as they went in, not as entities, and the no-break space,
    which is none of the five characters, comes out as an entity. *)
Lemma escapeHtml_keeps_quotes :
  Part001.escapeHtml [DQUOTE; APOS; NBSP] = [DQUOTE; APOS] ++ lit "&nbsp;" /\
  Spec.five_entities_escape [DQUOTE; APOS; NBSP]
  = lit "&quot;" ++ lit "&#39;" ++ [NBSP] /\
  Part001.escapeHtml [DQUOTE; APOS; NBSP]
  <> Spec.five_entities_escape [DQUOTE; APOS; NBSP].
Proof.
  split; [reflexivity | split; [reflexivity | vm_compute; discriminate]].
Qed.

(** C4, amended: [escapeHtml] turns the ampersand, the two angle brackets
    and the no-break space into &amp;, &lt;, &gt; and &nbsp;, leaves every
    other code unit (the quotation mark and the apostrophe among them) as
    it is, and works unit by unit; both versions of the function agree. *)
Theorem escapeHtml_units :
  (forall c : codeunit,
     Part001.escapeHtml [c] =
       if (c =? AMP)%N then lit "&amp;"
       else if (c =? LT)%N then lit "&lt;"
       else if (c =? GT)%N then lit "&gt;"
       else if (c =? NBSP)%N then lit "&nbsp;"
       else [c]) /\
  Part001.escapeHtml [] = [] /\
  (forall a b : JSString,
     Part001.escapeHtml (a ++ b) =
     Part001.escapeHtml a ++ Part001.escapeHtml b) /\
  (forall text : JSString,
     Part000.escapeHtml text = Part001.escapeHtml text).
Proof.
  repeat split.
  - intros c. rewrite escapeHtml_escape_string. cbn. rewrite app_nil_r.
    unfold Dom.escape_unit.
    destruct (N.eqb_spec c AMP) as [->|Hamp]; [reflexivity|].
    destruct (N.eqb_spec c NBSP) as [->|Hnb]; [reflexivity|].
    destruct (N.eqb_spec c LT) as [->|Hlt]; [reflexivity|].
    destruct (N.eqb_spec c GT) as [->|Hgt]; reflexivity.
  - apply escapeHtml_app.
Qed.


(** ** The transcript *)

(** The Markdown version inserts nothing that did not go through
    [escapeHtml] first, and no angle bracket of the text survives it. *)
Lemma markdown_text_is_escaped_first (type text : JSString)
    (sender : option JSString) (timestamp : JSString) :
  contains (Part001.innerHTML (Part001.messageEl type text sender timestamp))
    (Part001.renderMarkdown text) /\
  Part001.renderMarkdown text =
    lit "<p>" ++
    Part001.paragraphs (Part001.codeBlocks (Part001.listWrap
      (Part001.listItems (Part001.inlineCode (Part001.italic
        (Part001.bold (Part001.escapeHtml text)))))))
    ++ lit "</p>" /\
  ~ In LT (Part001.escapeHtml text) /\ ~ In GT (Part001.escapeHtml text).
Proof.
  split; [|split; [reflexivity | apply escapeHtml_no_angle]].
  exists (nl 12 ++ lit "<div class=" ++ quoted (lit "message-content") ++ lit ">" ++
          nl 16 ++ lit "<div class=" ++ quoted (lit "message-text saulo-markdown")
          ++ lit ">").
  eexists. cbn [Part001.innerHTML Part001.messageEl].
  rewrite <- !app_assoc. reflexivity.
Qed.

(** C3, as stated, fails: the Markdown version sends a user message through
    [renderMarkdown] like any other, so its asterisks become markup. *)
Lemma user_message_is_markdown_rendered :
  Part001.renderMarkdown (lit "**hi**") = lit "<p><strong>hi</strong></p>" /\
  Part001.innerHTML
    (Part001.messageEl (lit "user") (lit "**hi**") None (lit "10:00"))
  <> Spec.escaped_only_innerHTML (lit "**hi**") (lit "10:00").
Proof.
  split; [reflexivity | vm_compute; discriminate].
Qed.

(** C3, amended: no version looks at the origin when it renders the text.
    The Markdown version renders every message, a user's included, through
    [renderMarkdown], which escapes first; the simple version renders
    every message through [escapeHtml] alone. *)
Theorem rendering_ignores_origin :
  (forall (type text : JSString) sender (timestamp : JSString),
     Part001.innerHTML (Part001.messageEl type text sender timestamp) =
     nl 12 ++ lit "<div class=" ++ quoted (lit "message-content") ++ lit ">" ++
     nl 16 ++ lit "<div class=" ++ quoted (lit "message-text saulo-markdown")
           ++ lit ">" ++ Part001.renderMarkdown text ++ lit "</div>" ++
     nl 16 ++ lit "<div class=" ++ quoted (lit "message-time") ++ lit ">"
           ++ timestamp ++ lit "</div>" ++
     nl 12 ++ lit "</div>" ++ nl 8) /\
  (forall (type type' text : JSString) sender sender' (timestamp : JSString),
     Part001.innerHTML (Part001.messageEl type text sender timestamp) =
     Part001.innerHTML (Part001.messageEl type' text sender' timestamp)) /\
  (forall text : JSString,
     Part001.renderMarkdown text =
     lit "<p>" ++
     Part001.paragraphs (Part001.codeBlocks (Part001.listWrap
       (Part001.listItems (Part001.inlineCode (Part001.italic
         (Part001.bold (Part001.escapeHtml text)))))))
     ++ lit "</p>") /\
  (forall (type type' text : JSString) sender sender' (timestamp : JSString),
     Part000.innerHTML (Part000.messageEl type text sender timestamp) =
     Part000.innerHTML (Part000.messageEl type' text sender' timestamp) /\
     contains (Part000.innerHTML (Part000.messageEl type text sender timestamp))
       (Part000.escapeHtml text)).
Proof.
  split; [|split; [|split]]; try (intros; reflexivity).
  intros. split; [reflexivity|].
  exists (nl 12 ++ lit "<div class=" ++ quoted (lit "message-content") ++ lit ">" ++
          nl 16 ++ lit "<div class=" ++ quoted (lit "message-text") ++ lit ">").
  eexists. cbn [Part000.innerHTML Part000.messageEl].
  rewrite <- !app_assoc. reflexivity.
Qed.

Lemma replace_newline_no_LF (text : JSString) :
  ~ In LF text ->
  forall before,
    replace_all StaticScript.re_newline [Text (lit "<br>")] 0 before text = text.
Proof.
  induction text as [|c t IH]; intros H before.
  - reflexivity.
  - cbn [replace_all]. unfold match_at. cbn.
    destruct (N.eqb_spec c LF) as [->|Hc].
    + exfalso. apply H. now left.
    + f_equal. apply IH. intros Hin. apply H. now right.
Qed.

(** C2 on [src/static/script.js]: [addMessage] of the control-panel version
    puts the text into the markup as it came, whatever the origin; for a
    text of one line nothing at all is changed, so markup in the text is
    markup in the document. *)
Theorem static_addMessage_inserts_raw_text
    (type text : JSString) (sender : option JSString) (timestamp : JSString) :
  ~ In LF text ->
  exists before after,
    StaticScript.innerHTML (StaticScript.messageEl type text sender timestamp)
    = before ++ lit "<div class=" ++ quoted (lit "text") ++ lit ">"
      ++ text ++ lit "</div>" ++ after.
Proof.
  intros H. unfold StaticScript.messageEl, StaticScript.innerHTML.
  unfold replace. cbn [global fl StaticScript.re_newline].
  rewrite replace_newline_no_LF by exact H.
  match goal with
  | |- exists b a, nl 12 ++ ?x1 ++ ?x2 ++ ?x3 ++ nl 16 ++ ?x4 ++ ?x5 ++ ?x6
         ++ nl 12 ++ ?x7 ++ nl 12 ++ ?x8 ++ ?x9 ++ ?x10 ++ nl 16 ++ ?x11
         ++ ?x12 ++ ?x13 ++ ?x14 ++ ?x15 ++ nl 16 ++ ?rest = _ =>
      exists (nl 12 ++ x1 ++ x2 ++ x3 ++ nl 16 ++ x4 ++ x5 ++ x6
         ++ nl 12 ++ x7 ++ nl 12 ++ x8 ++ x9 ++ x10 ++ nl 16 ++ x11
         ++ x12 ++ x13 ++ x14 ++ x15 ++ nl 16)
  end.
  eexists. rewrite <- !app_assoc. reflexivity.
Qed.

(** C2, at the failing input: a reply carrying an image element with an
    error handler reaches the document as that element. *)
Lemma static_addMessage_inserts_raw_text_witness :
  exists before after,
    StaticScript.innerHTML
      (StaticScript.messageEl (lit "saulo") (lit "<img src=x onerror=alert(1)>")
         (Some (lit "Saulo")) (lit "10:00:00"))
    = before ++ lit "<div class=" ++ quoted (lit "text") ++ lit ">"
      ++ lit "<img src=x onerror=alert(1)>" ++ lit "</div>" ++ after.
Proof.
  apply static_addMessage_inserts_raw_text.
  vm_compute. intuition discriminate.
Defined.

(** ** The Markdown passes *)

Lemma matcher_str (f : flags) (s : JSString) (k : cont) before r cap :
  matcher f (str s) k {| consumed := before; rest := s ++ r; cap1 := cap |}
  = k {| consumed := rev s ++ before; rest := r; cap1 := cap |}.
Proof.
  revert before. induction s as [|c s IH]; intros before.
  - reflexivity.
  - cbn [str matcher rest app consumed cap1]. rewrite N.eqb_refl.
    rewrite IH. cbn [rev]. now rewrite <- app_assoc.
Qed.

Lemma matcher_str_fail (f : flags) (s : JSString) (k : cont) before after cap :
  (forall r, after <> s ++ r) ->
  matcher f (str s) k {| consumed := before; rest := after; cap1 := cap |} = None.
Proof.
  revert before after. induction s as [|c s IH]; intros before after H.
  - exfalso. now apply (H after).
  - cbn [str matcher rest consumed cap1].
    destruct after as [|x t]; [reflexivity|].
    destruct (N.eqb_spec x c) as [->|Hx]; [|reflexivity].
    apply IH. intros r ->. now apply (H r).
Qed.

(** A greedy star gives back everything when the rest of the pattern
    matches at no later position. *)
Lemma rep_greedy_stops (test : codeunit -> bool) (k : cont) cap after :
  forall before,
    (forall u w, u <> [] -> after = u ++ w ->
       k {| consumed := rev u ++ before; rest := w; cap1 := cap |} = None) ->
    rep test true k 0 cap before after
    = k {| consumed := before; rest := after; cap1 := cap |}.
Proof.
  induction after as [|c t IH]; intros before H.
  - reflexivity.
  - cbn [rep pred]. destruct (test c); [|reflexivity].
    rewrite IH.
    + assert (Hc := H [c] t). cbn [rev app] in Hc.
      now rewrite Hc by (discriminate || reflexivity).
    + intros u w Hu ->. specialize (H (c :: u) w).
      cbn [rev] in H. rewrite <- app_assoc in H.
      apply H; [discriminate | reflexivity].
Qed.

(** A greedy star over units that all pass stops at the last position
    where the rest of the pattern matches. *)
Lemma rep_greedy_last (test : codeunit -> bool) (k : cont) cap mid tail r :
  (forall c, test c = true) ->
  forall before,
    (forall u w, u <> [] -> tail = u ++ w ->
       k {| consumed := rev u ++ rev mid ++ before; rest := w; cap1 := cap |}
       = None) ->
    k {| consumed := rev mid ++ before; rest := tail; cap1 := cap |} = Some r ->
    rep test true k 0 cap before (mid ++ tail) = Some r.
Proof.
  intros Htest. induction mid as [|c m IH]; intros before Hlater Hhere.
  - cbn [app rev] in *. now rewrite rep_greedy_stops.
  - cbn [app rep pred]. rewrite Htest.
    rewrite (IH (c :: before)); [reflexivity | |].
    + intros u w Hu Hw. specialize (Hlater u w Hu Hw).
      cbn [rev] in Hlater. now rewrite <- app_assoc in Hlater.
    + cbn [rev] in Hhere. now rewrite <- app_assoc in Hhere.
Qed.

Lemma rep_greedy_none (test : codeunit -> bool) (k : cont) cap after :
  forall before,
    (forall u w, after = u ++ w ->
       k {| consumed := rev u ++ before; rest := w; cap1 := cap |} = None) ->
    rep test true k 0 cap before after = None.
Proof.
  induction after as [|c t IH]; intros before H.
  - cbn [rep]. apply (H [] []). reflexivity.
  - cbn [rep pred].
    assert (Hhere := H [] (c :: t) eq_refl). cbn [rev app] in Hhere.
    destruct (test c); [|exact Hhere].
    rewrite IH; [exact Hhere|].
    intros u w ->. specialize (H (c :: u) w eq_refl).
    cbn [rev] in H. now rewrite <- app_assoc in H.
Qed.

Lemma matched_text (m before : JSString) :
  rev (firstn (List.length (rev m ++ before) - List.length before)
         (rev m ++ before))
  = m.
Proof.
  rewrite length_app.
  replace (_ + _ - _) with (List.length (rev m)) by lia.
  rewrite firstn_app, Nat.sub_diag, firstn_all. cbn [firstn].
  now rewrite app_nil_r, rev_involutive.
Qed.

Lemma prefix_dec (s after : JSString) :
  {r | after = s ++ r} + {forall r, after <> s ++ r}.
Proof.
  revert after. induction s as [|c s IH]; intros after.
  - left. now exists after.
  - destruct after as [|x t]; [right; discriminate|].
    destruct (N.eq_dec x c) as [->|Hx].
    + destruct (IH t) as [[r ->]|Hno].
      * left. now exists r.
      * right. intros r E. injection E as E. now apply (Hno r).
    + right. intros r E. injection E as E _. contradiction.
Defined.

(** No [</li>] starts inside the text that follows one, when the text after
    it holds none. *)
Lemma no_later_close (post u w z : JSString) :
  (forall a b, post <> a ++ lit "</li>" ++ b) ->
  u <> [] ->
  lit "</li>" ++ post = u ++ w ->
  w <> lit "</li>" ++ z.
Proof.
  intros Hpost Hu E ->.
  destruct u as [|u1 [|u2 [|u3 [|u4 [|u5 u]]]]]; [congruence| | | | |];
    cbn in E; try (injection E; intros; subst; discriminate).
  injection E as _ _ _ _ _ E.
  now apply (Hpost u z).
Qed.

(** No [<li>] starts inside a text that holds none, even followed by one. *)
Lemma no_earlier_open (c : codeunit) (pre rest' z : JSString) :
  (forall a b, (c :: pre) ++ lit "<li" <> a ++ lit "<li>" ++ b) ->
  (c :: pre) ++ lit "<li>" ++ rest' <> lit "<li>" ++ z.
Proof.
  intros Hpre E.
  destruct pre as [|p1 [|p2 [|p3 pre]]];
    cbn in E; try (injection E; intros; subst; discriminate).
  injection E as -> -> -> -> E.
  apply (Hpre [] (pre ++ lit "<li")). reflexivity.
Qed.

Lemma match_at_items_fail (before after : JSString) :
  (forall z, after <> lit "<li>" ++ z) ->
  match_at Part001.re_items before after = None.
Proof.
  intros H. unfold match_at.
  cbn [Part001.re_items pattern fl matcher].
  now apply matcher_str_fail.
Qed.

Lemma match_at_items (before mid post : JSString) :
  (forall a b, post <> a ++ lit "</li>" ++ b) ->
  match_at Part001.re_items before (lit "<li>" ++ mid ++ lit "</li>" ++ post)
  = Some {| consumed := rev (lit "<li>" ++ mid ++ lit "</li>") ++ before;
            rest := post;
            cap1 := Some (lit "<li>" ++ mid ++ lit "</li>") |}.
Proof.
  intros Hpost. unfold match_at.
  cbn [Part001.re_items pattern fl matcher].
  rewrite matcher_str.
  cbn [consumed rest cap1].
  erewrite rep_greedy_last.
  - reflexivity.
  - reflexivity.
  - intros u w Hu E. apply matcher_str_fail.
    intros z. now apply (no_later_close Hpost Hu E).
  - rewrite matcher_str. cbn [consumed rest cap1]. unfold between.
    cbn [consumed].
    assert (E : rev (lit "</li>") ++ rev mid ++ rev (lit "<li>") ++ before
                = rev (lit "<li>" ++ mid ++ lit "</li>") ++ before).
    { rewrite !rev_app_distr. now rewrite <- !app_assoc. }
    rewrite E, matched_text. reflexivity.
Qed.

Lemma match_at_items_none (before after : JSString) :
  (forall b c, after <> lit "<li>" ++ b ++ lit "</li>" ++ c) ->
  match_at Part001.re_items before after = None.
Proof.
  intros H. destruct (prefix_dec (lit "<li>") after) as [[r ->]|Hno].
  - unfold match_at. cbn [Part001.re_items pattern fl matcher].
    rewrite matcher_str. cbn [consumed rest cap1].
    apply rep_greedy_none. intros u w ->.
    apply matcher_str_fail. intros z ->. now apply (H u z).
  - now apply match_at_items_fail.
Qed.

Lemma replace_first_eq (re : RegExp) (t : template) (before after : JSString) :
  replace_first re t before after =
  match match_at re before after with
  | Some st => expand t st ++ rest st
  | None =>
      match after with
      | c :: after' => c :: replace_first re t (c :: before) after'
      | [] => []
      end
  end.
Proof. destruct after; reflexivity. Qed.

Lemma replace_first_items (pre mid post : JSString) :
  (forall a b, pre ++ lit "<li" <> a ++ lit "<li>" ++ b) ->
  (forall a b, post <> a ++ lit "</li>" ++ b) ->
  forall before,
    replace_first Part001.re_items
      [Text (lit "<ul>"); Dollar1; Text (lit "</ul>")] before
      (pre ++ lit "<li>" ++ mid ++ lit "</li>" ++ post)
    = pre ++ lit "<ul>" ++ (lit "<li>" ++ mid ++ lit "</li>") ++ lit "</ul>"
      ++ post.
Proof.
  intros Hpre Hpost. induction pre as [|c pre IH]; intros before.
  - rewrite replace_first_eq. cbn [app].
    change (60%N :: 108%N :: 105%N :: 62%N :: mid ++ lit "</li>" ++ post)
      with (lit "<li>" ++ mid ++ lit "</li>" ++ post).
    rewrite (match_at_items before mid Hpost).
    cbn [expand flat_map cap1 rest]. now rewrite app_nil_r, <- !app_assoc.
  - rewrite replace_first_eq, match_at_items_fail.
    + cbn [app]. f_equal. apply IH.
      intros a b E. apply (Hpre (c :: a) b). cbn [app]. now rewrite E.
    + intros z. now apply no_earlier_open.
Qed.

Lemma replace_first_items_none (html : JSString) :
  (forall a b c, html <> a ++ lit "<li>" ++ b ++ lit "</li>" ++ c) ->
  forall before,
    replace_first Part001.re_items
      [Text (lit "<ul>"); Dollar1; Text (lit "</ul>")] before html
    = html.
Proof.
  induction html as [|x html IH]; intros H before;
    rewrite replace_first_eq, match_at_items_none
      by (intros b c; exact (H [] b c)).
  - reflexivity.
  - f_equal. apply IH. intros a b c E. apply (H (x :: a) b c).
    cbn [app]. now rewrite E.
Qed.

(** C6, as stated, fails: with a line of plain text between two list items,
    the text lies inside the list element, and the second item, which is
    not in the first run, lies in it as well. *)
Lemma listWrap_encloses_text_between_items :
  Part001.renderMarkdown
    (lit "* a" ++ [LF] ++ lit "text" ++ [LF] ++ lit "* b")
  = lit "<p><ul><li>a</li>" ++ [LF] ++ lit "text" ++ [LF]
    ++ lit "<li>b</li></ul></p>" /\
  Part001.listWrap (lit "<li>a</li>" ++ [LF] ++ lit "text" ++ [LF] ++ lit "<li>b</li>")
  = lit "<ul><li>a</li>" ++ [LF] ++ lit "text" ++ [LF] ++ lit "<li>b</li></ul>" /\
  Part001.listWrap (lit "<li>a</li>" ++ [LF] ++ lit "text" ++ [LF] ++ lit "<li>b</li>")
  <> lit "<ul><li>a</li></ul>" ++ [LF] ++ lit "text" ++ [LF] ++ lit "<li>b</li>".
Proof.
  split; [reflexivity | split; [reflexivity | vm_compute; discriminate]].
Qed.

(** C6, amended: the list-wrapping pass wraps once, from the first [<li>]
    of the text to the last [</li>] of the text; whatever lies between the
    two, list item or not, is inside the [<ul>] element, and what lies
    before the first [<li>] or after the last [</li>] is outside.  A text
    without a [<li>] that a [</li>] follows is left as it is. *)
Theorem listWrap_first_open_to_last_close :
  (forall pre mid post : JSString,
     (forall a b, pre ++ lit "<li" <> a ++ lit "<li>" ++ b) ->
     (forall a b, post <> a ++ lit "</li>" ++ b) ->
     Part001.listWrap (pre ++ lit "<li>" ++ mid ++ lit "</li>" ++ post)
     = pre ++ lit "<ul>" ++ lit "<li>" ++ mid ++ lit "</li>" ++ lit "</ul>"
       ++ post) /\
  (forall html : JSString,
     (forall a b c, html <> a ++ lit "<li>" ++ b ++ lit "</li>" ++ c) ->
     Part001.listWrap html = html).
Proof.
  split.
  - intros pre mid post Hpre Hpost. unfold Part001.listWrap, replace.
    change (global (fl Part001.re_items)) with false. cbv iota.
    rewrite (replace_first_items pre mid Hpre Hpost).
    now rewrite <- !app_assoc.
  - intros html H. unfold Part001.listWrap, replace.
    change (global (fl Part001.re_items)) with false. cbv iota.
    now apply replace_first_items_none.
Qed.

Lemma no_close_no_span (html : JSString) :
  includes (lit "</li>") html = false ->
  forall a b c, html <> a ++ lit "<li>" ++ b ++ lit "</li>" ++ c.
Proof.
  intros H a b c E.
  apply (@includes_false _ _ H (a ++ lit "<li>" ++ b) c).
  now rewrite E, <- !app_assoc.
Qed.

(** C6, amended, at a text with two runs of items: the one list element
    goes from the first item to the last; and at a text whose item is
    never closed. *)
Lemma listWrap_first_open_to_last_close_witness :
  Part001.listWrap
    (lit "intro" ++ lit "<li>"
     ++ (lit "a</li>" ++ [LF] ++ lit "text" ++ [LF] ++ lit "<li>b")
     ++ lit "</li>" ++ lit " end")
  = lit "intro" ++ lit "<ul>" ++ lit "<li>"
    ++ (lit "a</li>" ++ [LF] ++ lit "text" ++ [LF] ++ lit "<li>b")
    ++ lit "</li>" ++ lit "</ul>" ++ lit " end" /\
  Part001.listWrap (lit "<li>never closed") = lit "<li>never closed".
Proof.
  split.
  - apply (proj1 listWrap_first_open_to_last_close);
      apply includes_false; reflexivity.
  - apply (proj2 listWrap_first_open_to_last_close).
    apply no_close_no_span. reflexivity.
Defined.

(** ** The renderer on small texts *)

Example render_plain :
  Part001.renderMarkdown (lit "hi & bye") = lit "<p>hi &amp; bye</p>".
Proof. reflexivity. Qed.

Example render_italic_and_bold :
  Part001.renderMarkdown (lit "*a* and **b**")
  = lit "<p><em>a</em> and <strong>b</strong></p>".
Proof. reflexivity. Qed.

Example render_inline_code :
  Part001.renderMarkdown (lit "run `ls` now")
  = lit "<p>run <code>ls</code> now</p>".
Proof. reflexivity. Qed.

Example render_list_and_paragraph :
  Part001.renderMarkdown
    (lit "* a" ++ [LF] ++ lit "* b" ++ [LF; LF] ++ lit "<end>")
  = lit "<p><ul><li>a</li>" ++ [LF] ++ lit "<li>b</li></ul></p><p>&lt;end&gt;</p>".
Proof. reflexivity. Qed.

Example trim_hello :
  trim ([NBSP; LF] ++ lit " hello " ++ [9%N]) = lit "hello".
Proof. reflexivity. Qed.

(** ** The pass for fenced blocks

    The inline-code pass runs before it and leaves no two backticks
    adjacent; the two list passes bring none together; so the pattern of
    the fence, which begins with three backticks, matches nowhere. *)

Lemma separated_app (a b : JSString) :
  separated a -> separated b ->
  ends_with_backtick a && starts_with_backtick b = false ->
  separated (a ++ b).
Proof.
  induction a as [|x a IH]; intros Ha Hb Hab; [exact Hb|].
  cbn [app separated] in *. destruct Ha as [Hx Ha]. split.
  - destruct a as [|y a]; [|exact Hx].
    cbn [app ends_with_backtick] in *. exact Hab.
  - apply IH; [exact Ha | exact Hb |].
    destruct a as [|y a]; [reflexivity | exact Hab].
Qed.

Lemma separated_app_l (a b : JSString) : separated (a ++ b) -> separated a.
Proof.
  induction a as [|x a IH]; [easy|].
  cbn [app separated]. intros [Hx H]. split; [|now apply IH].
  destruct a as [|y a]; [apply andb_false_r | exact Hx].
Qed.

Lemma separated_app_r (a b : JSString) : separated (a ++ b) -> separated b.
Proof.
  induction a as [|x a IH]; [easy|].
  cbn [app separated]. intros [_ H]. now apply IH.
Qed.

Lemma separated_no_backtick (s : JSString) : ~ In BACKTICK s -> separated s.
Proof.
  induction s as [|x s IH]; [easy|].
  intros H. cbn [separated]. split.
  - destruct (N.eqb_spec x BACKTICK) as [->|_]; [|reflexivity].
    exfalso. apply H. now left.
  - apply IH. intros Hin. apply H. now right.
Qed.

Lemma ends_with_backtick_app (a b : JSString) :
  b <> [] -> ends_with_backtick (a ++ b) = ends_with_backtick b.
Proof.
  intros Hb. induction a as [|x a IH]; [reflexivity|].
  cbn [app]. destruct (a ++ b) eqn:E.
  - destruct a, b; try discriminate. congruence.
  - cbn [ends_with_backtick]. exact IH.
Qed.

Lemma starts_with_backtick_app (a b : JSString) :
  a <> [] -> starts_with_backtick (a ++ b) = starts_with_backtick a.
Proof. destruct a; [congruence | reflexivity]. Qed.

(** The text a replacement puts in: clean ends, clean inside. *)
Lemma separated_expansion (open cap close : JSString) :
  separated open -> separated cap -> separated close ->
  open <> [] -> close <> [] ->
  ends_with_backtick open = false ->
  starts_with_backtick close = false ->
  separated (open ++ cap ++ close).
Proof.
  intros Ho Hc Hcl Hne Hne' He Hs.
  apply separated_app; [exact Ho | | now rewrite He].
  apply separated_app; [exact Hc | exact Hcl | now rewrite Hs, andb_false_r].
Qed.

Lemma advances_refl (st : MatchState) : advances st st.
Proof. now exists []. Qed.

Lemma advances_trans (st1 st2 st3 : MatchState) :
  advances st1 st2 -> advances st2 st3 -> advances st1 st3.
Proof.
  intros (u & Hc & Hr) (v & Hc' & Hr'). exists (u ++ v).
  rewrite Hc', Hc, Hr, Hr', rev_app_distr, !app_assoc. now split.
Qed.

Lemma advances_input (st st' : MatchState) :
  advances st st' -> input st' = input st.
Proof.
  intros (u & Hc & Hr). unfold input.
  now rewrite Hc, Hr, rev_app_distr, rev_involutive, <- app_assoc.
Qed.

Lemma rep_inv (test : codeunit -> bool) (greedy : bool) (k : cont) cap res :
  forall after min before,
    rep test greedy k min cap before after = Some res ->
    exists u w, after = u ++ w /\
      k {| consumed := rev u ++ before; rest := w; cap1 := cap |} = Some res.
Proof.
  assert (Hstop : forall min before after,
    match min with
    | O => k {| consumed := before; rest := after; cap1 := cap |}
    | S _ => None
    end = Some res ->
    exists u w, after = u ++ w /\
      k {| consumed := rev u ++ before; rest := w; cap1 := cap |} = Some res).
  { intros [|min] before after H; [|discriminate]. now exists [], after. }
  induction after as [|c t IH]; intros min before H.
  - cbn [rep] in H. apply (Hstop min).
    destruct greedy; [exact H|].
    destruct (match min with O => _ | S _ => None end); [exact H | discriminate].
  - cbn [rep] in H.
    assert (Hmore : (if test c then rep test greedy k (pred min) cap (c :: before) t
                     else None) = Some res ->
      exists u w, c :: t = u ++ w /\
        k {| consumed := rev u ++ before; rest := w; cap1 := cap |} = Some res).
    { destruct (test c); [|discriminate]. intros Hm.
      destruct (IH _ _ Hm) as (u & w & -> & Hk).
      exists (c :: u), w. split; [reflexivity|].
      cbn [rev]. now rewrite <- app_assoc. }
    destruct greedy.
    + destruct (if test c then _ else None) eqn:E.
      * apply Hmore. exact H.
      * apply (Hstop min). exact H.
    + destruct (match min with O => _ | S _ => None end) eqn:E.
      * apply (Hstop min). now rewrite <- H.
      * apply Hmore. exact H.
Qed.

Lemma matcher_inv (f : flags) (r : regex) :
  forall (k : cont) st res,
    matcher f r k st = Some res ->
    exists st', advances st st' /\ captures_within st st' /\ k st' = Some res.
Proof.
  induction r as [|c|r1 IH1 r2 IH2|min greedy a|r1 IH1| |];
    intros k st res H; cbn [matcher] in H.
  - exists st. split; [apply advances_refl|]. split; [now left | exact H].
  - destruct (rest st) as [|x t] eqn:Er; [discriminate|].
    destruct (x =? c)%N; [|discriminate].
    eexists. split; [|split; [|exact H]].
    + exists [x]. cbn [consumed rest]. now split.
    + now left.
  - destruct (IH1 _ _ _ H) as (st1 & Ha1 & Hc1 & H1).
    destruct (IH2 _ _ _ H1) as (st2 & Ha2 & Hc2 & H2).
    exists st2. split; [now apply (advances_trans Ha1)|]. split; [|exact H2].
    destruct Hc2 as [E|(a0 & c0 & b0 & E & Hin)].
    + destruct Hc1 as [E1|(a0 & c0 & b0 & E1 & Hin)].
      * left. congruence.
      * right. exists a0, c0, b0. split; [congruence | exact Hin].
    + right. exists a0, c0, b0. split; [exact E|].
      now rewrite <- (advances_input Ha1).
  - destruct (rep_inv _ _ _ _ _ _ _ H) as (u & w & Er & Hk).
    eexists. split; [|split; [|exact Hk]].
    + exists u. cbn [consumed rest]. now split.
    + now left.
  - destruct (IH1 _ _ _ H) as (st1 & Ha1 & _ & H1).
    eexists. split; [|split; [|exact H1]].
    + destruct Ha1 as (u & Hc & Hr). exists u. cbn [consumed rest]. now split.
    + right. destruct Ha1 as (u & Hc & Hr).
      exists (rev (consumed st)), u, (rest st1). cbn [cap1]. split.
      * unfold between. rewrite Hc. now rewrite matched_text.
      * unfold input. now rewrite Hr.
  - destruct (at_bol f st); [|discriminate].
    exists st. split; [apply advances_refl|]. split; [now left | exact H].
  - destruct (at_eol f st); [|discriminate].
    exists st. split; [apply advances_refl|]. split; [now left | exact H].
Qed.

Lemma match_at_inv (re : RegExp) (before after : JSString) (st : MatchState) :
  match_at re before after = Some st ->
  exists u,
    consumed st = rev u ++ before /\ after = u ++ rest st /\
    (cap1 st = None \/
     exists a c b, cap1 st = Some c /\ rev before ++ after = a ++ c ++ b).
Proof.
  unfold match_at. intros H.
  destruct (matcher_inv _ _ _ _ H) as (st' & (u & Hc & Hr) & Hcap & E).
  injection E as <-. cbn [consumed rest cap1] in *.
  exists u. split; [exact Hc|]. split; [exact Hr|].
  destruct Hcap as [E|(a & c & b & E & Hin)]; [now left|].
  right. now exists a, c, b.
Qed.

Lemma expand_clean (open close : JSString) (st : MatchState) :
  clean open close ->
  (forall c, cap1 st = Some c -> separated c) ->
  let e := expand [Text open; Dollar1; Text close] st in
  separated e /\ starts_with_backtick e = false /\ ends_with_backtick e = false.
Proof.
  intros (Ho & Hc & Hne & Hne' & Hso & Heo & Hsc & Hec) Hcap.
  cbn [expand flat_map]. rewrite app_nil_r.
  set (c := match cap1 st with Some c => c | None => [] end).
  assert (Hsep : separated c).
  { subst c. destruct (cap1 st); [now apply Hcap | exact I]. }
  split; [now apply separated_expansion|]. split.
  - now rewrite starts_with_backtick_app.
  - now rewrite app_assoc, ends_with_backtick_app.
Qed.

Lemma separated_cons (c : codeunit) (after out : JSString) :
  separated (c :: after) ->
  separated out ->
  (starts_with_backtick out = true -> starts_with_backtick after = true) ->
  separated (c :: out).
Proof.
  cbn [separated]. intros [Hc _] Hout Hstart. split; [|exact Hout].
  destruct (c =? BACKTICK)%N; [|reflexivity].
  destruct (starts_with_backtick out); [|reflexivity].
  now rewrite Hstart in Hc.
Qed.

Lemma input_step (c : codeunit) (before after : JSString) :
  rev (c :: before) ++ after = rev before ++ c :: after.
Proof. cbn [rev]. now rewrite <- app_assoc. Qed.

(** A global replace with a clean replacement text brings no two backticks
    together. *)
Lemma replace_all_separated (re : RegExp) (open close : JSString) :
  clean open close ->
  forall after skip before,
    separated (rev before ++ after) ->
    separated (replace_all re [Text open; Dollar1; Text close] skip before after)
    /\ (skip = 0 ->
        starts_with_backtick
          (replace_all re [Text open; Dollar1; Text close] skip before after)
        = true ->
        starts_with_backtick after = true).
Proof.
  intros Hclean. induction after as [|c after IH]; intros skip before Hin.
  - destruct skip as [|skip]; cbn [replace_all]; [|easy].
    destruct (match_at re before []) as [st|] eqn:E; [|easy].
    destruct (match_at_inv _ _ _ E) as (u & _ & _ & Hcap).
    destruct (@expand_clean open close st Hclean) as (Hs & Hst & _).
    { intros cp Ecp. destruct Hcap as [E'|(a & c' & b & E' & Hab)]; [congruence|].
      rewrite Ecp in E'. injection E' as <-. rewrite Hab in Hin.
      exact (separated_app_l _ _ (separated_app_r _ _ Hin)). }
    rewrite app_nil_r. split; [exact Hs|]. intros _ H. congruence.
  - assert (Hafter : separated (c :: after)) by exact (separated_app_r _ _ Hin).
    assert (Hin' : separated (rev (c :: before) ++ after))
      by now rewrite input_step.
    destruct skip as [|skip]; cbn [replace_all].
    + assert (Hunmatched :
        separated (c :: replace_all re [Text open; Dollar1; Text close] 0
                          (c :: before) after)).
      { destruct (IH 0 (c :: before) Hin') as (Hs & Hst).
        eapply separated_cons; [exact Hafter | exact Hs | now apply Hst]. }
      destruct (match_at re before (c :: after)) as [st|] eqn:E.
      * destruct (match_at_inv _ _ _ E) as (u & _ & _ & Hcap).
        destruct (@expand_clean open close st Hclean) as (Hs & Hst & Hen).
        { intros cp Ecp.
          destruct Hcap as [E'|(a & c' & b & E' & Hab)]; [congruence|].
          rewrite Ecp in E'. injection E' as <-. rewrite Hab in Hin.
          exact (separated_app_l _ _ (separated_app_r _ _ Hin)). }
        split.
        -- apply separated_app; [exact Hs | | now rewrite Hen].
           destruct (matched_length before st); [exact Hunmatched|].
           now apply IH.
        -- intros _ H. destruct Hclean as (_ & _ & Hne & _).
           rewrite starts_with_backtick_app in H.
           ++ congruence.
           ++ cbn [expand flat_map]. destruct open; [congruence | discriminate].
      * split; [exact Hunmatched|]. intros _ H. exact H.
    + split; [now apply IH | discriminate].
Qed.

Lemma replace_first_separated (re : RegExp) (open close : JSString) :
  clean open close ->
  forall after before,
    separated (rev before ++ after) ->
    separated (replace_first re [Text open; Dollar1; Text close] before after)
    /\ (starts_with_backtick
          (replace_first re [Text open; Dollar1; Text close] before after)
        = true ->
        starts_with_backtick after = true).
Proof.
  intros Hclean.
  assert (Hmatch : forall before after st,
    separated (rev before ++ after) ->
    match_at re before after = Some st ->
    separated (expand [Text open; Dollar1; Text close] st ++ rest st) /\
    starts_with_backtick (expand [Text open; Dollar1; Text close] st ++ rest st)
    = false).
  { intros before after st Hin E.
    destruct (match_at_inv _ _ _ E) as (u & _ & Hr & Hcap).
    destruct (@expand_clean open close st Hclean) as (Hs & Hst & Hen).
    { intros cp Ecp.
      destruct Hcap as [E'|(a & c' & b & E' & Hab)]; [congruence|].
      rewrite Ecp in E'. injection E' as <-. rewrite Hab in Hin.
      exact (separated_app_l _ _ (separated_app_r _ _ Hin)). }
    split.
    - apply separated_app; [exact Hs | | now rewrite Hen].
      apply separated_app_r in Hin. rewrite Hr in Hin.
      exact (separated_app_r _ _ Hin).
    - rewrite starts_with_backtick_app; [exact Hst|].
      destruct Hclean as (_ & _ & Hne & _).
      cbn [expand flat_map]. destruct open; [congruence | discriminate]. }
  induction after as [|c after IH]; intros before Hin; rewrite replace_first_eq.
  - destruct (match_at re before []) as [st|] eqn:E; [|easy].
    destruct (Hmatch _ _ _ Hin E) as (Hs & Hst). split; [exact Hs | congruence].
  - destruct (match_at re before (c :: after)) as [st|] eqn:E.
    + destruct (Hmatch _ _ _ Hin E) as (Hs & Hst). split; [exact Hs | congruence].
    + assert (Hin' : separated (rev (c :: before) ++ after))
        by now rewrite input_step.
      destruct (IH (c :: before) Hin') as (Hs & Hst).
      split; [|easy].
      eapply separated_cons; [exact (separated_app_r _ _ Hin) | exact Hs | exact Hst].
Qed.

(** The lazy star of the inline-code pattern stops at the first backtick. *)
Lemma rep_lazy_until (test : codeunit -> bool) (k : cont) cap res
    (hit : codeunit) :
  (forall before w, k {| consumed := before; rest := hit :: w; cap1 := cap |}
                    <> None) ->
  forall after before,
    rep test false k 0 cap before after = Some res ->
    exists u w, after = u ++ w /\ ~ In hit u /\
      k {| consumed := rev u ++ before; rest := w; cap1 := cap |} = Some res.
Proof.
  intros Hhit. induction after as [|c t IH]; intros before H; cbn [rep pred] in H.
  - exists [], []. split; [reflexivity|]. split; [easy|].
    destruct (k _); [exact H | discriminate].
  - destruct (k {| consumed := before; rest := c :: t; cap1 := cap |}) eqn:E.
    + exists [], (c :: t). split; [reflexivity|]. split; [easy|].
      cbn [rev app]. congruence.
    + destruct (test c); [|discriminate].
      destruct (IH _ H) as (u & w & Et & Hno & Hk).
      exists (c :: u), w. split; [now rewrite Et|]. split.
      * intros [->|Hin]; [now apply (Hhit before t) | now apply Hno].
      * cbn [rev]. now rewrite <- app_assoc.
Qed.

Lemma code_match_inv (before after : JSString) (st : MatchState) :
  match_at Part001.re_code before after = Some st ->
  (exists cap, cap1 st = Some cap /\ ~ In BACKTICK cap) /\
  matched_length before st <> 0.
Proof.
  unfold match_at. cbn [Part001.re_code pattern fl matcher rest consumed cap1].
  destruct after as [|x t]; [discriminate|].
  destruct (x =? BACKTICK)%N; [|discriminate].
  intros H. apply rep_lazy_until with (hit := BACKTICK) in H.
  - destruct H as (u & w & -> & Hno & Hk).
    cbn [rest consumed cap1] in Hk.
    destruct w as [|y w]; [discriminate|].
    destruct (y =? BACKTICK)%N; [|discriminate].
    injection Hk as <-. cbn [cap1 consumed]. split.
    + exists u. split; [|exact Hno]. unfold between. cbn [consumed].
      now rewrite matched_text.
    + unfold matched_length. cbn [consumed List.length].
      rewrite length_app. cbn [List.length]. lia.
  - intros b w. cbn [rest consumed cap1]. now rewrite N.eqb_refl.
Qed.

Lemma code_match_double (before r : JSString) :
  match_at Part001.re_code before (BACKTICK :: BACKTICK :: r) <> None.
Proof. cbn. discriminate. Qed.

Lemma clean_code : clean (lit "<code>") (lit "</code>").
Proof. cbv. intuition discriminate. Qed.

Lemma clean_li : clean (lit "<li>") (lit "</li>").
Proof. cbv. intuition discriminate. Qed.

Lemma clean_ul : clean (lit "<ul>") (lit "</ul>").
Proof. cbv. intuition discriminate. Qed.

(** After the inline-code pass no two backticks are adjacent, whatever the
    text was. *)
Lemma inlineCode_separated :
  forall after skip before,
    separated (replace_all Part001.re_code
                 [Text (lit "<code>"); Dollar1; Text (lit "</code>")]
                 skip before after)
    /\ (skip = 0 ->
        starts_with_backtick
          (replace_all Part001.re_code
             [Text (lit "<code>"); Dollar1; Text (lit "</code>")]
             skip before after) = true ->
        starts_with_backtick after = true).
Proof.
  induction after as [|c after IH]; intros skip before.
  - destruct skip; cbn; easy.
  - destruct skip as [|skip]; cbn [replace_all];
      [|split; [apply IH | discriminate]].
    destruct (match_at Part001.re_code before (c :: after)) as [st|] eqn:E.
    + destruct (code_match_inv _ _ E) as ((cap & Ecap & Hno) & Hlen).
      destruct (@expand_clean (lit "<code>") (lit "</code>") st clean_code)
        as (Hs & Hst & Hen).
      { intros cp Ecp. rewrite Ecap in Ecp. injection Ecp as <-.
        now apply separated_no_backtick. }
      destruct (matched_length before st) as [|n]; [congruence|].
      split.
      * apply separated_app; [exact Hs | apply IH | now rewrite Hen].
      * intros _ H. rewrite starts_with_backtick_app in H; [congruence|].
        cbn [expand flat_map]. discriminate.
    + destruct (IH 0 (c :: before)) as (Hs & Hst).
      split; [|intros _ H; exact H].
      cbn [separated]. split; [|exact Hs].
      destruct (N.eqb_spec c BACKTICK) as [->|_]; [|reflexivity].
      destruct (starts_with_backtick (replace_all _ _ _ _ _)) eqn:Eout;
        [|reflexivity].
      specialize (Hst eq_refl eq_refl).
      destruct after as [|y after]; [discriminate|].
      cbn [starts_with_backtick] in Hst. apply N.eqb_eq in Hst. subst y.
      now apply code_match_double in E.
Qed.

Lemma fence_match_fail (before after : JSString) :
  separated after -> match_at Part001.re_fence before after = None.
Proof.
  intros H. unfold match_at. cbn [Part001.re_fence pattern fl matcher].
  apply matcher_str_fail. intros r ->.
  cbn in H. destruct H as [H _]. discriminate.
Qed.

Lemma codeBlocks_separated (after : JSString) :
  separated after ->
  forall before,
    replace_all Part001.re_fence
      [Text (lit "<pre><code>"); Dollar1; Text (lit "</code></pre>")]
      0 before after = after.
Proof.
  induction after as [|c after IH]; intros H before; cbn [replace_all];
    rewrite (@fence_match_fail before _ H); [reflexivity|].
  f_equal. apply IH. apply H.
Qed.

(** The pass for fenced blocks changes nothing, whatever the text. *)
Lemma codeBlocks_never_matches (html : JSString) :
  Part001.codeBlocks
    (Part001.listWrap (Part001.listItems (Part001.inlineCode html)))
  = Part001.listWrap (Part001.listItems (Part001.inlineCode html)).
Proof.
  unfold Part001.codeBlocks, Part001.listWrap, Part001.listItems,
    Part001.inlineCode, replace.
  change (global (fl Part001.re_fence)) with true.
  change (global (fl Part001.re_items)) with false.
  change (global (fl Part001.re_item)) with true.
  change (global (fl Part001.re_code)) with true.
  cbv iota.
  apply codeBlocks_separated.
  apply (replace_first_separated _ clean_ul).
  apply (replace_all_separated _ clean_li).
  apply inlineCode_separated.
Qed.

(** C5 on [renderMarkdown]: the pass for fenced blocks is the seventh step,
    after bold, italic, inline code and the two list passes.  The
    inline-code pass has by then paired the backticks of a fence two by
    two, so the text inside the fence is rendered like any other (its bold
    markers become a strong element) and no pre element appears; and for
    every text the result is what it would be without the pass for fenced
    blocks. *)
Theorem fence_is_consumed_by_inline_code :
  Part001.renderMarkdown (lit "```" ++ [LF] ++ lit "**a**" ++ [LF] ++ lit "```")
  = lit "<p><code></code>`" ++ [LF] ++ lit "<strong>a</strong>" ++ [LF]
    ++ lit "<code></code>`</p>" /\
  forall text : JSString,
    Part001.renderMarkdown text =
    lit "<p>" ++
    Part001.paragraphs (Part001.listWrap (Part001.listItems
      (Part001.inlineCode (Part001.italic (Part001.bold
        (Part001.escapeHtml text))))))
    ++ lit "</p>".
Proof.
  split; [reflexivity|].
  intros text. unfold Part001.renderMarkdown.
  now rewrite codeBlocks_never_matches.
Qed.

(** ** The connection probe *)

(** The probe of the Markdown version: it never throws, shows "Conectado"
    exactly for a response with a success status, and "Modo simulacion"
    (with its accent) for a rejected [fetch] or any other status. *)
Lemma checkConnection_connected_iff_ok (o : FetchResult) (st : Part001.State) :
  exists st',
    Part001.checkConnection o st = (st', Normal tt) /\
    ((exists r, o = Resolved r /\ ok r = true) ->
       Part001.statusText st' = lit "Conectado" /\
       Part001.statusDot_connected st' = true) /\
    (~ (exists r, o = Resolved r /\ ok r = true) ->
       Part001.statusText st' = lit "Modo simulaci" ++ o_acute :: lit "n" /\
       Part001.statusDot_background st' = Some (lit "#f59e0b")).
Proof.
  run_page. destruct o as [e|r].
  - eexists. split; [reflexivity|]. page_fields. split.
    + intros (r & H & _). discriminate.
    + intros _. split; reflexivity.
  - destruct (ok r) eqn:Hok.
    + eexists. split; [reflexivity|]. page_fields. split.
      * intros _. split; reflexivity.
      * intros H. exfalso. apply H. now exists r.
    + eexists. split; [reflexivity|]. page_fields. split.
      * intros (r' & H & Hok'). injection H as <-. congruence.
      * intros _. split; reflexivity.
Qed.

(** C7 on [src/static/script.js]: the probe of the control-panel version
    never looks at the status.  Any response whose body is JSON shows
    "Conectado" and returns true, whatever its status; any response whose
    body is not JSON shows "Desconectado", appends a system message and
    returns false, even with a success status. *)
Theorem static_checkConnection_ignores_status
    rt r responseText (timestamp : JSString) st :
  body r = BodyText responseText ->
  (forall data,
     JSON_parse rt responseText = Normal data ->
     StaticScript.checkConnection rt (Resolved r) timestamp st =
     (StaticScript.set_status (lit "status-dot connected") (lit "Conectado") st,
      Normal true)) /\
  (forall e,
     JSON_parse rt responseText = Throw e ->
     StaticScript.checkConnection rt (Resolved r) timestamp st =
     (StaticScript.appendChild
        (StaticScript.messageEl (lit "system")
           (lit "No se pudo conectar con el servidor de Saulo.") None timestamp)
        (StaticScript.set_status (lit "status-dot") (lit "Desconectado") st),
      Normal false)).
Proof.
  intros Hbody. split.
  - intros data Hparse. run_panel. now rewrite Hbody, Hparse.
  - intros e Hparse. run_panel. now rewrite Hbody, Hparse.
Qed.

(** C7, at the failing inputs: status 500 with the body {} is shown as
    connected; status 200 with the body OK is shown as disconnected. *)
Lemma static_checkConnection_ignores_status_witness :
  StaticScript.checkConnection canned_runtime
    (Resolved {| status := 500; body := BodyText body_empty_object |})
    (lit "10:00:00") fresh_panel =
  (StaticScript.set_status (lit "status-dot connected") (lit "Conectado")
     fresh_panel,
   Normal true) /\
  ok {| status := 500; body := BodyText body_empty_object |} = false /\
  StaticScript.checkConnection canned_runtime
    (Resolved {| status := 200; body := BodyText (lit "OK") |})
    (lit "10:00:00") fresh_panel =
  (StaticScript.appendChild
     (StaticScript.messageEl (lit "system")
        (lit "No se pudo conectar con el servidor de Saulo.") None
        (lit "10:00:00"))
     (StaticScript.set_status (lit "status-dot") (lit "Desconectado")
        fresh_panel),
   Normal false) /\
  ok {| status := 200; body := BodyText (lit "OK") |} = true.
Proof.
  split; [|split; [|split]].
  - apply (proj1 (@static_checkConnection_ignores_status canned_runtime
             {| status := 500; body := BodyText body_empty_object |}
             body_empty_object (lit "10:00:00") fresh_panel eq_refl) (JObj [])).
    reflexivity.
  - reflexivity.
  - apply (proj2 (@static_checkConnection_ignores_status canned_runtime
             {| status := 200; body := BodyText (lit "OK") |}
             (lit "OK") (lit "10:00:00") fresh_panel eq_refl)
             {| message := lit "Unexpected token" |}).
    reflexivity.
  - reflexivity.
Defined.

(** ** Sending a message *)

Lemma nth_error_app_here {A} (l : list A) (x : A) (l' : list A) :
  nth_error (l ++ x :: l') (List.length l) = Some x.
Proof. induction l; cbn; auto. Qed.

Lemma remove_nth_app_here {A} (l : list A) (x : A) (l' : list A) :
  Part001.remove_nth (List.length l) (l ++ x :: l') = l ++ l'.
Proof. induction l; cbn; [reflexivity | now f_equal]. Qed.

(** The page after the handler of [catch] and the [finally] block. *)
Lemma settle_failure text e ts st :
  failure_path text e ts st
    (Part001.focus (Part001.set_sendButton_disabled false
       (Part001.setTimeout
          {| Part001.responses := Part001.simulated_responses text |}
          (Part001.appendChild
             (Part001.messageEl (lit "system") (lit "Error: " ++ message e)
                None ts)
             st)))).
Proof.
  unfold failure_path. page_fields. repeat split.
  intros pick ts'. run_page. page_fields.
  rewrite nth_error_app_here. page_fields.
  rewrite remove_nth_app_here, app_nil_r.
  eexists. split; [reflexivity|]. page_fields. repeat split.
Qed.

Lemma settle_rejected rt text e ts st :
  Part001.sendMessage_settle rt text (Rejected e) ts st =
  (Part001.focus (Part001.set_sendButton_disabled false
       (Part001.setTimeout
          {| Part001.responses := Part001.simulated_responses text |}
          (Part001.appendChild
             (Part001.messageEl (lit "system") (lit "Error: " ++ message e)
                None ts)
             st))), Normal tt).
Proof. reflexivity. Qed.

Lemma begin_nonempty ts st text :
  trim (Part001.messageInput_value st) = text ->
  text <> [] ->
  Part001.sendMessage_begin ts st =
  (Part001.set_sendButton_disabled true
     (Part001.set_messageInput_value []
        (Part001.appendChild
           (Part001.messageEl (lit "user") text None ts) st)),
   Normal (Some text)).
Proof.
  intros H Hne. run_page. rewrite H.
  destruct text; [congruence | reflexivity].
Qed.


(** A reply whose text is an object with an own [toString] is not shown:
    the conversion throws inside the [try], the error is shown and the
    fallback scheduled. *)
Lemma unshowable_reply_takes_the_failure_path :
  Spec.classify unshowable_runtime
    (Resolved {| status := 200; body := BodyText body_unshowable |})
  = Spec.UnshowableReply (JObj [(lit "toString", JNum 1)]) cannot_convert /\
  exists st',
    Part001.sendMessage_settle unshowable_runtime (lit "hello")
      (Resolved {| status := 200; body := BodyText body_unshowable |})
      (lit "10:00") (fresh_page []) = (st', Normal tt) /\
    Part001.messages st' =
      [Part001.messageEl (lit "system")
         (lit "Error: Cannot convert object to primitive value") None
         (lit "10:00")] /\
    Part001.timers st' =
      [{| Part001.responses := Part001.simulated_responses (lit "hello") |}].
Proof.
  split; [reflexivity|]. eexists. split; [reflexivity|]. split; reflexivity.
Qed.


Lemma quoted_contains_prefix (pre u post : JSString) :
  contains (pre ++ quoted u ++ post) (substring0 20 u).
Proof.
  exists (pre ++ [DQUOTE]), (skipn 20 u ++ [DQUOTE] ++ post).
  unfold quoted, substring0.
  rewrite <- (firstn_skipn 20 u) at 1.
  now rewrite <- !app_assoc.
Qed.

(** Every template of the fallback quotes the first twenty units of the
    user's message. *)
Lemma simulated_contains_prefix (userMessage : JSString) (pick : nat) :
  pick < 5 ->
  contains (nth pick (Part001.simulated_responses userMessage) [])
           (substring0 20 userMessage).
Proof.
  intros H.
  destruct pick as [|[|[|[|[|pick]]]]]; [ | | | | | lia];
    cbn [nth Part001.simulated_responses].
  - apply quoted_contains_prefix.
  - apply quoted_contains_prefix.
  - exists (lit "Tu mensaje resuena con mis b" ++ u_acute :: lit "squedas ontol"
      ++ o_acute :: lit "gicas. " ++ inverted_question :: lit "Podr"
      ++ i_acute :: lit "as profundizar en " ++ [DQUOTE]).
    exists (lit "..." ++ [DQUOTE] ++ lit "?").
    cbn. reflexivity.
  - exact (quoted_contains_prefix
      (lit "La Verdad Ontol" ++ o_acute
       :: lit "gica se manifiesta incluso en este di"
       ++ a_acute :: lit "logo. ") userMessage (lit " no es casualidad.")).
  - apply quoted_contains_prefix.
Qed.

(** C8, as stated, fails: with the endpoint unreachable the transcript
    gains three entries, not two; the second is a system message that
    shows the error. *)
Lemma unreachable_endpoint_shows_error_entry :
  exists st1 st2,
    Part001.sendMessage canned_runtime (lit "10:00") (Rejected failed_to_fetch)
      (lit "10:00") (fresh_page (lit "hello")) = (st1, Normal tt) /\
    Part001.run_timer 0 0 (lit "10:01") st1 = (st2, Normal tt) /\
    List.length (Part001.messages st2) = 3 /\
    nth_error (Part001.messages st2) 1 =
      Some (Part001.messageEl (lit "system") (lit "Error: Failed to fetch")
              None (lit "10:00")).
Proof.
  eexists. eexists.
  split; [reflexivity|]. split; [reflexivity|]. split; reflexivity.
Qed.

(** C8, amended: when the user sends "hello" and [fetch] is rejected, the
    call appends two entries, the user's message "hello" and a system
    message "Error: " followed by the message of the rejection; when the
    timer of the fallback runs, a third entry is appended, a message of
    Saulo that is one of the five templates and contains "hello".  No
    other entry is appended. *)
Theorem unreachable_endpoint_three_entries
    rt st e (ts1 ts2 ts3 : JSString) pick :
  trim (Part001.messageInput_value st) = lit "hello" ->
  pick < 5 ->
  exists st1 st2 reply,
    Part001.sendMessage rt ts1 (Rejected e) ts2 st = (st1, Normal tt) /\
    Part001.run_timer (List.length (Part001.timers st)) pick ts3 st1
      = (st2, Normal tt) /\
    Part001.messages st1 =
      Part001.messages st ++
      [Part001.messageEl (lit "user") (lit "hello") None ts1;
       Part001.messageEl (lit "system") (lit "Error: " ++ message e) None ts2] /\
    Part001.messages st2 =
      Part001.messages st ++
      [Part001.messageEl (lit "user") (lit "hello") None ts1;
       Part001.messageEl (lit "system") (lit "Error: " ++ message e) None ts2;
       Part001.messageEl (lit "saulo") reply (Some (lit "Saulo")) ts3] /\
    reply = nth pick (Part001.simulated_responses (lit "hello")) [] /\
    contains reply (lit "hello").
Proof.
  intros Hin Hpick.
  unfold Part001.sendMessage, bind.
  rewrite (begin_nonempty ts1 st Hin) by discriminate.
  rewrite settle_rejected.
  match goal with |- context [(?s, Normal tt) = _] => set (st1 := s) end.
  destruct (settle_failure (lit "hello") e ts2
    (Part001.set_sendButton_disabled true
     (Part001.set_messageInput_value []
        (Part001.appendChild
           (Part001.messageEl (lit "user") (lit "hello") None ts1) st))))
    as (Hm & Ht & Hd & Hrun).
  fold st1 in Hm, Ht, Hd, Hrun. revert Hm Ht Hrun. page_fields.
  intros Hm Ht Hrun.
  destruct (Hrun pick ts3) as (st2 & Hr & Hm2 & Ht2 & Hd2).
  exists st1, st2, (nth pick (Part001.simulated_responses (lit "hello")) []).
  split; [reflexivity|]. split; [exact Hr|].
  split; [rewrite Hm, <- app_assoc; reflexivity|].
  split; [rewrite Hm2, Hm, <- !app_assoc; reflexivity|].
  split; [reflexivity|].
  apply (simulated_contains_prefix (lit "hello") Hpick).
Qed.

(** C8, amended, on a fresh page whose input holds " hello ", with the
    third template picked. *)
Lemma unreachable_endpoint_three_entries_witness :
  exists st1 st2 reply,
    Part001.sendMessage canned_runtime (lit "10:00") (Rejected failed_to_fetch)
      (lit "10:00") (fresh_page (lit " hello ")) = (st1, Normal tt) /\
    Part001.run_timer 0 2 (lit "10:01") st1 = (st2, Normal tt) /\
    Part001.messages st1 =
      [Part001.messageEl (lit "user") (lit "hello") None (lit "10:00");
       Part001.messageEl (lit "system") (lit "Error: Failed to fetch") None
         (lit "10:00")] /\
    Part001.messages st2 =
      [Part001.messageEl (lit "user") (lit "hello") None (lit "10:00");
       Part001.messageEl (lit "system") (lit "Error: Failed to fetch") None
         (lit "10:00");
       Part001.messageEl (lit "saulo") reply (Some (lit "Saulo"))
         (lit "10:01")] /\
    reply = nth 2 (Part001.simulated_responses (lit "hello")) [] /\
    contains reply (lit "hello").
Proof.
  apply (@unreachable_endpoint_three_entries canned_runtime
           (fresh_page (lit " hello ")) failed_to_fetch
           (lit "10:00") (lit "10:00") (lit "10:01") 2);
    [reflexivity | lia].
Defined.

(** C9, as stated, fails: when the call has settled after a rejected
    request, the button is enabled again while the fallback is still a
    pending timer and the transcript holds no reply yet. *)
Lemma button_enabled_before_fallback :
  exists st1,
    Part001.sendMessage canned_runtime (lit "10:00") (Rejected failed_to_fetch)
      (lit "10:00") (fresh_page (lit "hello")) = (st1, Normal tt) /\
    Part001.sendButton_disabled st1 = false /\
    Part001.timers st1 =
      [{| Part001.responses := Part001.simulated_responses (lit "hello") |}] /\
    Part001.messages st1 =
      [Part001.messageEl (lit "user") (lit "hello") None (lit "10:00");
       Part001.messageEl (lit "system") (lit "Error: Failed to fetch") None
         (lit "10:00")].
Proof.
  eexists. split; [reflexivity|]. repeat split.
Qed.

(** C9, amended: a send with a non-empty text disables the button before
    its network attempt starts, and its [finally] block enables the button
    again when that attempt has settled, whatever the outcome.  On the
    failure path the fallback is at that moment only scheduled: the button
    is enabled while the timer is pending and before the reply is
    appended. *)
Theorem button_covers_network_attempt_only :
  (forall (ts : JSString) st text,
     trim (Part001.messageInput_value st) = text -> text <> [] ->
     exists st1,
       Part001.sendMessage_begin ts st = (st1, Normal (Some text)) /\
       Part001.sendButton_disabled st1 = true) /\
  (forall rt text o (ts : JSString) st,
     exists st',
       Part001.sendMessage_settle rt text o ts st = (st', Normal tt) /\
       Part001.sendButton_disabled st' = false) /\
  (forall rt text e (ts : JSString) st,
     exists st',
       Part001.sendMessage_settle rt text (Rejected e) ts st
         = (st', Normal tt) /\
       Part001.sendButton_disabled st' = false /\
       Part001.timers st' =
         Part001.timers st ++
         [{| Part001.responses := Part001.simulated_responses text |}] /\
       Part001.messages st' =
         Part001.messages st ++
         [Part001.messageEl (lit "system") (lit "Error: " ++ message e)
            None ts]).
Proof.
  split; [|split].
  - intros ts st text H Hne. eexists.
    split; [apply (begin_nonempty ts st H Hne)|]. reflexivity.
  - intros rt text o ts st. run_page.
    destruct o as [e|r]; [eexists; split; reflexivity|].
    destruct (body r) as [t|e]; [|eexists; split; reflexivity].
    destruct (ok r); cbn [negb]; [|eexists; split; reflexivity].
    destruct (JSON_parse rt t) as [data|e]; [|eexists; split; reflexivity].
    destruct (Part001.has_text data) as [v|];
      [destruct (ToString rt v)|]; eexists; split; reflexivity.
  - intros rt text e ts st. eexists. split; [apply settle_rejected|].
    page_fields. repeat split.
Qed.

(** C9, amended, on a fresh page whose input holds "hello": the send
    disables the button. *)
Lemma button_covers_network_attempt_only_witness :
  exists st1,
    Part001.sendMessage_begin (lit "10:00") (fresh_page (lit "hello"))
      = (st1, Normal (Some (lit "hello"))) /\
    Part001.sendButton_disabled st1 = true.
Proof.
  apply (proj1 button_covers_network_attempt_only
           (lit "10:00") (fresh_page (lit "hello")) (lit "hello"));
    [reflexivity | discriminate].
Defined.

(** The button gates clicks only: a click on the disabled button does
    nothing, and Enter in the input starts a send whatever the state of the
    button. *)
Lemma enter_is_not_gated (ts : JSString) (st : Part001.State) :
  Part001.on_keydown (lit "Enter") false ts st = Part001.sendMessage_begin ts st
  /\
  (Part001.sendButton_disabled st = true ->
   Part001.on_click ts st = (st, Normal None)).
Proof.
  split; [reflexivity|].
  intros H. run_page. rewrite H. reflexivity.
Qed.

Lemma has_text_falsy (data v : JSValue) :
  get_property data (lit "text") = Some v ->
  truthy v = false ->
  Part001.has_text data = None.
Proof.
  intros Hget Hv. unfold Part001.has_text.
  destruct (truthy data); [|reflexivity].
  now rewrite Hget, Hv.
Qed.

(** C10: a success status with a JSON body whose [text] is there and falsy
    takes the degraded branch: the one message appended is the placeholder
    "[Respuesta API: ", the first hundred units of [JSON.stringify(data)],
    "...]"; nothing is scheduled and the call completes normally. *)
Theorem falsy_text_gives_placeholder
    rt text r responseText data v (ts : JSString) st :
  body r = BodyText responseText ->
  ok r = true ->
  JSON_parse rt responseText = Normal data ->
  get_property data (lit "text") = Some v ->
  truthy v = false ->
  exists st',
    Part001.sendMessage_settle rt text (Resolved r) ts st = (st', Normal tt) /\
    Part001.messages st' =
      Part001.messages st ++
      [Part001.messageEl (lit "saulo")
         (lit "[Respuesta API: " ++ substring0 100 (JSON_stringify rt data)
          ++ lit "...]")
         (Some (lit "Saulo")) ts] /\
    Part001.timers st' = Part001.timers st /\
    Part001.sendButton_disabled st' = false.
Proof.
  intros Hbody Hok Hparse Hget Hv.
  run_page. rewrite Hbody, Hok, Hparse. cbn [negb].
  rewrite (has_text_falsy data Hget Hv).
  eexists. split; [reflexivity|]. page_fields. repeat split.
Qed.

(** C10, at a response with status 200 whose body is an object with the
    empty string as [text]. *)
Lemma falsy_text_gives_placeholder_witness :
  exists st',
    Part001.sendMessage_settle canned_runtime (lit "hello")
      (Resolved {| status := 200; body := BodyText body_empty_text |})
      (lit "10:00") (fresh_page []) = (st', Normal tt) /\
    Part001.messages st' =
      Part001.messages (fresh_page []) ++
      [Part001.messageEl (lit "saulo")
         (lit "[Respuesta API: "
          ++ substring0 100
               (JSON_stringify canned_runtime (JObj [(lit "text", JStr [])]))
          ++ lit "...]")
         (Some (lit "Saulo")) (lit "10:00")] /\
    Part001.timers st' = Part001.timers (fresh_page []) /\
    Part001.sendButton_disabled st' = false.
Proof.
  apply (@falsy_text_gives_placeholder canned_runtime (lit "hello")
           {| status := 200; body := BodyText body_empty_text |}
           body_empty_text (JObj [(lit "text", JStr [])]) (JStr []));
    reflexivity.
Defined.

(** The placeholder of that response shows the body as it was sent. *)
Example placeholder_of_empty_text :
  Part001.placeholder canned_runtime (JObj [(lit "text", JStr [])])
  = lit "[Respuesta API: " ++ body_empty_text ++ lit "...]".
Proof. reflexivity. Qed.

Example decimal_500 : decimal 500 = lit "500".
Proof. reflexivity. Qed.

(** * Further properties of the three versions *)

(** ** Texts without markers *)

Lemma replace_all_id (re : RegExp) (t : template) (after : JSString) :
  (forall before u w, after = u ++ w -> match_at re before w = None) ->
  forall before, replace_all re t 0 before after = after.
Proof.
  induction after as [|c after IH]; intros H before; cbn [replace_all].
  - now rewrite (H before [] []).
  - rewrite (H before [] (c :: after)) by reflexivity.
    f_equal. apply IH. intros b u w ->. now apply (H b (c :: u) w).
Qed.

Lemma not_in_suffix (x : codeunit) (s u w : JSString) :
  ~ In x s -> s = u ++ w -> ~ In x w.
Proof. intros H -> Hin. apply H, in_or_app. now right. Qed.

Lemma match_first_unit (f : flags) (c : codeunit) (r : regex) (k : cont)
    (st : MatchState) :
  ~ In c (rest st) -> matcher f (Seq (Char c) r) k st = None.
Proof.
  intros H. cbn [matcher]. destruct (rest st) as [|x t]; [reflexivity|].
  destruct (N.eqb_spec x c) as [->|_]; [|reflexivity].
  exfalso. apply H. now left.
Qed.

Lemma bold_needs_star (before w : JSString) :
  ~ In STAR w -> match_at Part001.re_bold before w = None.
Proof.
  intros H. unfold match_at. cbn [Part001.re_bold pattern fl].
  change (str (lit "**")) with (Seq (Char STAR) (Seq (Char STAR) Empty)).
  cbn [matcher rest]. destruct w as [|x t]; [reflexivity|].
  destruct (N.eqb_spec x STAR) as [->|_]; [|reflexivity].
  exfalso. apply H. now left.
Qed.

Lemma italic_needs_star (before w : JSString) :
  ~ In STAR w -> match_at Part001.re_italic before w = None.
Proof. intros H. unfold match_at. now apply match_first_unit. Qed.

Lemma code_needs_backtick (before w : JSString) :
  ~ In BACKTICK w -> match_at Part001.re_code before w = None.
Proof. intros H. unfold match_at. now apply match_first_unit. Qed.

Lemma fence_needs_backtick (before w : JSString) :
  ~ In BACKTICK w -> match_at Part001.re_fence before w = None.
Proof.
  intros H. unfold match_at. cbn [Part001.re_fence pattern fl].
  change (str (lit "```"))
    with (Seq (Char BACKTICK) (Seq (Char BACKTICK) (Seq (Char BACKTICK) Empty))).
  cbn [matcher rest]. destruct w as [|x t]; [reflexivity|].
  destruct (N.eqb_spec x BACKTICK) as [->|_]; [|reflexivity].
  exfalso. apply H. now left.
Qed.

Lemma item_needs_star (before w : JSString) :
  ~ In STAR w -> match_at Part001.re_item before w = None.
Proof.
  intros H. unfold match_at. cbn [Part001.re_item pattern fl matcher].
  destruct (at_bol _ _); [|reflexivity].
  cbn [consumed rest cap1]. apply rep_greedy_none.
  intros u v E. cbn [rest]. destruct v as [|x t]; [reflexivity|].
  destruct (N.eqb_spec x STAR) as [->|_]; [|reflexivity].
  exfalso. eapply not_in_suffix; [exact H | exact E | now left].
Qed.

Lemma blank_needs_two (before w : JSString) :
  starts_with [LF; LF] w = false -> match_at Part001.re_blank before w = None.
Proof.
  intros H. unfold match_at. cbn [Part001.re_blank pattern fl str matcher rest].
  destruct w as [|x [|y t]]; cbn [starts_with] in H.
  - reflexivity.
  - now destruct (x =? LF)%N.
  - rewrite (N.eqb_sym x), (N.eqb_sym y).
    destruct (LF =? x)%N; [|reflexivity]. cbn [rest].
    destruct (LF =? y)%N; [discriminate | reflexivity].
Qed.

Lemma includes_suffix (needle u w : JSString) :
  includes needle (u ++ w) = false -> includes needle w = false.
Proof.
  induction u as [|c u IH]; [easy|].
  cbn [app includes]. intros H. apply orb_false_iff in H. now apply IH.
Qed.

Lemma includes_starts (needle w : JSString) :
  includes needle w = false -> starts_with needle w = false.
Proof. destruct w; cbn [includes]; intros H; now apply orb_false_iff in H. Qed.

(** What [escapeHtml] can put into a text. *)
Lemma escape_unit_units (c x : codeunit) :
  In x (Dom.escape_unit c) -> x = c \/ In x (lit "&amp;nbsp;lt;gt;").
Proof.
  unfold Dom.escape_unit.
  destruct (c =? AMP)%N; [intros H; right; cbn in *; tauto|].
  destruct (c =? NBSP)%N; [intros H; right; cbn in *; tauto|].
  destruct (c =? LT)%N; [intros H; right; cbn in *; tauto|].
  destruct (c =? GT)%N; [intros H; right; cbn in *; tauto|].
  intros [<-|[]]. now left.
Qed.

Lemma escapeHtml_units_from (text : JSString) (x : codeunit) :
  In x (Part001.escapeHtml text) -> In x text \/ In x (lit "&amp;nbsp;lt;gt;").
Proof.
  rewrite escapeHtml_escape_string. unfold Dom.escape_string.
  intros H. apply in_flat_map in H. destruct H as (c & Hc & Hx).
  destruct (escape_unit_units _ _ Hx) as [->|Hin]; [now left | now right].
Qed.

Lemma escape_unit_first (c : codeunit) :
  exists x t, Dom.escape_unit c = x :: t /\ ~ In LF t /\
    ((x =? LF)%N = (c =? LF)%N) /\ ((c =? LF)%N = true -> t = []).
Proof.
  unfold Dom.escape_unit.
  destruct (N.eqb_spec c AMP) as [->|?];
    [eexists; eexists; split; [reflexivity|split;
       [cbn; intuition discriminate|split; [reflexivity|discriminate]]]|].
  destruct (N.eqb_spec c NBSP) as [->|?];
    [eexists; eexists; split; [reflexivity|split;
       [cbn; intuition discriminate|split; [reflexivity|discriminate]]]|].
  destruct (N.eqb_spec c LT) as [->|?];
    [eexists; eexists; split; [reflexivity|split;
       [cbn; intuition discriminate|split; [reflexivity|discriminate]]]|].
  destruct (N.eqb_spec c GT) as [->|?];
    [eexists; eexists; split; [reflexivity|split;
       [cbn; intuition discriminate|split; [reflexivity|discriminate]]]|].
  exists c, []. split; [reflexivity|]. split; [easy|]. split; reflexivity.
Qed.

Lemma includes_two_skip (t s : JSString) :
  ~ In LF t -> t <> [] ->
  includes [LF; LF] (t ++ s) = includes [LF; LF] s.
Proof.
  induction t as [|x t IH]; [congruence|]. intros Hno _.
  cbn [app includes starts_with]. rewrite (N.eqb_sym LF x).
  destruct (N.eqb_spec x LF) as [->|_]; [exfalso; apply Hno; now left|].
  cbn [andb orb]. destruct t as [|y t]; [reflexivity|].
  apply IH; [|discriminate]. intros Hin. apply Hno. now right.
Qed.

Lemma escape_no_blank_line (text : JSString) :
  includes [LF; LF] (Dom.escape_string text) = includes [LF; LF] text.
Proof.
  assert (Hhead : forall s,
    starts_with [LF] (Dom.escape_string s) = starts_with [LF] s).
  { intros [|c s]; [reflexivity|]. cbn [Dom.escape_string flat_map].
    destruct (escape_unit_first c) as (x & t & -> & _ & Hx & _).
    cbn [app starts_with]. now rewrite !(N.eqb_sym LF), Hx. }
  induction text as [|c text IH]; [reflexivity|].
  cbn [Dom.escape_string flat_map]. fold (Dom.escape_string text).
  destruct (escape_unit_first c) as (x & t & -> & Hno & Hx & Hone).
  cbn [app includes].
  assert (Hrest : includes [LF; LF] (t ++ Dom.escape_string text)
                  = includes [LF; LF] text).
  { destruct t as [|y t]; [exact IH|].
    rewrite includes_two_skip; [exact IH | exact Hno | discriminate]. }
  rewrite Hrest. f_equal.
  cbn [starts_with]. rewrite !(N.eqb_sym LF), Hx.
  destruct (c =? LF)%N; [|reflexivity]. cbn [andb].
  rewrite (Hone eq_refl). apply Hhead.
Qed.

Lemma no_angle_no_span (html : JSString) :
  ~ In LT html ->
  forall a b c, html <> a ++ lit "<li>" ++ b ++ lit "</li>" ++ c.
Proof.
  intros H a b c ->. apply H, in_or_app. right. now left.
Qed.

(** X1: a text without an asterisk, a backtick or an empty line is rendered
    as one paragraph holding the escaped text: no pass of [renderMarkdown]
    touches it. *)
Theorem plain_text_is_one_paragraph (text : JSString) :
  ~ In STAR text -> ~ In BACKTICK text ->
  includes [LF; LF] text = false ->
  Part001.renderMarkdown text
  = lit "<p>" ++ Part001.escapeHtml text ++ lit "</p>".
Proof.
  intros Hstar Htick Hblank.
  assert (Hs : ~ In STAR (Part001.escapeHtml text)).
  { intros H. apply escapeHtml_units_from in H. destruct H as [H|H]; [tauto|].
    cbn in H. intuition discriminate. }
  assert (Ht : ~ In BACKTICK (Part001.escapeHtml text)).
  { intros H. apply escapeHtml_units_from in H. destruct H as [H|H]; [tauto|].
    cbn in H. intuition discriminate. }
  assert (Hb : includes [LF; LF] (Part001.escapeHtml text) = false).
  { now rewrite escapeHtml_escape_string, escape_no_blank_line. }
  assert (Hl : ~ In LT (Part001.escapeHtml text)) by apply escapeHtml_no_angle.
  unfold Part001.renderMarkdown.
  set (html := Part001.escapeHtml text) in *.
  assert (E1 : Part001.bold html = html).
  { apply replace_all_id. intros b u w E. apply bold_needs_star.
    eapply not_in_suffix; [exact Hs | exact E]. }
  rewrite E1.
  assert (E2 : Part001.italic html = html).
  { apply replace_all_id. intros b u w E. apply italic_needs_star.
    eapply not_in_suffix; [exact Hs | exact E]. }
  rewrite E2.
  assert (E3 : Part001.inlineCode html = html).
  { apply replace_all_id. intros b u w E. apply code_needs_backtick.
    eapply not_in_suffix; [exact Ht | exact E]. }
  rewrite E3.
  assert (E4 : Part001.listItems html = html).
  { apply replace_all_id. intros b u w E. apply item_needs_star.
    eapply not_in_suffix; [exact Hs | exact E]. }
  rewrite E4.
  assert (E5 : Part001.listWrap html = html).
  { unfold Part001.listWrap, replace.
    change (global (fl Part001.re_items)) with false. cbv iota.
    apply replace_first_items_none. now apply no_angle_no_span. }
  rewrite E5.
  assert (E6 : Part001.codeBlocks html = html).
  { apply replace_all_id. intros b u w E. apply fence_needs_backtick.
    eapply not_in_suffix; [exact Ht | exact E]. }
  rewrite E6.
  assert (E7 : Part001.paragraphs html = html).
  { apply replace_all_id. intros b u w E. apply blank_needs_two.
    apply includes_starts. apply (includes_suffix _ u). now rewrite <- E. }
  now rewrite E7.
Qed.

(** X1, at a text of two lines with characters to escape. *)
Lemma plain_text_is_one_paragraph_witness :
  Part001.renderMarkdown (lit "1 < 2 & 3 > 2" ++ [LF] ++ lit "ok")
  = lit "<p>" ++ Part001.escapeHtml (lit "1 < 2 & 3 > 2" ++ [LF] ++ lit "ok")
    ++ lit "</p>".
Proof.
  apply plain_text_is_one_paragraph;
    [vm_compute; intuition discriminate | vm_compute; intuition discriminate
    | reflexivity].
Defined.

(** ** The escaper, further *)

Lemma escape_unit_length (c : codeunit) :
  1 <= List.length (Dom.escape_unit c) <= 6.
Proof.
  unfold Dom.escape_unit.
  destruct (c =? AMP)%N; [cbn; lia|].
  destruct (c =? NBSP)%N; [cbn; lia|].
  destruct (c =? LT)%N; [cbn; lia|].
  destruct (c =? GT)%N; cbn; lia.
Qed.

Lemma escape_unit_no_nbsp (c x : codeunit) :
  In x (Dom.escape_unit c) -> x <> NBSP.
Proof.
  unfold Dom.escape_unit.
  destruct (N.eqb_spec c AMP) as [->|?]; [cbn; intuition (subst; discriminate)|].
  destruct (N.eqb_spec c NBSP) as [->|?]; [cbn; intuition (subst; discriminate)|].
  destruct (N.eqb_spec c LT) as [->|?]; [cbn; intuition (subst; discriminate)|].
  destruct (N.eqb_spec c GT) as [->|?]; [cbn; intuition (subst; discriminate)|].
  intros [<-|[]]. assumption.
Qed.

Lemma escape_string_length (text : JSString) :
  List.length text <= List.length (Dom.escape_string text)
  <= 6 * List.length text.
Proof.
  induction text as [|c text IH]; [cbn; lia|].
  cbn [Dom.escape_string flat_map]. fold (Dom.escape_string text).
  rewrite length_app. cbn [List.length].
  pose proof (escape_unit_length c). lia.
Qed.

Lemma escape_unit_fixed (c : codeunit) :
  Dom.escape_unit c = [c] <->
  c <> AMP /\ c <> LT /\ c <> GT /\ c <> NBSP.
Proof.
  unfold Dom.escape_unit.
  destruct (N.eqb_spec c AMP) as [->|?];
    [split; [discriminate | intros H; exfalso; tauto]|].
  destruct (N.eqb_spec c NBSP) as [->|?];
    [split; [discriminate | intros H; exfalso; tauto]|].
  destruct (N.eqb_spec c LT) as [->|?];
    [split; [discriminate | intros H; exfalso; tauto]|].
  destruct (N.eqb_spec c GT) as [->|?];
    [split; [discriminate | intros H; exfalso; tauto]|].
  tauto.
Qed.

Lemma escape_string_fixed (text : JSString) :
  Dom.escape_string text = text <->
  forall c, In c text -> Dom.escape_unit c = [c].
Proof.
  induction text as [|c text IH]; [cbn; tauto|].
  cbn [Dom.escape_string flat_map]. fold (Dom.escape_string text). split.
  - intros E.
    assert (Hlen : List.length (Dom.escape_unit c ++ Dom.escape_string text)
                   = S (List.length text)) by now rewrite E.
    rewrite length_app in Hlen.
    pose proof (escape_unit_length c) as Hc.
    pose proof (escape_string_length text) as Ht.
    destruct (Dom.escape_unit c) as [|x [|y u]] eqn:Eu;
      cbn [List.length] in *; try lia.
    cbn [app] in E. injection E as -> E.
    intros d [<-|Hd]; [exact Eu | now apply IH].
  - intros H. rewrite (H c) by now left. cbn [app]. f_equal.
    apply IH. intros d Hd. apply H. now right.
Qed.

(** X2: [escapeHtml] returns its text unchanged exactly when the text holds
    no ampersand, angle bracket or no-break space; its result holds no angle
    bracket and no no-break space, and is at least as long as the text and
    at most six times as long. *)
Theorem escapeHtml_fixed_points_and_size :
  (forall text : JSString,
     Part001.escapeHtml text = text <->
     ~ In AMP text /\ ~ In LT text /\ ~ In GT text /\ ~ In NBSP text) /\
  (forall text : JSString,
     ~ In LT (Part001.escapeHtml text) /\
     ~ In GT (Part001.escapeHtml text) /\
     ~ In NBSP (Part001.escapeHtml text)) /\
  (forall text : JSString,
     List.length text <= List.length (Part001.escapeHtml text)
     <= 6 * List.length text).
Proof.
  split; [|split].
  - intros text. rewrite escapeHtml_escape_string, escape_string_fixed. split.
    + intros H. repeat split; intros Hin; apply H in Hin;
        apply escape_unit_fixed in Hin; tauto.
    + intros (Ha & Hl & Hg & Hn) c Hc. apply escape_unit_fixed.
      repeat split; intros ->; tauto.
  - intros text. destruct (escapeHtml_no_angle text) as (Hl & Hg).
    split; [exact Hl|]. split; [exact Hg|].
    rewrite escapeHtml_escape_string. unfold Dom.escape_string.
    intros H. apply in_flat_map in H. destruct H as (c & _ & H).
    now apply escape_unit_no_nbsp in H.
  - intros text. rewrite escapeHtml_escape_string. apply escape_string_length.
Qed.

(** X2, at a text with a quotation mark only, which is returned as it is,
    and at its size. *)
Lemma escapeHtml_fixed_points_and_size_witness :
  Part001.escapeHtml (lit "say " ++ quoted (lit "hi")) = lit "say " ++ quoted (lit "hi").
Proof.
  apply (proj1 escapeHtml_fixed_points_and_size).
  vm_compute. intuition discriminate.
Defined.

(** ** Sending, further *)

Lemma trimStart_nil (s : JSString) :
  trimStart s = [] <-> forallb isSpace s = true.
Proof.
  induction s as [|c s IH]; [cbn; tauto|].
  cbn [trimStart forallb]. destruct (isSpace c); cbn [andb]; [exact IH|].
  split; discriminate.
Qed.

Lemma trim_nil (s : JSString) :
  trim s = [] <-> forallb isSpace s = true.
Proof.
  unfold trim. split.
  - intros H.
    assert (H' : trimStart (rev (trimStart s)) = []).
    { apply (f_equal (@rev _)) in H. now rewrite rev_involutive in H. }
    apply trimStart_nil in H'. rewrite forallb_forall in H'.
    apply trimStart_nil.
    destruct (trimStart s) as [|x t] eqn:E; [reflexivity|].
    assert (Hx : isSpace x = true) by (apply H', in_rev; rewrite rev_involutive; now left).
    clear H' H. exfalso. revert E Hx. clear.
    induction s as [|c s IH]; cbn [trimStart]; [discriminate|].
    destruct (isSpace c) eqn:Ec; [exact IH|].
    intros E. injection E as -> _. congruence.
  - intros H. apply trimStart_nil in H. now rewrite H.
Qed.

(** X3: a send with an input that holds nothing but white space does
    nothing: the page is left exactly as it was, with no message appended,
    the input not cleared, the button not disabled and nothing scheduled;
    and only such an input is refused. *)
Theorem blank_input_sends_nothing :
  (forall rt (ts : JSString) o (ts' : JSString) st,
     forallb isSpace (Part001.messageInput_value st) = true ->
     Part001.sendMessage_begin ts st = (st, Normal None) /\
     Part001.sendMessage rt ts o ts' st = (st, Normal tt)) /\
  (forall (ts : JSString) st st',
     Part001.sendMessage_begin ts st = (st', Normal None) ->
     forallb isSpace (Part001.messageInput_value st) = true).
Proof.
  split.
  - intros rt ts o ts' st H. apply trim_nil in H.
    unfold Part001.sendMessage, bind.
    assert (E : Part001.sendMessage_begin ts st = (st, Normal None)).
    { run_page. now rewrite H. }
    now rewrite E.
  - intros ts st st' H. apply trim_nil. revert H. run_page.
    destruct (trim (Part001.messageInput_value st)); [reflexivity | discriminate].
Qed.

(** X3, on a page whose input holds a space, a tab and a newline. *)
Lemma blank_input_sends_nothing_witness :
  Part001.sendMessage canned_runtime (lit "10:00") (Rejected failed_to_fetch)
    (lit "10:00") (fresh_page [32%N; 9%N; LF])
  = (fresh_page [32%N; 9%N; LF], Normal tt).
Proof.
  apply (proj1 blank_input_sends_nothing canned_runtime (lit "10:00")
           (Rejected failed_to_fetch) (lit "10:00") (fresh_page [32%N; 9%N; LF])).
  reflexivity.
Defined.

(** X4: what the page shows of a reply it cannot use is bounded or not.
    The placeholder for a reply without text holds at most 120 code units
    and the error for a body that is not JSON at most 139, however long the
    body; the error for a status outside 200..299 holds the whole body. *)
Theorem diagnostics_are_truncated_except_http :
  (forall rt data, List.length (Part001.placeholder rt data) <= 120) /\
  (forall rt text r responseText e (ts : JSString) st,
     body r = BodyText responseText -> ok r = true ->
     JSON_parse rt responseText = Throw e ->
     exists st' shown,
       Part001.sendMessage_settle rt text (Resolved r) ts st = (st', Normal tt) /\
       Part001.messages st' =
         Part001.messages st ++ [Part001.messageEl (lit "system") shown None ts] /\
       List.length shown <= 139) /\
  (forall rt text r responseText (ts : JSString) st,
     body r = BodyText responseText -> ok r = false ->
     exists st' shown,
       Part001.sendMessage_settle rt text (Resolved r) ts st = (st', Normal tt) /\
       Part001.messages st' =
         Part001.messages st ++ [Part001.messageEl (lit "system") shown None ts] /\
       shown = lit "Error: HTTP " ++ decimal (status r) ++ lit ": " ++ responseText /\
       List.length responseText < List.length shown).
Proof.
  split; [|split].
  - intros rt data. unfold Part001.placeholder, substring0.
    rewrite !length_app.
    pose proof (firstn_le_length 100 (JSON_stringify rt data)).
    assert (List.length (firstn 100 (JSON_stringify rt data)) <= 100)
      by (rewrite length_firstn; lia).
    cbn [lit list_ascii_of_string map List.length]. lia.
  - intros rt text r responseText e ts st Hb Hok Hp.
    run_page. rewrite Hb, Hok, Hp. cbn [negb].
    eexists. eexists. split; [reflexivity|]. page_fields.
    split; [reflexivity|]. cbn [message]. unfold substring0.
    rewrite !length_app. cbn [List.length]. rewrite !length_app.
    assert (List.length (firstn 100 responseText) <= 100)
      by (rewrite length_firstn; lia).
    cbn [lit list_ascii_of_string map List.length]. lia.
  - intros rt text r responseText ts st Hb Hok.
    run_page. rewrite Hb, Hok. cbn [negb].
    eexists. eexists. split; [reflexivity|]. page_fields.
    split; [reflexivity|]. cbn [message]. split.
    + reflexivity.
    + rewrite !length_app. cbn [lit list_ascii_of_string map List.length]. lia.
Qed.

(** X4, at a response with status 200 whose body is two hundred letters, and
    at one with status 500. *)
Lemma diagnostics_are_truncated_except_http_witness :
  (exists st' shown,
     Part001.sendMessage_settle canned_runtime (lit "hello")
       (Resolved {| status := 200; body := BodyText (repeat 97%N 200) |})
       (lit "10:00") (fresh_page []) = (st', Normal tt) /\
     Part001.messages st' =
       Part001.messages (fresh_page []) ++
       [Part001.messageEl (lit "system") shown None (lit "10:00")] /\
     List.length shown <= 139) /\
  (exists st' shown,
     Part001.sendMessage_settle canned_runtime (lit "hello")
       (Resolved {| status := 500; body := BodyText (repeat 97%N 200) |})
       (lit "10:00") (fresh_page []) = (st', Normal tt) /\
     Part001.messages st' =
       Part001.messages (fresh_page []) ++
       [Part001.messageEl (lit "system") shown None (lit "10:00")] /\
     shown = lit "Error: HTTP " ++ decimal 500 ++ lit ": " ++ repeat 97%N 200 /\
     200 < List.length shown).
Proof.
  destruct diagnostics_are_truncated_except_http as (_ & Hjson & Hhttp).
  split.
  - apply (Hjson canned_runtime (lit "hello")
             {| status := 200; body := BodyText (repeat 97%N 200) |}
             (repeat 97%N 200) {| message := lit "Unexpected token" |});
      reflexivity.
  - apply (Hhttp canned_runtime (lit "hello")
             {| status := 500; body := BodyText (repeat 97%N 200) |}
             (repeat 97%N 200)); reflexivity.
Defined.

Lemma contains_short (reply u : JSString) :
  contains reply (substring0 20 u) -> List.length u <= 20 -> contains reply u.
Proof.
  unfold substring0. intros H Hlen. now rewrite firstn_all2 in H.
Qed.

(** X5: the fallback.  [simulateSauloResponse] appends nothing itself; when
    its timer runs, whichever of the five templates is drawn, exactly one
    message of Saulo is appended, which quotes the first twenty code units
    of the user's message, and so the whole message when it is no longer
    than that; the timer is then gone. *)
Theorem fallback_quotes_the_message
    (userMessage : JSString) (pick : nat) (ts : JSString) st :
  pick < 5 ->
  exists st1 st2 reply,
    Part001.simulateSauloResponse userMessage st = (st1, Normal tt) /\
    Part001.messages st1 = Part001.messages st /\
    Part001.run_timer (List.length (Part001.timers st)) pick ts st1
      = (st2, Normal tt) /\
    Part001.messages st2 =
      Part001.messages st ++
      [Part001.messageEl (lit "saulo") reply (Some (lit "Saulo")) ts] /\
    Part001.timers st2 = Part001.timers st /\
    contains reply (substring0 20 userMessage) /\
    (List.length userMessage <= 20 -> contains reply userMessage) /\
    reply <> [].
Proof.
  intros Hpick.
  exists (Part001.setTimeout
            {| Part001.responses := Part001.simulated_responses userMessage |} st).
  eexists. exists (nth pick (Part001.simulated_responses userMessage) []).
  split; [reflexivity|]. split; [reflexivity|].
  split.
  { run_page. page_fields. rewrite nth_error_app_here. page_fields.
    rewrite remove_nth_app_here, app_nil_r. reflexivity. }
  page_fields. split; [reflexivity|]. split; [reflexivity|].
  pose proof (simulated_contains_prefix userMessage Hpick) as Hc.
  split; [exact Hc|]. split; [now apply contains_short|].
  destruct pick as [|[|[|[|[|pick]]]]]; [ | | | | | lia];
    cbn [nth Part001.simulated_responses]; discriminate.
Qed.

(** X5, with a message of thirty letters and the third template, the one
    that quotes a prefix only. *)
Lemma fallback_quotes_the_message_witness :
  exists st1 st2 reply,
    Part001.simulateSauloResponse (repeat 97%N 30) (fresh_page [])
      = (st1, Normal tt) /\
    Part001.messages st1 = Part001.messages (fresh_page []) /\
    Part001.run_timer (List.length (Part001.timers (fresh_page []))) 2
      (lit "10:01") st1 = (st2, Normal tt) /\
    Part001.messages st2 =
      Part001.messages (fresh_page []) ++
      [Part001.messageEl (lit "saulo") reply (Some (lit "Saulo")) (lit "10:01")] /\
    Part001.timers st2 = Part001.timers (fresh_page []) /\
    contains reply (substring0 20 (repeat 97%N 30)) /\
    (List.length (repeat 97%N 30) <= 20 -> contains reply (repeat 97%N 30)) /\
    reply <> [].
Proof.
  apply (@fallback_quotes_the_message (repeat 97%N 30) 2 (lit "10:01")
           (fresh_page [])).
  lia.
Defined.

(** X6: the probe of the Markdown version touches the status line only.  It
    never throws; the transcript, the input, the button and the timers are
    as before.  For a response with a status in 200..299 the class
    connected is put on the dot, the text is "Conectado" and the colour of
    the dot is left alone.  In every other case, a rejected request
    included, the text is the one of the simulated mode, the colour is set
    to #f59e0b and the class is left as it was: the probe never takes the
    class off, so a probe that fails after one that succeeded leaves it
    on. *)
Theorem probe_touches_the_status_only (o : FetchResult) (st : Part001.State) :
  exists st',
    Part001.checkConnection o st = (st', Normal tt) /\
    Part001.messages st' = Part001.messages st /\
    Part001.messageInput_value st' = Part001.messageInput_value st /\
    Part001.messageInput_focused st' = Part001.messageInput_focused st /\
    Part001.sendButton_disabled st' = Part001.sendButton_disabled st /\
    Part001.timers st' = Part001.timers st /\
    if match o with Resolved r => ok r | Rejected _ => false end
    then
      Part001.statusText st' = lit "Conectado" /\
      Part001.statusDot_connected st' = true /\
      Part001.statusDot_background st' = Part001.statusDot_background st
    else
      Part001.statusText st' = lit "Modo simulaci" ++ o_acute :: lit "n" /\
      Part001.statusDot_connected st' = Part001.statusDot_connected st /\
      Part001.statusDot_background st' = Some (lit "#f59e0b").
Proof.
  run_page. destruct o as [e|r]; [|destruct (ok r) eqn:Hok];
    (eexists; split; [reflexivity|]); page_fields; repeat split.
Qed.

(** X6, at a probe answered with status 503 on a page whose dot is
    connected. *)
Lemma probe_touches_the_status_only_witness :
  exists st',
    Part001.checkConnection
      (Resolved {| status := 503; body := BodyText [] |})
      (Part001.classList_add_connected (fresh_page [])) = (st', Normal tt) /\
    Part001.statusDot_connected st' = true /\
    Part001.statusDot_background st' = Some (lit "#f59e0b") /\
    Part001.statusText st' = lit "Modo simulaci" ++ o_acute :: lit "n".
Proof.
  destruct (probe_touches_the_status_only
              (Resolved {| status := 503; body := BodyText [] |})
              (Part001.classList_add_connected (fresh_page [])))
    as (st' & E & _ & _ & _ & _ & _ & Ht & Hc & Hb).
  exists st'. split; [exact E|]. split; [exact Hc|]. split; [exact Hb | exact Ht].
Defined.

(** X7: a send that is answered.  With a non-empty trimmed input, a status
    in 200..299 and a JSON body that is truthy and whose [text] is truthy
    and can be converted to a string, the call appends the trimmed input
    as the user's message and then the converted text as Saulo's, in that
    order and nothing else, clears the input, leaves the button enabled and
    the input focused, and schedules nothing.  A string is such a text and
    is shown as it is. *)
Theorem answered_send_shows_question_and_answer
    rt (ts ts' : JSString) st text r responseText data v reply :
  trim (Part001.messageInput_value st) = text -> text <> [] ->
  body r = BodyText responseText -> ok r = true ->
  JSON_parse rt responseText = Normal data -> truthy data = true ->
  get_property data (lit "text") = Some v -> truthy v = true ->
  ToString rt v = Normal reply ->
  (exists st',
     Part001.sendMessage rt ts (Resolved r) ts' st = (st', Normal tt) /\
     Part001.messages st' =
       Part001.messages st ++
       [Part001.messageEl (lit "user") text None ts;
        Part001.messageEl (lit "saulo") reply (Some (lit "Saulo")) ts'] /\
     Part001.messageInput_value st' = [] /\
     Part001.messageInput_focused st' = true /\
     Part001.sendButton_disabled st' = false /\
     Part001.timers st' = Part001.timers st) /\
  (forall s, v = JStr s -> reply = s).
Proof.
  intros Hin Hne Hb Hok Hp Hd Hget Hv Hr.
  split; [|intros s ->; cbn [ToString] in Hr; congruence].
  unfold Part001.sendMessage, bind.
  rewrite (begin_nonempty ts st Hin Hne).
  assert (Hdata : Part001.has_text data = Some v).
  { unfold Part001.has_text. now rewrite Hd, Hget, Hv. }
  run_page. rewrite Hb, Hok, Hp. cbn [negb]. rewrite Hdata, Hr.
  eexists. split; [reflexivity|]. page_fields.
  rewrite <- app_assoc. repeat split.
Qed.

(** X7, on a fresh page whose input holds " hello ", answered with the text
    "hola". *)
Lemma answered_send_shows_question_and_answer_witness :
  exists st',
    Part001.sendMessage hola_runtime (lit "10:00")
      (Resolved {| status := 200; body := BodyText body_hola |})
      (lit "10:01") (fresh_page (lit " hello ")) = (st', Normal tt) /\
    Part001.messages st' =
      Part001.messages (fresh_page (lit " hello ")) ++
      [Part001.messageEl (lit "user") (lit "hello") None (lit "10:00");
       Part001.messageEl (lit "saulo") (lit "hola") (Some (lit "Saulo"))
         (lit "10:01")] /\
    Part001.messageInput_value st' = [] /\
    Part001.messageInput_focused st' = true /\
    Part001.sendButton_disabled st' = false /\
    Part001.timers st' = Part001.timers (fresh_page (lit " hello ")).
Proof.
  apply (proj1 (@answered_send_shows_question_and_answer hola_runtime
           (lit "10:00") (lit "10:01") (fresh_page (lit " hello ")) (lit "hello")
           {| status := 200; body := BodyText body_hola |} body_hola
           (JObj [(lit "text", JStr (lit "hola"))]) (JStr (lit "hola"))
           (lit "hola") eq_refl ltac:(discriminate) eq_refl eq_refl eq_refl
           eq_refl eq_refl eq_refl eq_refl)).
Defined.

(** ** The control-panel version: the text of a message *)

Lemma newline_pass_keeps (l rest : JSString) :
  ~ In LF l ->
  forall before,
    replace_all StaticScript.re_newline [Text (lit "<br>")] 0 before (l ++ rest)
    = l ++ replace_all StaticScript.re_newline [Text (lit "<br>")] 0
             (rev l ++ before) rest.
Proof.
  induction l as [|c l IH]; intros H before; [reflexivity|].
  cbn [app replace_all]. unfold match_at. cbn.
  destruct (N.eqb_spec c LF) as [->|_]; [exfalso; apply H; now left|].
  f_equal. rewrite IH by (intros Hin; apply H; now right).
  now rewrite <- app_assoc.
Qed.

Lemma newline_pass_breaks (rest before : JSString) :
  replace_all StaticScript.re_newline [Text (lit "<br>")] 0 before (LF :: rest)
  = lit "<br>" ++ replace_all StaticScript.re_newline [Text (lit "<br>")] 0
                    (LF :: before) rest.
Proof.
  cbn [replace_all]. unfold match_at, matched_length. cbn -[Nat.sub].
  replace (S (List.length before) - List.length before) with 1 by lia.
  reflexivity.
Qed.

Lemma newline_pass_lines (lines : list JSString) :
  (forall l, In l lines -> ~ In LF l) ->
  forall before,
    replace_all StaticScript.re_newline [Text (lit "<br>")] 0 before
      (join [LF] lines)
    = join (lit "<br>") lines.
Proof.
  induction lines as [|l lines IH]; intros H before; [reflexivity|].
  destruct lines as [|l' lines].
  - cbn [join]. rewrite <- (app_nil_r l) at 1.
    rewrite newline_pass_keeps by (apply H; now left).
    now rewrite app_nil_r.
  - change (join [LF] (l :: l' :: lines))
      with (l ++ [LF] ++ join [LF] (l' :: lines)).
    change (join (lit "<br>") (l :: l' :: lines))
      with (l ++ lit "<br>" ++ join (lit "<br>") (l' :: lines)).
    rewrite newline_pass_keeps by (apply H; now left).
    cbn [app]. rewrite newline_pass_breaks.
    rewrite IH by (intros x Hx; apply H; now right). reflexivity.
Qed.

(** X8: in the control-panel version the lines of a message are joined by
    break elements: every newline of the text becomes <br>, nothing else of
    the text changes, and no newline is left in what is inserted. *)
Theorem newlines_become_breaks (lines : list JSString) :
  (forall l, In l lines -> ~ In LF l) ->
  replace StaticScript.re_newline [Text (lit "<br>")] (join [LF] lines)
  = join (lit "<br>") lines /\
  ~ In LF (replace StaticScript.re_newline [Text (lit "<br>")] (join [LF] lines)).
Proof.
  intros H.
  assert (E : replace StaticScript.re_newline [Text (lit "<br>")] (join [LF] lines)
              = join (lit "<br>") lines).
  { unfold replace. cbn [StaticScript.re_newline fl global].
    now apply newline_pass_lines. }
  split; [exact E|]. rewrite E. clear E.
  induction lines as [|l lines IH]; [easy|].
  destruct lines as [|l' lines]; [cbn [join]; apply H; now left|].
  change (join (lit "<br>") (l :: l' :: lines))
    with (l ++ lit "<br>" ++ join (lit "<br>") (l' :: lines)).
  intros Hin. apply in_app_or in Hin. destruct Hin as [Hin|Hin].
  - revert Hin. apply H. now left.
  - apply in_app_or in Hin. destruct Hin as [Hin|Hin].
    + cbn in Hin. intuition discriminate.
    + revert Hin. apply IH. intros x Hx. apply H. now right.
Qed.

(** X8, at a text of three lines, the second one empty. *)
Lemma newlines_become_breaks_witness :
  replace StaticScript.re_newline [Text (lit "<br>")]
    (join [LF] [lit "uno"; []; lit "<b>tres</b>"])
  = join (lit "<br>") [lit "uno"; []; lit "<b>tres</b>"] /\
  ~ In LF (replace StaticScript.re_newline [Text (lit "<br>")]
             (join [LF] [lit "uno"; []; lit "<b>tres</b>"])).
Proof.
  apply newlines_become_breaks.
  intros l [<-|[<-|[<-|[]]]]; vm_compute; intuition discriminate.
Defined.

(** ** The simple version: sending *)

Lemma simple_begin rt (ts : JSString) st text :
  trim (Part000Page.messageInput_value st) = text -> text <> [] ->
  Part000Page.sendMessage_begin rt ts st =
  (Part000Page.set_sendButton_disabled true
     (Part000Page.clear_input
        (Part000Page.appendChild
           (Part000.messageEl (lit "user") text None ts) st)),
   Normal (Some text)).
Proof.
  intros H Hne. run_simple. rewrite H.
  destruct text as [|c text]; [congruence|].
  cbn [Part000Page.textContent_of ToString]. reflexivity.
Qed.

Lemma simple_settle_failure rt te text o (ts : JSString) st :
  simple_reply rt o = None ->
  Part000Page.sendMessage_settle rt te text o ts st =
  (Part000Page.focus (Part000Page.set_sendButton_disabled false
     (Part000Page.set_timers
        (Part000Page.timers st ++
         [{| Part000Page.responses := Part001.simulated_responses text |}]) st)),
   Normal tt).
Proof.
  unfold simple_reply. run_simple.
  destruct o as [e|r]; [reflexivity|].
  destruct (body r) as [t|e]; [|reflexivity].
  destruct (JSON_parse rt t) as [[]|e]; (reflexivity || discriminate).
Qed.

Lemma simple_settle_reply rt te text o v shown (ts : JSString) st :
  simple_reply rt o = Some v ->
  Part000Page.textContent_of rt v = Normal shown ->
  Part000Page.sendMessage_settle rt te text o ts st =
  (Part000Page.focus (Part000Page.set_sendButton_disabled false
     (Part000Page.appendChild
        (Part000.messageEl (lit "saulo") shown (Some (lit "Saulo")) ts) st)),
   Normal tt).
Proof.
  intros H Ht. unfold simple_reply in H.
  destruct o as [e|r]; [discriminate|].
  destruct (body r) as [t|e] eqn:Eb; [|discriminate].
  destruct (JSON_parse rt t) as [d|e] eqn:Ep; [|discriminate].
  assert (Hd : d <> JNull /\ v = get_property d (lit "text")).
  { destruct d; try discriminate; injection H as <-;
      (split; [discriminate | reflexivity]). }
  destruct Hd as (Hd & ->).
  run_simple. rewrite Eb, Ep.
  destruct d; try congruence; rewrite Ht; reflexivity.
Qed.

Lemma simple_settle_unshowable rt te text o v e (ts : JSString) st :
  simple_reply rt o = Some v ->
  Part000Page.textContent_of rt v = Throw e ->
  Part000Page.sendMessage_settle rt te text o ts st =
  (Part000Page.focus (Part000Page.set_sendButton_disabled false
     (Part000Page.set_timers
        (Part000Page.timers st ++
         [{| Part000Page.responses := Part001.simulated_responses text |}]) st)),
   Normal tt).
Proof.
  intros H Ht. unfold simple_reply in H.
  destruct o as [e'|r]; [discriminate|].
  destruct (body r) as [t|e'] eqn:Eb; [|discriminate].
  destruct (JSON_parse rt t) as [d|e'] eqn:Ep; [|discriminate].
  assert (Hd : d <> JNull /\ v = get_property d (lit "text")).
  { destruct d; try discriminate; injection H as <-;
      (split; [discriminate | reflexivity]). }
  destruct Hd as (Hd & ->).
  run_simple. rewrite Eb, Ep.
  destruct d; try congruence; rewrite Ht; reflexivity.
Qed.

(** X9: in the simple version a send that fails shows no error.  When the
    request is rejected, the body cannot be read or is not JSON, or the
    body is null, the call completes normally having appended the user's
    message only, with the input cleared, its height and the counter
    reset, the button enabled again and the fallback scheduled; when the
    timer runs, the transcript has gained exactly two entries, the user's
    message and a simulated reply that quotes the first twenty code units
    of it. *)
Theorem simple_failure_two_entries
    rt te (ts1 ts2 ts3 : JSString) st text o pick :
  trim (Part000Page.messageInput_value st) = text -> text <> [] ->
  simple_reply rt o = None ->
  pick < 5 ->
  exists st1 st2 reply,
    Part000Page.sendMessage rt te ts1 o ts2 st = (st1, Normal tt) /\
    Part000Page.messages st1 =
      Part000Page.messages st ++ [Part000.messageEl (lit "user") text None ts1] /\
    Part000Page.messageInput_value st1 = [] /\
    Part000Page.messageInput_height st1 = lit "60px" /\
    Part000Page.charCount st1 = lit "0/500" /\
    Part000Page.sendButton_disabled st1 = false /\
    Part000Page.run_timer rt (List.length (Part000Page.timers st)) pick ts3 st1
      = (st2, Normal tt) /\
    Part000Page.messages st2 =
      Part000Page.messages st ++
      [Part000.messageEl (lit "user") text None ts1;
       Part000.messageEl (lit "saulo") reply (Some (lit "Saulo")) ts3] /\
    Part000Page.timers st2 = Part000Page.timers st /\
    contains reply (substring0 20 text).
Proof.
  intros Hin Hne Hfail Hpick.
  unfold Part000Page.sendMessage, bind.
  rewrite (simple_begin rt ts1 st Hin Hne).
  rewrite (simple_settle_failure rt te text o ts2 _ Hfail).
  eexists. eexists. exists (nth pick (Part001.simulated_responses text) []).
  split; [reflexivity|]. simple_fields.
  split; [reflexivity|]. split; [reflexivity|]. split; [reflexivity|].
  split; [reflexivity|]. split; [reflexivity|].
  split.
  { run_simple. simple_fields. rewrite nth_error_app_here.
    simple_fields. rewrite remove_nth_app_here, app_nil_r.
    cbn [Part000Page.responses].
    assert (Hn : nth_error (Part001.simulated_responses text) pick
                 = Some (nth pick (Part001.simulated_responses text) []))
      by (apply nth_error_nth'; cbn; lia).
    rewrite Hn.
    cbn [option_map Part000Page.textContent_of ToString]. reflexivity. }
  simple_fields. split; [now rewrite <- app_assoc|].
  split; [reflexivity|]. now apply simulated_contains_prefix.
Qed.

(** X9, on a fresh page whose input holds "hello", with the request
    rejected and the first template drawn. *)
Lemma simple_failure_two_entries_witness :
  exists st1 st2 reply,
    Part000Page.sendMessage canned_runtime a_type_error (lit "10:00")
      (Rejected failed_to_fetch) (lit "10:00") (fresh_simple_page (lit "hello"))
      = (st1, Normal tt) /\
    Part000Page.messages st1 =
      Part000Page.messages (fresh_simple_page (lit "hello")) ++
      [Part000.messageEl (lit "user") (lit "hello") None (lit "10:00")] /\
    Part000Page.messageInput_value st1 = [] /\
    Part000Page.messageInput_height st1 = lit "60px" /\
    Part000Page.charCount st1 = lit "0/500" /\
    Part000Page.sendButton_disabled st1 = false /\
    Part000Page.run_timer canned_runtime
      (List.length (Part000Page.timers (fresh_simple_page (lit "hello")))) 0
      (lit "10:01") st1 = (st2, Normal tt) /\
    Part000Page.messages st2 =
      Part000Page.messages (fresh_simple_page (lit "hello")) ++
      [Part000.messageEl (lit "user") (lit "hello") None (lit "10:00");
       Part000.messageEl (lit "saulo") reply (Some (lit "Saulo")) (lit "10:01")] /\
    Part000Page.timers st2 = Part000Page.timers (fresh_simple_page (lit "hello")) /\
    contains reply (substring0 20 (lit "hello")).
Proof.
  apply (@simple_failure_two_entries canned_runtime a_type_error
           (lit "10:00") (lit "10:00") (lit "10:01")
           (fresh_simple_page (lit "hello")) (lit "hello")
           (Rejected failed_to_fetch) 0);
    (reflexivity || discriminate || lia).
Defined.

(** X10: the simple version never looks at the status.  For any body that
    parses to something other than null, whatever the status of the
    response, the call completes normally with the button enabled.  When
    [data.text] can be converted to a string, the one message appended is
    Saulo's and holds that string, and no fallback is scheduled: a string
    is shown as it is, and a missing or a null [text] as the empty text.
    When it cannot be converted, no message is appended and the fallback is
    scheduled, as for a request that failed. *)
Theorem simple_version_ignores_status
    rt te text r responseText data (ts : JSString) st :
  body r = BodyText responseText ->
  JSON_parse rt responseText = Normal data ->
  data <> JNull ->
  (exists st',
     Part000Page.sendMessage_settle rt te text (Resolved r) ts st
       = (st', Normal tt) /\
     Part000Page.sendButton_disabled st' = false /\
     match Part000Page.textContent_of rt (get_property data (lit "text")) with
     | Normal shown =>
         Part000Page.messages st' =
           Part000Page.messages st ++
           [Part000.messageEl (lit "saulo") shown (Some (lit "Saulo")) ts] /\
         Part000Page.timers st' = Part000Page.timers st
     | Throw _ =>
         Part000Page.messages st' = Part000Page.messages st /\
         Part000Page.timers st' =
           Part000Page.timers st ++
           [{| Part000Page.responses := Part001.simulated_responses text |}]
     end) /\
  (forall s, get_property data (lit "text") = Some (JStr s) ->
     Part000Page.textContent_of rt (get_property data (lit "text"))
     = Normal s) /\
  (get_property data (lit "text") = None \/
   get_property data (lit "text") = Some JNull ->
   Part000Page.textContent_of rt (get_property data (lit "text")) = Normal []) /\
  (forall ps v, get_property data (lit "text") = Some (JObj ps) ->
     lookup (lit "toString") ps = Some v ->
     Part000Page.textContent_of rt (get_property data (lit "text"))
     = Throw (TypeError_primitive rt)).
Proof.
  intros Hb Hp Hd.
  assert (E : simple_reply rt (Resolved r)
              = Some (get_property data (lit "text"))).
  { unfold simple_reply. rewrite Hb, Hp. destruct data; congruence. }
  split; [|split; [|split]].
  - destruct (Part000Page.textContent_of rt (get_property data (lit "text")))
      as [shown|e] eqn:Et.
    + rewrite (simple_settle_reply rt te text (Resolved r) ts st E Et).
      eexists. split; [reflexivity|]. simple_fields. repeat split.
    + rewrite (simple_settle_unshowable rt te text (Resolved r) ts st E Et).
      eexists. split; [reflexivity|]. simple_fields. repeat split.
  - intros s ->. reflexivity.
  - intros [->| ->]; reflexivity.
  - intros ps v -> Hl. cbn [Part000Page.textContent_of ToString].
    now rewrite Hl.
Qed.

(** X10, at a response with status 500 whose body is a JSON error page
    without [text]: an empty message of Saulo. *)
Lemma simple_version_ignores_status_witness :
  exists st',
    Part000Page.sendMessage_settle detail_runtime a_type_error (lit "hello")
      (Resolved {| status := 500; body := BodyText body_detail |})
      (lit "10:00") (fresh_simple_page []) = (st', Normal tt) /\
    Part000Page.messages st' =
      [Part000.messageEl (lit "saulo") [] (Some (lit "Saulo")) (lit "10:00")] /\
    Part000Page.timers st' = [].
Proof.
  destruct (proj1 (@simple_version_ignores_status detail_runtime a_type_error
              (lit "hello") {| status := 500; body := BodyText body_detail |}
              body_detail
              (JObj [(lit "detail", JStr (lit "Internal Server Error"))])
              (lit "10:00") (fresh_simple_page [])
              eq_refl eq_refl ltac:(discriminate)))
    as (st' & E & _ & Hm & Ht).
  exists st'. split; [exact E|]. split; [exact Hm | exact Ht].
Defined.

(** ** Every angle bracket of the result opens a tag of the renderer *)

Lemma tagged_app (a b : JSString) : tagged a -> tagged b -> tagged (a ++ b).
Proof.
  intros Ha Hb. induction Ha as [|c s Hc _ IH|name s Hn _ IH].
  - exact Hb.
  - cbn [app]. now apply tagged_unit.
  - rewrite <- app_assoc. now apply tagged_tag.
Qed.

Lemma tagged_no_angle (s : JSString) : ~ In LT s -> tagged s.
Proof.
  induction s as [|c s IH]; intros H; [apply tagged_nil|].
  apply tagged_unit.
  - intros ->. apply H. now left.
  - apply IH. intros Hin. apply H. now right.
Qed.

Lemma tagged_one (name : JSString) :
  In name tag_names -> tagged (tag name).
Proof.
  intros H. rewrite <- (app_nil_r (tag name)).
  apply tagged_tag; [exact H | apply tagged_nil].
Qed.

Lemma name_units (name : JSString) (c : codeunit) :
  In name tag_names -> In c name -> is_tag_unit c = true.
Proof.
  intros Hn Hc. unfold is_tag_unit. apply orb_true_iff. right.
  apply existsb_exists. exists c. split; [|apply N.eqb_refl].
  apply in_concat. now exists name.
Qed.

Lemma name_no_angle (name : JSString) :
  In name tag_names -> ~ In LT name /\ ~ In GT name.
Proof.
  intros H. cbn in H.
  repeat (destruct H as [<-|H]; [split; cbn; intuition discriminate|]).
  destruct H.
Qed.

Lemma tag_units (name : JSString) (c : codeunit) :
  In name tag_names -> In c (tag name) -> is_tag_unit c = true.
Proof.
  intros Hn [<-|Hc]; [reflexivity|].
  apply in_app_or in Hc. destruct Hc as [Hc|[<-|[]]].
  - now apply (@name_units name).
  - reflexivity.
Qed.

(** A text splits at a code unit that no tag holds. *)
Lemma tagged_split (s : JSString) :
  tagged s ->
  forall u d w, s = u ++ d :: w -> is_tag_unit d = false ->
  tagged u /\ tagged w.
Proof.
  induction 1 as [|c s Hc Hs IH|name s Hn Hs IH]; intros u d w E Hd.
  - destruct u; discriminate.
  - destruct u as [|x u]; cbn [app] in E; injection E as -> ->.
    + split; [apply tagged_nil | exact Hs].
    + destruct (IH u d w eq_refl Hd) as (Hu & Hw).
      split; [now apply tagged_unit | exact Hw].
  - apply app_eq_app in E. destruct E as (l & [(E1 & E2)|(E1 & E2)]).
    + destruct l as [|x l].
      * rewrite app_nil_r in E1. cbn [app] in E2. subst u.
        destruct (IH [] d w (eq_sym E2) Hd) as (_ & Hw).
        split; [now apply tagged_one | exact Hw].
      * cbn [app] in E2. injection E2 as <- _.
        assert (is_tag_unit d = true).
        { apply (@tag_units name d Hn). rewrite E1. apply in_or_app.
          right. now left. }
        congruence.
    + destruct (IH l d w E2 Hd) as (Hl & Hw). subst u.
      split; [now apply tagged_tag | exact Hw].
Qed.

(** A tag begins where an angle bracket opens, and nowhere else. *)
Lemma tag_eq_inv (name name' s w : JSString) :
  ~ In GT name -> ~ In GT name' ->
  name ++ GT :: s = name' ++ GT :: w -> name = name' /\ s = w.
Proof.
  revert name'. induction name as [|c name IH]; intros [|c' name'] H H' E;
    cbn [app] in E.
  - injection E as ->. now split.
  - injection E as <- _. exfalso. apply H'. now left.
  - injection E as -> _. exfalso. apply H. now left.
  - injection E as -> E.
    destruct (IH name') as (-> & ->); auto.
    + intros Hin. apply H. now right.
    + intros Hin. apply H'. now right.
Qed.

Lemma tagged_open_inv (w : JSString) :
  tagged (LT :: w) ->
  exists name s, In name tag_names /\ w = name ++ GT :: s /\ tagged s.
Proof.
  intros H. remember (LT :: w) as t eqn:E.
  destruct H as [|c s Hc Hs|name s Hn Hs].
  - discriminate.
  - injection E as -> _. congruence.
  - unfold tag in E. cbn [app] in E. injection E as E.
    exists name, s. rewrite <- E, <- app_assoc. now repeat split.
Qed.

Lemma tagged_after_tag (name w : JSString) :
  In name tag_names -> tagged (tag name ++ w) -> tagged w.
Proof.
  intros Hn H.
  replace (tag name ++ w) with (LT :: name ++ GT :: w) in H
    by (unfold tag; cbn [app]; now rewrite <- app_assoc).
  apply tagged_open_inv in H.
  destruct H as (name' & s & Hn' & E & Hs).
  apply tag_eq_inv in E; [|apply name_no_angle; assumption ..].
  destruct E as (_ & ->). exact Hs.
Qed.

Lemma tagged_split_open (s : JSString) :
  tagged s ->
  forall u w, s = u ++ LT :: w -> tagged u /\ tagged (LT :: w).
Proof.
  induction 1 as [|c s Hc Hs IH|name s Hn Hs IH]; intros u w E.
  - destruct u; discriminate.
  - destruct u as [|x u]; cbn [app] in E; injection E as -> ->.
    + congruence.
    + destruct (IH u w eq_refl) as (Hu & Hw).
      split; [now apply tagged_unit | exact Hw].
  - destruct u as [|x u].
    + cbn [app] in E. split; [apply tagged_nil|]. rewrite <- E.
      now apply tagged_tag.
    + apply app_eq_app in E. destruct E as (l & [(E1 & E2)|(E1 & E2)]).
      * destruct l as [|y l].
        -- rewrite app_nil_r in E1. cbn [app] in E2.
           destruct (IH [] w (eq_sym E2)) as (_ & Hw).
           split; [rewrite <- E1; now apply tagged_one | exact Hw].
        -- cbn [app] in E2. injection E2 as <- _.
           exfalso. unfold tag in E1. cbn [app] in E1. injection E1 as _ E1.
           destruct (name_no_angle Hn) as (Hl & _).
           assert (Hin : In LT (name ++ [GT])).
           { rewrite E1. apply in_or_app. right. now left. }
           apply in_app_or in Hin. destruct Hin as [Hin|[Hin|[]]];
             [tauto | discriminate].
      * destruct (IH l w E2) as (Hl & Hw). rewrite E1.
        split; [now apply tagged_tag | exact Hw].
Qed.

Lemma tag_unit_not_space (c : codeunit) :
  is_tag_unit c = true -> isSpace c = false /\ isLineTerminator c = false.
Proof.
  unfold is_tag_unit. rewrite !orb_true_iff, existsb_exists.
  intros [[E|E]|(x & Hin & E)]; apply N.eqb_eq in E; subst c;
    [now split | now split |].
  cbn in Hin.
  repeat (destruct Hin as [<-|Hin]; [now split|]). destruct Hin.
Qed.

Lemma space_not_tag_unit (c : codeunit) :
  isSpace c = true -> is_tag_unit c = false.
Proof.
  intros H. destruct (is_tag_unit c) eqn:E; [|reflexivity].
  apply tag_unit_not_space in E. destruct E. congruence.
Qed.

Lemma terminator_not_tag_unit (c : codeunit) :
  isLineTerminator c = true -> is_tag_unit c = false.
Proof.
  intros H. destruct (is_tag_unit c) eqn:E; [|reflexivity].
  apply tag_unit_not_space in E. destruct E. congruence.
Qed.

Lemma tagged_drop (c : codeunit) (w : JSString) :
  is_tag_unit c = false -> tagged (c :: w) -> tagged w.
Proof.
  intros Hc H. now destruct (@tagged_split _ H [] c w eq_refl Hc).
Qed.

(** What a repetition took passes its test, and it took at least the
    least number of units. *)
Lemma rep_inv_test (test : codeunit -> bool) (greedy : bool) (k : cont) cap res :
  forall after min before,
    rep test greedy k min cap before after = Some res ->
    exists u w, after = u ++ w /\ forallb test u = true /\
      min <= List.length u /\
      k {| consumed := rev u ++ before; rest := w; cap1 := cap |} = Some res.
Proof.
  assert (Hstop : forall min before after,
    match min with
    | O => k {| consumed := before; rest := after; cap1 := cap |}
    | S _ => None
    end = Some res ->
    exists u w, after = u ++ w /\ forallb test u = true /\
      min <= List.length u /\
      k {| consumed := rev u ++ before; rest := w; cap1 := cap |} = Some res).
  { intros [|min] before after H; [|discriminate].
    exists [], after. cbn. repeat split; [lia | exact H]. }
  induction after as [|c t IH]; intros min before H.
  - cbn [rep] in H. apply (Hstop min).
    destruct greedy; [exact H|].
    destruct (match min with O => _ | S _ => None end); [exact H | discriminate].
  - cbn [rep] in H.
    assert (Hmore : (if test c then rep test greedy k (pred min) cap (c :: before) t
                     else None) = Some res ->
      exists u w, c :: t = u ++ w /\ forallb test u = true /\
        min <= List.length u /\
        k {| consumed := rev u ++ before; rest := w; cap1 := cap |} = Some res).
    { destruct (test c) eqn:Ec; [|discriminate]. intros Hm.
      destruct (IH _ _ Hm) as (u & w & -> & Hu & Hmin & Hk).
      exists (c :: u), w. split; [reflexivity|].
      cbn [forallb List.length rev]. rewrite Ec, Hu, <- app_assoc.
      repeat split; [lia | exact Hk]. }
    destruct greedy.
    + destruct (if test c then _ else None) eqn:E.
      * apply Hmore. exact H.
      * apply (Hstop min). exact H.
    + destruct (match min with O => _ | S _ => None end) eqn:E.
      * apply (Hstop min). now rewrite <- H.
      * apply Hmore. exact H.
Qed.

Lemma matcher_str_inv (f : flags) (s : JSString) (k : cont) before after cap res :
  matcher f (str s) k {| consumed := before; rest := after; cap1 := cap |}
  = Some res ->
  exists r, after = s ++ r /\
    k {| consumed := rev s ++ before; rest := r; cap1 := cap |} = Some res.
Proof.
  intros H. destruct (prefix_dec s after) as [[r ->]|Hno].
  - exists r. split; [reflexivity|]. now rewrite matcher_str in H.
  - now rewrite matcher_str_fail in H.
Qed.

(** The text between the position where a group starts and a later one. *)
Lemma between_text (m before rest0 rest1 : JSString) (c0 c1 : option JSString) :
  between {| consumed := before; rest := rest0; cap1 := c0 |}
          {| consumed := rev m ++ before; rest := rest1; cap1 := c1 |}
  = m.
Proof. unfold between. cbn [consumed]. apply matched_text. Qed.

(** A match of a marker pattern: the marker, the captured text, the marker
    again. *)
Lemma delimited_match (f : flags) (d : JSString) (before after : JSString)
    (st : MatchState) :
  matcher f (Seq (str d) (Seq (Group (Rep 0 false Dot)) (str d)))
    (fun st => Some st) {| consumed := before; rest := after; cap1 := None |}
  = Some st ->
  exists cap r,
    after = d ++ cap ++ d ++ r /\
    forallb (atom_test f Dot) cap = true /\
    st = {| consumed := rev (d ++ cap ++ d) ++ before; rest := r;
            cap1 := Some cap |}.
Proof.
  cbn [matcher]. intros H.
  apply matcher_str_inv in H. destruct H as (r1 & -> & H).
  cbn [matcher consumed rest cap1] in H.
  apply rep_inv_test in H. destruct H as (cap & w & -> & Hcap & _ & H).
  cbn [consumed rest cap1] in H.
  apply matcher_str_inv in H. destruct H as (r & -> & H).
  injection H as <-. exists cap, r. split; [reflexivity|]. split; [exact Hcap|].
  rewrite between_text. f_equal.
  rewrite !rev_app_distr. now rewrite <- !app_assoc.
Qed.

Lemma bold_match (before after : JSString) (st : MatchState) :
  match_at Part001.re_bold before after = Some st ->
  exists cap r,
    after = lit "**" ++ cap ++ lit "**" ++ r /\
    st = {| consumed := rev (lit "**" ++ cap ++ lit "**") ++ before; rest := r;
            cap1 := Some cap |}.
Proof.
  intros H.
  apply (@delimited_match Part001.flags_g (lit "**") before after st) in H.
  destruct H as (cap & r & E & _ & Hst). now exists cap, r.
Qed.

Lemma italic_match (before after : JSString) (st : MatchState) :
  match_at Part001.re_italic before after = Some st ->
  exists cap r,
    after = [STAR] ++ cap ++ [STAR] ++ r /\
    st = {| consumed := rev ([STAR] ++ cap ++ [STAR]) ++ before; rest := r;
            cap1 := Some cap |}.
Proof.
  intros H.
  apply (@delimited_match Part001.flags_g [STAR] before after st) in H.
  destruct H as (cap & r & E & _ & Hst). now exists cap, r.
Qed.

Lemma code_match (before after : JSString) (st : MatchState) :
  match_at Part001.re_code before after = Some st ->
  exists cap r,
    after = [BACKTICK] ++ cap ++ [BACKTICK] ++ r /\
    st = {| consumed := rev ([BACKTICK] ++ cap ++ [BACKTICK]) ++ before;
            rest := r; cap1 := Some cap |}.
Proof.
  intros H.
  apply (@delimited_match Part001.flags_g [BACKTICK] before after st) in H.
  destruct H as (cap & r & E & _ & Hst). now exists cap, r.
Qed.

(** A match of the list-item pattern: white space, the star, white space,
    the captured text, up to the end of the line. *)
Lemma item_match (before after : JSString) (st : MatchState) :
  match_at Part001.re_item before after = Some st ->
  exists ws1 ws2 cap r,
    after = ws1 ++ STAR :: ws2 ++ cap ++ r /\
    forallb isSpace ws1 = true /\ forallb isSpace ws2 = true /\ ws2 <> [] /\
    forallb (fun c => negb (isLineTerminator c)) cap = true /\
    (r = [] \/ exists c r', r = c :: r' /\ isLineTerminator c = true) /\
    st = {| consumed := rev (ws1 ++ STAR :: ws2 ++ cap) ++ before; rest := r;
            cap1 := Some cap |}.
Proof.
  unfold match_at. cbn [Part001.re_item pattern fl matcher].
  destruct (at_bol _ _); [|discriminate]. cbn [consumed rest cap1].
  intros H. apply rep_inv_test in H.
  destruct H as (ws1 & w & -> & Hws1 & _ & H).
  cbn [consumed rest cap1] in H.
  destruct w as [|x w]; [discriminate|].
  destruct (N.eqb_spec x STAR) as [->|]; [|discriminate].
  apply rep_inv_test in H. destruct H as (ws2 & w2 & -> & Hws2 & Hmin & H).
  cbn [consumed rest cap1] in H.
  apply rep_inv_test in H. destruct H as (cap & r & -> & Hcap & _ & H).
  cbn [consumed rest cap1] in H.
  destruct (at_eol _ _) eqn:Eol; [|discriminate].
  injection H as <-. exists ws1, ws2, cap, r.
  split; [reflexivity|]. split; [exact Hws1|]. split; [exact Hws2|].
  split; [destruct ws2; [cbn in Hmin; lia | discriminate]|].
  split; [exact Hcap|]. split.
  - unfold at_eol in Eol. cbn [rest] in Eol.
    destruct r as [|c r']; [now left|]. right. exists c, r'.
    split; [reflexivity|]. now destruct (isLineTerminator c).
  - f_equal.
    + cbn [rev]. rewrite !rev_app_distr. cbn [rev].
      rewrite !rev_app_distr. now rewrite <- !app_assoc.
    + f_equal. unfold between. cbn [consumed].
      apply matched_text.
Qed.

Lemma items_match (before after : JSString) (st : MatchState) :
  match_at Part001.re_items before after = Some st ->
  exists mid r,
    after = lit "<li>" ++ mid ++ lit "</li>" ++ r /\
    st = {| consumed := rev (lit "<li>" ++ mid ++ lit "</li>") ++ before;
            rest := r; cap1 := Some (lit "<li>" ++ mid ++ lit "</li>") |}.
Proof.
  unfold match_at. cbn [Part001.re_items pattern fl matcher].
  intros H. apply matcher_str_inv in H. destruct H as (r1 & -> & H).
  cbn [matcher consumed rest cap1] in H.
  apply rep_inv_test in H. destruct H as (mid & w & -> & _ & _ & H).
  apply matcher_str_inv in H. destruct H as (r & -> & H).
  cbn [consumed rest cap1] in H. injection H as <-.
  exists mid, r. split; [reflexivity|].
  assert (E : rev (lit "</li>") ++ rev mid ++ rev (lit "<li>") ++ before
              = rev (lit "<li>" ++ mid ++ lit "</li>") ++ before).
  { rewrite !rev_app_distr. now rewrite <- !app_assoc. }
  match goal with
  | |- {| consumed := ?c; rest := _; cap1 := _ |} = _ =>
      replace c with (rev (lit "<li>" ++ mid ++ lit "</li>") ++ before)
        by (rewrite <- E; reflexivity)
  end.
  now rewrite between_text.
Qed.

Lemma blank_match (before after : JSString) (st : MatchState) :
  match_at Part001.re_blank before after = Some st ->
  exists r,
    after = LF :: LF :: r /\
    st = {| consumed := rev [LF; LF] ++ before; rest := r; cap1 := None |}.
Proof.
  unfold match_at. cbn [Part001.re_blank pattern fl].
  intros H. apply matcher_str_inv in H. destruct H as (r & -> & H).
  injection H as <-. now exists r.
Qed.

Lemma replace_all_skip (re : RegExp) (tpl : template) (u w : JSString) :
  forall before,
    replace_all re tpl (List.length u) before (u ++ w)
    = replace_all re tpl 0 (rev u ++ before) w.
Proof.
  induction u as [|c u IH]; intros before.
  - reflexivity.
  - cbn [List.length app replace_all rev]. rewrite IH.
    now rewrite <- app_assoc.
Qed.

Lemma matched_length_pos (m before r : JSString) (c : option JSString) :
  m <> [] ->
  matched_length before {| consumed := rev m ++ before; rest := r; cap1 := c |}
  <> 0.
Proof.
  intros Hm. unfold matched_length. cbn [consumed].
  rewrite length_app, length_rev.
  destruct m; [congruence | cbn [List.length]; lia].
Qed.

Section Pass.

Variable re : RegExp.
Variable tpl : template.

(** A match starts at a code unit that no tag holds and is not empty. *)
Hypothesis starts_outside_tags :
  forall before after st, match_at re before after = Some st ->
  exists c t, after = c :: t /\ is_tag_unit c = false /\
              matched_length before st <> 0.

(** In a tagged text, the replacement and what follows the match are
    tagged. *)
Hypothesis keeps_tags :
  forall before after st, match_at re before after = Some st ->
  tagged after -> tagged (expand tpl st) /\ tagged (rest st).

Lemma replace_all_units (l s : JSString) :
  forallb is_tag_unit l = true ->
  forall before,
    replace_all re tpl 0 before (l ++ s)
    = l ++ replace_all re tpl 0 (rev l ++ before) s.
Proof.
  induction l as [|c l IH]; intros Hl before; [reflexivity|].
  cbn [forallb] in Hl. apply andb_true_iff in Hl. destruct Hl as (Hc & Hl).
  cbn [app replace_all].
  destruct (match_at re before (c :: l ++ s)) as [st|] eqn:E.
  - apply starts_outside_tags in E.
    destruct E as (c' & t & E & Hc' & _). injection E as <- _. congruence.
  - rewrite (IH Hl). cbn [rev]. now rewrite <- app_assoc.
Qed.

Lemma replace_all_tagged :
  forall n after, List.length after <= n -> tagged after ->
  forall before, tagged (replace_all re tpl 0 before after).
Proof.
  assert (Hnil : forall before, tagged (replace_all re tpl 0 before [])).
  { intros before. cbn [replace_all].
    destruct (match_at re before []) as [st|] eqn:E; [|apply tagged_nil].
    apply starts_outside_tags in E. destruct E as (c & t & E & _). discriminate. }
  induction n as [|n IH]; intros after Hlen Hafter before.
  - destruct after; [apply Hnil | cbn in Hlen; lia].
  - destruct Hafter as [|c s Hc Hs|name s Hn Hs].
    + apply Hnil.
    + cbn [List.length] in Hlen. cbn [replace_all].
      destruct (match_at re before (c :: s)) as [st|] eqn:E.
      * destruct (@keeps_tags _ _ _ E) as (He & Hr); [now apply tagged_unit|].
        destruct (@starts_outside_tags _ _ _ E) as (_ & _ & _ & _ & Hlen').
        destruct (match_at_inv _ _ _ E) as (u & Hcons & Hu & _).
        unfold matched_length in *. rewrite Hcons, length_app in *.
        replace (List.length (rev u) + List.length before
                 - List.length before) with (List.length u) in *
          by (rewrite length_rev; lia).
        destruct u as [|c' u]; [now cbn in Hlen'|].
        cbn [app] in Hu. injection Hu as <- Hu. cbn [List.length].
        apply tagged_app; [exact He|].
        rewrite Hu, replace_all_skip. apply IH; [|exact Hr].
        rewrite Hu, length_app in Hlen. lia.
      * apply tagged_unit; [exact Hc|]. apply IH; [lia | exact Hs].
    + assert (Hl : 2 <= List.length (tag name))
        by (unfold tag; cbn [List.length]; rewrite length_app; cbn; lia).
      rewrite length_app in Hlen.
      rewrite replace_all_units.
      * apply tagged_tag; [exact Hn|]. apply IH; [lia | exact Hs].
      * apply forallb_forall. intros x Hx. now apply (@tag_units name).
Qed.

End Pass.

Lemma bold_tagged (html : JSString) :
  tagged html -> tagged (Part001.bold html).
Proof.
  intros H. unfold Part001.bold, replace.
  change (global (fl Part001.re_bold)) with true. cbv iota.
  apply replace_all_tagged with (n := List.length html); [| |lia|exact H].
  - intros before after st E. apply bold_match in E.
    destruct E as (cap & r & -> & ->).
    exists STAR, (STAR :: cap ++ lit "**" ++ r).
    split; [reflexivity|]. split; [reflexivity|].
    apply matched_length_pos. discriminate.
  - intros before after st E Hafter. apply bold_match in E.
    destruct E as (cap & r & -> & ->).
    cbn [expand flat_map cap1 rest]. rewrite app_nil_r.
    cbn [lit map list_ascii_of_string app] in Hafter.
    do 2 (apply tagged_drop in Hafter; [|reflexivity]).
    destruct (@tagged_split _ Hafter cap STAR (STAR :: r) eq_refl eq_refl)
      as (Hcap & Hr).
    apply tagged_drop in Hr; [|reflexivity].
    split; [|exact Hr].
    apply (@tagged_tag (lit "strong")); [cbn; tauto|].
    apply tagged_app; [exact Hcap|].
    apply (@tagged_one (lit "/strong")). cbn; tauto.
Qed.

Lemma marker_tagged (re : RegExp) (d : codeunit) (open close : JSString) :
  is_tag_unit d = false ->
  In open tag_names -> In close tag_names ->
  (forall before after st, match_at re before after = Some st ->
     exists cap r,
       after = [d] ++ cap ++ [d] ++ r /\
       st = {| consumed := rev ([d] ++ cap ++ [d]) ++ before; rest := r;
               cap1 := Some cap |}) ->
  forall html, tagged html ->
  tagged (replace_all re [Text (tag open); Dollar1; Text (tag close)] 0 [] html).
Proof.
  intros Hd Ho Hc Hm html H.
  apply replace_all_tagged with (n := List.length html); [| |lia|exact H].
  - intros before after st E. apply Hm in E.
    destruct E as (cap & r & -> & ->).
    exists d, (cap ++ [d] ++ r).
    split; [reflexivity|]. split; [exact Hd|].
    apply matched_length_pos. discriminate.
  - intros before after st E Hafter. apply Hm in E.
    destruct E as (cap & r & -> & ->).
    cbn [expand flat_map cap1 rest]. rewrite app_nil_r.
    cbn [app] in Hafter.
    apply tagged_drop in Hafter; [|exact Hd].
    destruct (@tagged_split _ Hafter cap d r eq_refl Hd) as (Hcap & Hr).
    split; [|exact Hr].
    apply tagged_tag; [exact Ho|].
    apply tagged_app; [exact Hcap|]. now apply tagged_one.
Qed.

Lemma italic_tagged (html : JSString) :
  tagged html -> tagged (Part001.italic html).
Proof.
  apply (@marker_tagged Part001.re_italic STAR (lit "em") (lit "/em"));
    [reflexivity | cbn; tauto | cbn; tauto |].
  intros before after st. apply italic_match.
Qed.

Lemma inlineCode_tagged (html : JSString) :
  tagged html -> tagged (Part001.inlineCode html).
Proof.
  apply (@marker_tagged Part001.re_code BACKTICK (lit "code") (lit "/code"));
    [reflexivity | cbn; tauto | cbn; tauto |].
  intros before after st. apply code_match.
Qed.

Lemma spaces_tagged (ws w : JSString) :
  forallb isSpace ws = true -> tagged (ws ++ w) -> tagged w.
Proof.
  induction ws as [|c ws IH]; intros Hws H; [exact H|].
  cbn [forallb] in Hws. apply andb_true_iff in Hws. destruct Hws as (Hc & Hws).
  apply IH; [exact Hws|].
  apply (@tagged_drop c); [now apply space_not_tag_unit | exact H].
Qed.

Lemma listItems_tagged (html : JSString) :
  tagged html -> tagged (Part001.listItems html).
Proof.
  intros H. unfold Part001.listItems, replace.
  change (global (fl Part001.re_item)) with true. cbv iota.
  apply replace_all_tagged with (n := List.length html); [| |lia|exact H].
  - intros before after st E. apply item_match in E.
    destruct E as (ws1 & ws2 & cap & r & -> & Hws1 & _ & _ & _ & _ & ->).
    assert (Hlen : matched_length before
              {| consumed := rev (ws1 ++ STAR :: ws2 ++ cap) ++ before;
                 rest := r; cap1 := Some cap |} <> 0).
    { apply matched_length_pos. destruct ws1; discriminate. }
    destruct ws1 as [|c ws1].
    + exists STAR, (ws2 ++ cap ++ r). split; [reflexivity|].
      split; [reflexivity | exact Hlen].
    + exists c, (ws1 ++ STAR :: ws2 ++ cap ++ r). split; [reflexivity|].
      cbn [forallb] in Hws1. apply andb_true_iff in Hws1.
      split; [apply space_not_tag_unit; tauto | exact Hlen].
  - intros before after st E Hafter. apply item_match in E.
    destruct E as (ws1 & ws2 & cap & r & -> & Hws1 & Hws2 & _ & _ & Hr & ->).
    cbn [expand flat_map cap1 rest]. rewrite app_nil_r.
    apply spaces_tagged in Hafter; [|exact Hws1].
    apply tagged_drop in Hafter; [|reflexivity].
    apply spaces_tagged in Hafter; [|exact Hws2].
    assert (Hboth : tagged cap /\ tagged r).
    { destruct Hr as [->|(c & r' & -> & Hc)].
      - rewrite app_nil_r in Hafter. split; [exact Hafter | apply tagged_nil].
      - apply terminator_not_tag_unit in Hc.
        destruct (@tagged_split _ Hafter cap c r' eq_refl Hc) as (Hcap & Hr').
        split; [exact Hcap|]. apply tagged_unit; [|exact Hr'].
        intros ->. discriminate. }
    destruct Hboth as (Hcap & Hr'). split; [|exact Hr'].
    apply (@tagged_tag (lit "li")); [cbn; tauto|].
    apply tagged_app; [exact Hcap|].
    apply (@tagged_one (lit "/li")). cbn; tauto.
Qed.

Lemma replace_first_no_angle (re : RegExp) (tpl : template) (l s : JSString) :
  (forall before after st, match_at re before after = Some st ->
     exists t, after = LT :: t) ->
  ~ In LT l ->
  forall before,
    replace_first re tpl before (l ++ s)
    = l ++ replace_first re tpl (rev l ++ before) s.
Proof.
  intros Hm. induction l as [|c l IH]; intros Hl before; [reflexivity|].
  rewrite replace_first_eq. cbn [app].
  destruct (match_at re before (c :: l ++ s)) as [st|] eqn:E.
  - apply Hm in E. destruct E as (t & E). injection E as -> _.
    exfalso. apply Hl. now left.
  - rewrite IH by (intros Hin; apply Hl; now right).
    cbn [rev]. now rewrite <- app_assoc.
Qed.

Lemma listWrap_tagged (html : JSString) :
  tagged html -> tagged (Part001.listWrap html).
Proof.
  intros H. unfold Part001.listWrap, replace.
  change (global (fl Part001.re_items)) with false. cbv iota.
  generalize (@nil codeunit) as before.
  assert (Hfirst : forall before after st,
    match_at Part001.re_items before after = Some st ->
    exists t, after = LT :: t).
  { intros before after st E. apply items_match in E.
    destruct E as (mid & r & -> & _). eexists. reflexivity. }
  assert (Hmatch : forall before after st,
    match_at Part001.re_items before after = Some st -> tagged after ->
    tagged (expand [Text (lit "<ul>"); Dollar1; Text (lit "</ul>")] st
            ++ rest st)).
  { intros before after st E Hafter. apply items_match in E.
    destruct E as (mid & r & -> & ->).
    cbn [expand flat_map cap1 rest]. rewrite app_nil_r.
    apply (@tagged_after_tag (lit "li")) in Hafter; [|cbn; tauto].
    destruct (@tagged_split_open _ Hafter mid (lit "/li>" ++ r) eq_refl)
      as (Hmid & Hr).
    apply (@tagged_after_tag (lit "/li")) in Hr; [|cbn; tauto].
    rewrite <- !app_assoc.
    change (tagged (tag (lit "ul") ++ tag (lit "li") ++ mid
                    ++ tag (lit "/li") ++ tag (lit "/ul") ++ r)).
    apply tagged_tag; [cbn; tauto|].
    apply tagged_tag; [cbn; tauto|].
    apply tagged_app; [exact Hmid|].
    apply tagged_tag; [cbn; tauto|].
    apply tagged_tag; [cbn; tauto | exact Hr]. }
  induction H as [|c s Hc Hs IH|name s Hn Hs IH]; intros before;
    rewrite replace_first_eq.
  - destruct (match_at _ before []) as [st|] eqn:E; [|apply tagged_nil].
    apply Hfirst in E. destruct E as (t & E). discriminate.
  - destruct (match_at _ before (c :: s)) as [st|] eqn:E.
    + apply Hfirst in E. destruct E as (t & E). congruence.
    + apply tagged_unit; [exact Hc | apply IH].
  - destruct (match_at _ before (tag name ++ s)) as [st|] eqn:E.
    + apply (Hmatch _ _ _ E). now apply tagged_tag.
    + unfold tag. cbn [app].
      rewrite (@replace_first_no_angle _ _ (name ++ [GT]) s Hfirst).
      * apply (@tagged_tag name); [exact Hn | apply IH].
      * destruct (name_no_angle Hn) as (Hl & _). intros Hin.
        apply in_app_or in Hin. destruct Hin as [Hin|[Hin|[]]];
          [tauto | discriminate].
Qed.

Lemma paragraphs_tagged (html : JSString) :
  tagged html -> tagged (Part001.paragraphs html).
Proof.
  intros H. unfold Part001.paragraphs, replace.
  change (global (fl Part001.re_blank)) with true. cbv iota.
  apply replace_all_tagged with (n := List.length html); [| |lia|exact H].
  - intros before after st E. apply blank_match in E.
    destruct E as (r & -> & ->). exists LF, (LF :: r).
    split; [reflexivity|]. split; [reflexivity|].
    apply (@matched_length_pos [LF; LF]). discriminate.
  - intros before after st E Hafter. apply blank_match in E.
    destruct E as (r & -> & ->).
    cbn [expand flat_map rest]. rewrite app_nil_r.
    do 2 (apply tagged_drop in Hafter; [|reflexivity]).
    split; [|exact Hafter].
    apply (@tagged_tag (lit "/p") (lit "<p>")); [cbn; tauto|].
    apply (@tagged_one (lit "p")). cbn; tauto.
Qed.

(** X11.  Whatever the message, every opening angle bracket of the result of
    [renderMarkdown] begins one of the twelve tags that the renderer itself
    writes (p, strong, em, code, li, ul and their closing tags): the result
    is a sequence of code units other than the opening angle bracket and of
    such tags, so markup typed in a message never becomes an element of the
    page. *)
Theorem renderMarkdown_only_own_tags (text : JSString) :
  tagged (Part001.renderMarkdown text) /\
  (forall a b, Part001.renderMarkdown text = a ++ LT :: b ->
     exists name r, In name tag_names /\ b = name ++ GT :: r).
Proof.
  assert (H : tagged (Part001.renderMarkdown text)).
  { unfold Part001.renderMarkdown. cbv zeta.
    rewrite codeBlocks_never_matches.
    apply (@tagged_tag (lit "p")); [cbn; tauto|].
    apply tagged_app; [|apply (@tagged_one (lit "/p")); cbn; tauto].
    apply paragraphs_tagged, listWrap_tagged, listItems_tagged,
      inlineCode_tagged, italic_tagged, bold_tagged, tagged_no_angle.
    apply escapeHtml_no_angle. }
  split; [exact H|]. intros a b E. rewrite E in H.
  destruct (@tagged_split_open _ H a b eq_refl) as (_ & Hb).
  apply tagged_open_inv in Hb. destruct Hb as (name & r & Hn & Eb & _).
  now exists name, r.
Qed.

Lemma renderMarkdown_only_own_tags_witness :
  Part001.renderMarkdown (lit "<script>*x*")
  = lit "<p>&lt;script&gt;" ++ LT :: lit "em>x</em></p>" /\
  exists name r, In name tag_names /\ lit "em>x</em></p>" = name ++ GT :: r.
Proof.
  split; [vm_compute; reflexivity|].
  apply (proj2 (renderMarkdown_only_own_tags (lit "<script>*x*"))
           (lit "<p>&lt;script&gt;")).
  vm_compute. reflexivity.
Defined.

(** ** Inline markers *)

Lemma rep_lazy_first (test : codeunit -> bool) (k : cont) cap X w res :
  forall before,
    forallb test X = true ->
    (forall u c v, X = u ++ c :: v ->
       k {| consumed := rev u ++ before; rest := c :: v ++ w; cap1 := cap |}
       = None) ->
    k {| consumed := rev X ++ before; rest := w; cap1 := cap |} = Some res ->
    rep test false k 0 cap before (X ++ w) = Some res.
Proof.
  induction X as [|c X IH]; intros before Ht Hno Hk.
  - cbn [app rev] in *. destruct w; cbn [rep]; now rewrite Hk.
  - cbn [forallb] in Ht. apply andb_true_iff in Ht. destruct Ht as (Hc & Ht).
    cbn [app rep pred].
    assert (Hhere := Hno [] c X eq_refl). cbn [rev app] in Hhere.
    rewrite Hhere, Hc. apply IH; [exact Ht | |].
    + intros u c' v ->. specialize (Hno (c :: u) c' v eq_refl).
      cbn [rev] in Hno. now rewrite <- app_assoc in Hno.
    + cbn [rev] in Hk. now rewrite <- app_assoc in Hk.
Qed.

(** A marker, a text of one line without the marker's first unit, the
    marker again: the pattern matches exactly that. *)
Lemma delimited_match_intro (f : flags) (d0 : codeunit) (d' X Q before : JSString) :
  ~ In d0 X ->
  forallb (atom_test f Dot) X = true ->
  matcher f (Seq (str (d0 :: d')) (Seq (Group (Rep 0 false Dot)) (str (d0 :: d'))))
    (fun st => Some st)
    {| consumed := before; rest := (d0 :: d') ++ X ++ (d0 :: d') ++ Q;
       cap1 := None |}
  = Some {| consumed := rev ((d0 :: d') ++ X ++ (d0 :: d')) ++ before; rest := Q;
            cap1 := Some X |}.
Proof.
  intros Hno Ht. cbn [matcher]. rewrite matcher_str.
  cbn [matcher consumed rest cap1].
  apply rep_lazy_first; [exact Ht | |].
  - intros u c v ->. cbn [consumed rest cap1 str matcher].
    destruct (N.eqb_spec c d0) as [->|_]; [|reflexivity].
    exfalso. apply Hno, in_or_app. right. now left.
  - cbn [consumed rest cap1]. rewrite matcher_str. rewrite between_text.
    f_equal. f_equal. rewrite !rev_app_distr. now rewrite <- !app_assoc.
Qed.

Lemma replace_all_pass_over (re : RegExp) (tpl : template) (d0 : codeunit)
    (P s : JSString) :
  (forall before after st, match_at re before after = Some st ->
     exists t, after = d0 :: t) ->
  ~ In d0 P ->
  forall before,
    replace_all re tpl 0 before (P ++ s)
    = P ++ replace_all re tpl 0 (rev P ++ before) s.
Proof.
  intros Hfirst. induction P as [|c P IH]; intros HP before; [reflexivity|].
  cbn [app replace_all].
  destruct (match_at re before (c :: P ++ s)) as [st|] eqn:E.
  - apply Hfirst in E. destruct E as (t & E). injection E as -> _.
    exfalso. apply HP. now left.
  - rewrite IH by (intros Hin; apply HP; now right).
    cbn [rev]. now rewrite <- app_assoc.
Qed.

(** A global replace over a text with one match: what is before and after
    the match is kept, the match is replaced. *)
Lemma replace_all_one (re : RegExp) (tpl : template) (d0 : codeunit)
    (P m Q out : JSString) :
  (forall before after st, match_at re before after = Some st ->
     exists t, after = d0 :: t) ->
  ~ In d0 P -> ~ In d0 Q -> m <> [] ->
  (forall before, exists st,
     match_at re before (m ++ Q) = Some st /\
     consumed st = rev m ++ before /\ expand tpl st = out) ->
  replace_all re tpl 0 [] (P ++ m ++ Q) = P ++ out ++ Q.
Proof.
  intros Hfirst HP HQ Hm Hmatch.
  rewrite (@replace_all_pass_over re tpl d0 P (m ++ Q) Hfirst HP).
  f_equal. destruct m as [|c m]; [congruence|].
  destruct (Hmatch (rev P ++ [])) as (st & E & Hcons & Hout).
  cbn [app replace_all]. cbn [app] in E. rewrite E, Hout. f_equal.
  unfold matched_length. rewrite Hcons, length_app, length_rev.
  cbn [List.length].
  replace (S (List.length m) + List.length (rev P ++ [])
           - List.length (rev P ++ [])) with (S (List.length m)) by lia.
  rewrite replace_all_skip.
  rewrite <- (app_nil_r Q) at 1.
  rewrite (@replace_all_pass_over re tpl d0 Q [] Hfirst HQ).
  cbn [replace_all].
  destruct (match_at re _ []) as [st'|] eqn:E'; [|now rewrite app_nil_r].
  apply Hfirst in E'. destruct E' as (t & E'). discriminate.
Qed.

Lemma includes_skip (n0 : codeunit) (n t s : JSString) :
  ~ In n0 t -> includes (n0 :: n) (t ++ s) = includes (n0 :: n) s.
Proof.
  induction t as [|x t IH]; intros Hno; [reflexivity|].
  cbn [app includes starts_with].
  destruct (N.eqb_spec n0 x) as [->|_]; [exfalso; apply Hno; now left|].
  cbn [andb orb]. apply IH. intros Hin. apply Hno. now right.
Qed.

Lemma blank_app (a b : JSString) :
  includes [LF; LF] a = false -> includes [LF; LF] b = false ->
  starts_with [LF] b = false ->
  includes [LF; LF] (a ++ b) = false.
Proof.
  intros Ha Hb Hs. induction a as [|x a IH]; [exact Hb|].
  cbn [includes] in Ha. apply orb_false_iff in Ha. destruct Ha as (Hx & Ha).
  cbn [app includes]. rewrite (IH Ha), orb_false_r.
  cbn [starts_with] in *. destruct (LF =? x)%N; [|reflexivity]. cbn [andb] in *.
  destruct a as [|y a]; [|exact Hx].
  cbn [app]. destruct b as [|z b]; [reflexivity|].
  cbn [starts_with] in Hs. now rewrite andb_true_r in *.
Qed.

Lemma one_line_no_LF (s : JSString) :
  forallb (fun c => negb (isLineTerminator c)) s = true -> ~ In LF s.
Proof.
  intros H Hin. rewrite forallb_forall in H. now specialize (H LF Hin).
Qed.

(** What the passes after a marker's own find in the marked text:
    nothing. *)
Lemma marked_is_quiet (open close P X Q : JSString) :
  (forall s, In s [open; close] ->
     ~ In STAR s /\ ~ In BACKTICK s /\ ~ In LT s /\ ~ In LF s /\
     starts_with (lit "l") s = false) ->
  (forall s, In s [P; X; Q] -> ~ In STAR s /\ ~ In BACKTICK s /\ ~ In LT s) ->
  ~ In LF X ->
  includes [LF; LF] P = false -> includes [LF; LF] Q = false ->
  let h := P ++ tag open ++ X ++ tag close ++ Q in
  ~ In STAR h /\ ~ In BACKTICK h /\
  includes (lit "<l") h = false /\ includes [LF; LF] h = false.
Proof.
  intros Htags Htexts HX HP HQ h.
  destruct (Htags open) as (Ho1 & Ho2 & Ho3 & Ho4 & Ho5); [cbn; tauto|].
  destruct (Htags close) as (Hc1 & Hc2 & Hc3 & Hc4 & Hc5); [cbn; tauto|].
  destruct (Htexts P) as (HP1 & HP2 & HP3); [cbn; tauto|].
  destruct (Htexts X) as (HX1 & HX2 & HX3); [cbn; tauto|].
  destruct (Htexts Q) as (HQ1 & HQ2 & HQ3); [cbn; tauto|].
  assert (Hin : forall c, c <> LT -> c <> GT ->
            ~ In c open -> ~ In c close -> ~ In c P -> ~ In c X -> ~ In c Q ->
            ~ In c h).
  { intros c H1 H2 H3 H4 H5 H6 H7 H. subst h. unfold tag in H.
    rewrite !in_app_iff in H. cbn [In] in H. rewrite !in_app_iff in H.
    cbn [In] in H. intuition congruence. }
  assert (Hopen : forall name s,
            ~ In LT name -> starts_with (lit "l") name = false ->
            includes (lit "<l") (tag name ++ s) = includes (lit "<l") s).
  { intros name s H1 H2. unfold tag. cbn [app].
    change (lit "<l") with [LT; 108%N]. cbn [includes starts_with].
    rewrite N.eqb_refl. cbn [andb].
    assert (E : starts_with [108%N] ((name ++ [GT]) ++ s) = false).
    { destruct name as [|x name]; [reflexivity|].
      change (lit "l") with [108%N] in H2.
      cbn [app starts_with] in *. rewrite andb_true_r in *. exact H2. }
    cbn [starts_with] in E. rewrite E. cbn [orb]. apply includes_skip.
    intros H. apply in_app_or in H. destruct H as [H|[H|[]]];
      [tauto | discriminate]. }
  assert (Hblank : forall name s,
            ~ In LF name ->
            includes [LF; LF] (tag name ++ s) = includes [LF; LF] s).
  { intros name s H1. apply includes_two_skip; [|discriminate].
    unfold tag. intros [H|H]; [discriminate|].
    apply in_app_or in H. destruct H as [H|[H|[]]]; [tauto | discriminate]. }
  split; [apply Hin; try assumption; discriminate|].
  split; [apply Hin; try assumption; discriminate|].
  split.
  - subst h. change (lit "<l") with (LT :: lit "l").
    rewrite includes_skip by exact HP3.
    change (LT :: lit "l") with (lit "<l").
    rewrite Hopen by assumption.
    change (lit "<l") with (LT :: lit "l").
    rewrite includes_skip by exact HX3.
    change (LT :: lit "l") with (lit "<l").
    rewrite Hopen by assumption.
    change (lit "<l") with (LT :: lit "l").
    rewrite <- (app_nil_r Q), includes_skip by exact HQ3. reflexivity.
  - subst h. apply blank_app; [exact HP | | reflexivity].
    rewrite Hblank by assumption.
    assert (E : includes [LF; LF] (X ++ tag close ++ Q)
                = includes [LF; LF] (tag close ++ Q)).
    { destruct X as [|x X]; [reflexivity|].
      apply includes_two_skip; [exact HX | discriminate]. }
    rewrite E, Hblank by assumption. exact HQ.
Qed.

Lemma stars_app (a b : JSString) : stars (a ++ b) = stars a + stars b.
Proof. apply count_occ_app. Qed.

Lemma stars_absent (s : JSString) : ~ In STAR s -> stars s = 0.
Proof. apply count_occ_not_In. Qed.

(** The bold pattern needs four asterisks. *)
Lemma bold_id (html : JSString) :
  stars html < 4 -> Part001.bold html = html.
Proof.
  intros H. apply replace_all_id. intros b u w ->.
  destruct (match_at Part001.re_bold b w) as [st|] eqn:E; [|reflexivity].
  apply bold_match in E. destruct E as (cap & r & -> & _).
  rewrite !stars_app in H. change (stars (lit "**")) with 2 in H. lia.
Qed.

Lemma italic_id (html : JSString) :
  ~ In STAR html -> Part001.italic html = html.
Proof.
  intros Hs. apply replace_all_id. intros b u w E. apply italic_needs_star.
  eapply not_in_suffix; [exact Hs | exact E].
Qed.

Lemma inlineCode_id (html : JSString) :
  ~ In BACKTICK html -> Part001.inlineCode html = html.
Proof.
  intros Ht. apply replace_all_id. intros b u w E. apply code_needs_backtick.
  eapply not_in_suffix; [exact Ht | exact E].
Qed.

Lemma listItems_id (html : JSString) :
  ~ In STAR html -> Part001.listItems html = html.
Proof.
  intros Hs. apply replace_all_id. intros b u w E. apply item_needs_star.
  eapply not_in_suffix; [exact Hs | exact E].
Qed.

Lemma listWrap_id (html : JSString) :
  includes (lit "<l") html = false -> Part001.listWrap html = html.
Proof.
  intros H. unfold Part001.listWrap, replace.
  change (global (fl Part001.re_items)) with false. cbv iota.
  apply replace_first_items_none. intros a b c E.
  apply (@includes_false _ _ H a (lit "i>" ++ b ++ lit "</li>" ++ c)).
  exact E.
Qed.

Lemma codeBlocks_id (html : JSString) :
  ~ In BACKTICK html -> Part001.codeBlocks html = html.
Proof.
  intros Ht. apply replace_all_id. intros b u w E. apply fence_needs_backtick.
  eapply not_in_suffix; [exact Ht | exact E].
Qed.

Lemma paragraphs_id (html : JSString) :
  includes [LF; LF] html = false -> Part001.paragraphs html = html.
Proof.
  intros Hb. apply replace_all_id. intros b u w E. apply blank_needs_two.
  apply includes_starts. apply (includes_suffix _ u). now rewrite <- E.
Qed.

(** After the pass of a marker, the later passes leave the text alone. *)
Lemma later_passes_id (html : JSString) :
  ~ In STAR html -> ~ In BACKTICK html ->
  includes (lit "<l") html = false -> includes [LF; LF] html = false ->
  Part001.paragraphs (Part001.codeBlocks (Part001.listWrap
    (Part001.listItems (Part001.inlineCode (Part001.italic html))))) = html.
Proof.
  intros Hs Ht Hl Hb.
  now rewrite italic_id, inlineCode_id, listItems_id, listWrap_id,
    codeBlocks_id, paragraphs_id.
Qed.

Lemma escaped_plain (s : JSString) :
  plain s ->
  (~ In STAR (Part001.escapeHtml s) /\ ~ In BACKTICK (Part001.escapeHtml s) /\
   ~ In LT (Part001.escapeHtml s)) /\
  includes [LF; LF] (Part001.escapeHtml s) = false.
Proof.
  intros (Hs & Ht & Hb). split; [split; [|split]|].
  - intros H. apply escapeHtml_units_from in H. destruct H as [H|H]; [tauto|].
    cbn in H. intuition discriminate.
  - intros H. apply escapeHtml_units_from in H. destruct H as [H|H]; [tauto|].
    cbn in H. intuition discriminate.
  - apply escapeHtml_no_angle.
  - now rewrite escapeHtml_escape_string, escape_no_blank_line.
Qed.

Lemma escaped_one_line (s : JSString) :
  one_line s ->
  (~ In STAR (Part001.escapeHtml s) /\ ~ In BACKTICK (Part001.escapeHtml s) /\
   ~ In LT (Part001.escapeHtml s)) /\
  forallb (fun c => negb (isLineTerminator c)) (Part001.escapeHtml s) = true.
Proof.
  intros (Hs & Ht & Hl). split; [split; [|split]|].
  - intros H. apply escapeHtml_units_from in H. destruct H as [H|H]; [tauto|].
    cbn in H. intuition discriminate.
  - intros H. apply escapeHtml_units_from in H. destruct H as [H|H]; [tauto|].
    cbn in H. intuition discriminate.
  - apply escapeHtml_no_angle.
  - apply forallb_forall. intros x Hx.
    apply escapeHtml_units_from in Hx. destruct Hx as [Hx|Hx].
    + rewrite forallb_forall in Hl. now apply Hl.
    + cbn in Hx.
      repeat (destruct Hx as [<-|Hx]; [reflexivity|]). destruct Hx.
Qed.

(** The pass of a marker over a text that holds the marker once around a
    text of one line. *)
Lemma marker_pass (re : RegExp) (d0 : codeunit) (d' open close P X Q : JSString) :
  (forall before after,
     match_at re before after
     = matcher Part001.flags_g
         (Seq (str (d0 :: d')) (Seq (Group (Rep 0 false Dot)) (str (d0 :: d'))))
         (fun st => Some st)
         {| consumed := before; rest := after; cap1 := None |}) ->
  ~ In d0 P -> ~ In d0 X -> ~ In d0 Q ->
  forallb (fun c => negb (isLineTerminator c)) X = true ->
  replace_all re [Text (tag open); Dollar1; Text (tag close)] 0 []
    (P ++ (d0 :: d') ++ X ++ (d0 :: d') ++ Q)
  = P ++ tag open ++ X ++ tag close ++ Q.
Proof.
  intros Hre HP HX HQ Hline.
  replace (P ++ (d0 :: d') ++ X ++ (d0 :: d') ++ Q)
    with (P ++ ((d0 :: d') ++ X ++ (d0 :: d')) ++ Q)
    by (now rewrite <- !app_assoc).
  rewrite (@replace_all_one re _ d0 P _ Q (tag open ++ X ++ tag close)).
  - now rewrite <- !app_assoc.
  - intros before after st E. rewrite Hre in E. apply delimited_match in E.
    destruct E as (cap & r & -> & _). eexists. reflexivity.
  - exact HP.
  - exact HQ.
  - discriminate.
  - intros before. eexists. rewrite Hre. rewrite <- !app_assoc.
    rewrite delimited_match_intro; [| exact HX | exact Hline].
    split; [reflexivity|]. cbn [consumed cap1 expand flat_map].
    split; [reflexivity|]. now rewrite app_nil_r.
Qed.

(** X12.  The three inline markers.  Around a text of one line that holds no
    asterisk and no backtick, with plain text before and after, two
    asterisks on each side give a strong element, one asterisk on each side
    an em element, and one backtick on each side a code element; the element
    holds the escaped text, and the texts before and after are escaped and
    otherwise kept, all inside one paragraph. *)
Theorem inline_markers (pre x post : JSString) :
  plain pre -> one_line x -> plain post ->
  Part001.renderMarkdown (pre ++ lit "**" ++ x ++ lit "**" ++ post)
  = lit "<p>" ++ Part001.escapeHtml pre ++ lit "<strong>"
    ++ Part001.escapeHtml x ++ lit "</strong>" ++ Part001.escapeHtml post
    ++ lit "</p>" /\
  Part001.renderMarkdown (pre ++ lit "*" ++ x ++ lit "*" ++ post)
  = lit "<p>" ++ Part001.escapeHtml pre ++ lit "<em>"
    ++ Part001.escapeHtml x ++ lit "</em>" ++ Part001.escapeHtml post
    ++ lit "</p>" /\
  Part001.renderMarkdown (pre ++ lit "`" ++ x ++ lit "`" ++ post)
  = lit "<p>" ++ Part001.escapeHtml pre ++ lit "<code>"
    ++ Part001.escapeHtml x ++ lit "</code>" ++ Part001.escapeHtml post
    ++ lit "</p>".
Proof.
  intros Hpre Hx Hpost.
  destruct (escaped_plain Hpre) as ((HP1 & HP2 & HP3) & HP4).
  destruct (escaped_one_line Hx) as ((HX1 & HX2 & HX3) & HX4).
  destruct (escaped_plain Hpost) as ((HQ1 & HQ2 & HQ3) & HQ4).
  assert (HXlf := one_line_no_LF _ HX4).
  unfold Part001.renderMarkdown. cbv zeta. rewrite !escapeHtml_app.
  set (P := Part001.escapeHtml pre) in *.
  set (X := Part001.escapeHtml x) in *.
  set (Q := Part001.escapeHtml post) in *.
  assert (Htexts : forall s, In s [P; X; Q] ->
            ~ In STAR s /\ ~ In BACKTICK s /\ ~ In LT s).
  { intros s [<-|[<-|[<-|[]]]]; tauto. }
  assert (Hquiet : forall open close,
    (forall s, In s [open; close] ->
       ~ In STAR s /\ ~ In BACKTICK s /\ ~ In LT s /\ ~ In LF s /\
       starts_with (lit "l") s = false) ->
    let h := P ++ tag open ++ X ++ tag close ++ Q in
    Part001.paragraphs (Part001.codeBlocks (Part001.listWrap
      (Part001.listItems h))) = h /\
    Part001.inlineCode h = h /\ Part001.italic h = h).
  { intros open close Htags h.
    destruct (@marked_is_quiet open close P X Q Htags Htexts HXlf HP4 HQ4)
      as (Hs & Ht & Hl & Hb). fold h in Hs, Ht, Hl, Hb.
    rewrite listItems_id, listWrap_id, codeBlocks_id, paragraphs_id,
      inlineCode_id, italic_id by assumption.
    now repeat split. }
  split; [|split].
  - change (Part001.escapeHtml (lit "**")) with [STAR; STAR].
    assert (E : Part001.bold (P ++ [STAR; STAR] ++ X ++ [STAR; STAR] ++ Q)
                = P ++ tag (lit "strong") ++ X ++ tag (lit "/strong") ++ Q).
    { exact (@marker_pass Part001.re_bold STAR [STAR] (lit "strong")
               (lit "/strong") P X Q (fun _ _ => eq_refl) HP1 HX1 HQ1 HX4). }
    rewrite E.
    destruct (Hquiet (lit "strong") (lit "/strong")) as (E1 & E2 & E3).
    { intros s [<-|[<-|[]]];
        (split; [|split; [|split; [|split]]]);
        try reflexivity; cbn; intuition discriminate. }
    rewrite E3, E2, E1. rewrite <- !app_assoc. reflexivity.
  - change (Part001.escapeHtml (lit "*")) with [STAR].
    rewrite bold_id.
    + assert (E : Part001.italic (P ++ [STAR] ++ X ++ [STAR] ++ Q)
                  = P ++ tag (lit "em") ++ X ++ tag (lit "/em") ++ Q).
      { exact (@marker_pass Part001.re_italic STAR [] (lit "em")
                 (lit "/em") P X Q (fun _ _ => eq_refl) HP1 HX1 HQ1 HX4). }
      rewrite E.
      destruct (Hquiet (lit "em") (lit "/em")) as (E1 & E2 & E3).
      { intros s [<-|[<-|[]]];
        (split; [|split; [|split; [|split]]]);
        try reflexivity; cbn; intuition discriminate. }
      rewrite E2, E1. rewrite <- !app_assoc. reflexivity.
    + rewrite !stars_app, (@stars_absent _ HP1), (@stars_absent _ HX1),
        (@stars_absent _ HQ1).
      change (stars [STAR]) with 1. lia.
  - change (Part001.escapeHtml (lit "`")) with [BACKTICK].
    rewrite bold_id.
    + rewrite italic_id.
      * assert (E : Part001.inlineCode
                      (P ++ [BACKTICK] ++ X ++ [BACKTICK] ++ Q)
                    = P ++ tag (lit "code") ++ X ++ tag (lit "/code") ++ Q).
        { exact (@marker_pass Part001.re_code BACKTICK [] (lit "code")
                   (lit "/code") P X Q (fun _ _ => eq_refl) HP2 HX2 HQ2 HX4). }
        rewrite E.
        destruct (Hquiet (lit "code") (lit "/code")) as (E1 & E2 & E3).
        { intros s [<-|[<-|[]]];
        (split; [|split; [|split; [|split]]]);
        try reflexivity; cbn; intuition discriminate. }
        rewrite E1. rewrite <- !app_assoc. reflexivity.
      * rewrite !in_app_iff. cbn [In]. intuition discriminate.
    + rewrite !stars_app, (@stars_absent _ HP1), (@stars_absent _ HX1),
        (@stars_absent _ HQ1).
      change (stars [BACKTICK]) with 0. lia.
Qed.

(** X12, around a text with angle brackets. *)
Lemma inline_markers_witness :
  Part001.renderMarkdown (lit "a " ++ lit "**" ++ lit "<b>" ++ lit "**" ++ lit " c")
  = lit "<p>a <strong>&lt;b&gt;</strong> c</p>" /\
  Part001.renderMarkdown (lit "a " ++ lit "*" ++ lit "<b>" ++ lit "*" ++ lit " c")
  = lit "<p>a <em>&lt;b&gt;</em> c</p>" /\
  Part001.renderMarkdown (lit "a " ++ lit "`" ++ lit "<b>" ++ lit "`" ++ lit " c")
  = lit "<p>a <code>&lt;b&gt;</code> c</p>".
Proof.
  apply (@inline_markers (lit "a ") (lit "<b>") (lit " c"));
    (split; [|split]); try reflexivity; vm_compute; intuition discriminate.
Defined.

(** ** Lists *)

Lemma one_star_skip (seen : bool) (l s : JSString) :
  ~ In STAR l -> ~ In LF l ->
  one_star_per_line seen (l ++ s) = one_star_per_line seen s.
Proof.
  induction l as [|c l IH]; intros Hs Hl; [reflexivity|].
  cbn [app one_star_per_line].
  destruct (N.eqb_spec c STAR) as [->|_]; [exfalso; apply Hs; now left|].
  destruct (N.eqb_spec c LF) as [->|_]; [exfalso; apply Hl; now left|].
  apply IH; intros Hin; [apply Hs | apply Hl]; now right.
Qed.

Lemma one_star_suffix (u w : JSString) :
  forall seen, one_star_per_line seen (u ++ w) = true ->
  exists seen', one_star_per_line seen' w = true.
Proof.
  induction u as [|c u IH]; intros seen H; [now exists seen|].
  cbn [app one_star_per_line] in H.
  destruct (c =? STAR)%N.
  - destruct seen; [discriminate | now apply (IH true)].
  - destruct (c =? LF)%N; [now apply (IH false) | now apply (IH seen)].
Qed.

Lemma one_star_then_newline (cap r : JSString) (seen : bool) :
  one_star_per_line seen (STAR :: cap ++ STAR :: r) = true -> In LF cap.
Proof.
  cbn [one_star_per_line]. rewrite N.eqb_refl.
  destruct seen; [discriminate|].
  induction cap as [|c cap IH]; cbn [app one_star_per_line].
  - rewrite N.eqb_refl. discriminate.
  - destruct (N.eqb_spec c STAR) as [->|_]; [discriminate|].
    destruct (N.eqb_spec c LF) as [->|_]; [intros _; now left|].
    intros H. right. now apply IH.
Qed.

(** With one asterisk per line at most, the bold and the italic pass find
    nothing. *)
Lemma bold_id_lines (html : JSString) :
  one_star_per_line false html = true -> Part001.bold html = html.
Proof.
  intros H. apply replace_all_id. intros b u w ->.
  destruct (match_at Part001.re_bold b w) as [st|] eqn:E; [|reflexivity].
  apply bold_match in E. destruct E as (cap & r & -> & _).
  apply one_star_suffix in H. destruct H as (seen & H).
  apply (@one_star_then_newline [] _ seen) in H. destruct H.
Qed.

Lemma italic_id_lines (html : JSString) :
  one_star_per_line false html = true -> Part001.italic html = html.
Proof.
  intros H. apply replace_all_id. intros b u w ->.
  destruct (match_at Part001.re_italic b w) as [st|] eqn:E; [|reflexivity].
  apply (@delimited_match Part001.flags_g [STAR] b w st) in E.
  destruct E as (cap & r & -> & Hcap & _).
  apply one_star_suffix in H. destruct H as (seen & H).
  apply one_star_then_newline in H.
  exfalso. revert H. now apply one_line_no_LF.
Qed.

(** A greedy repetition takes all the units that pass when the unit after
    them does not. *)
Lemma rep_greedy_all (test : codeunit -> bool) (k : cont) cap X w res :
  forall min before,
    forallb test X = true -> min <= List.length X ->
    match w with [] => True | c :: _ => test c = false end ->
    k {| consumed := rev X ++ before; rest := w; cap1 := cap |} = Some res ->
    rep test true k min cap before (X ++ w) = Some res.
Proof.
  induction X as [|c X IH]; intros min before Ht Hmin Hw Hk.
  - cbn [List.length] in Hmin. assert (min = 0) by lia. subst min.
    cbn [app rev] in *. destruct w as [|c t]; cbn [rep].
    + exact Hk.
    + now rewrite Hw.
  - cbn [forallb] in Ht. apply andb_true_iff in Ht. destruct Ht as (Hc & Ht).
    cbn [app rep]. rewrite Hc.
    rewrite (IH (pred min) (c :: before)); [reflexivity | exact Ht | | exact Hw |].
    + cbn [List.length] in Hmin. lia.
    + cbn [rev] in Hk. now rewrite <- app_assoc in Hk.
Qed.

(** The list-item pattern at the start of a line that holds an asterisk, a
    space and the text of an item. *)
Lemma item_match_intro (before I rest' : JSString) :
  line_start before ->
  forallb (fun c => negb (isLineTerminator c)) I = true ->
  (exists c t, I = c :: t /\ isSpace c = false) ->
  rest' = [] \/ (exists r, rest' = LF :: r) ->
  match_at Part001.re_item before (lit "* " ++ I ++ rest')
  = Some {| consumed := rev (lit "* " ++ I) ++ before; rest := rest';
            cap1 := Some I |}.
Proof.
  intros Hb Hl Hhead Hr.
  unfold match_at. cbn [Part001.re_item pattern fl matcher].
  assert (Ebol : at_bol Part001.flags_gm
            {| consumed := before; rest := lit "* " ++ I ++ rest';
               cap1 := None |} = true).
  { unfold at_bol. cbn [consumed].
    destruct Hb as [->|(x & b & -> & Hx)]; [reflexivity|].
    cbn [Part001.flags_gm multiline andb]. exact Hx. }
  rewrite Ebol. cbn [consumed rest cap1].
  change (lit "* " ++ I ++ rest') with (STAR :: [32%N] ++ I ++ rest').
  cbn [rep]. change (atom_test Part001.flags_gm Space STAR) with false.
  cbv iota. cbn [matcher rest consumed cap1]. rewrite N.eqb_refl.
  apply (@rep_greedy_all _ _ _ [32%N] (I ++ rest')); [reflexivity | cbn; lia | |].
  { destruct Hhead as (c & t & -> & Hc). exact Hc. }
  cbn [matcher consumed rest cap1 rev app].
  apply (@rep_greedy_all _ _ _ I rest'); [exact Hl | lia | |].
  - destruct Hr as [->|(r & ->)]; [exact Logic.I | reflexivity].
  - cbn [consumed rest cap1]. rewrite between_text.
    assert (Eeol : forall cs cp,
              at_eol Part001.flags_gm
                {| consumed := cs; rest := rest'; cap1 := cp |} = true).
    { intros cs cp. unfold at_eol. cbn [rest].
      destruct Hr as [->|(r & ->)]; reflexivity. }
    rewrite Eeol. f_equal. f_equal.
    change (lit "* " ++ I) with ([STAR; 32%N] ++ I).
    rewrite rev_app_distr. now rewrite <- app_assoc.
Qed.

Lemma replace_all_match_step (re : RegExp) (tpl : template) (m s before : JSString)
    (st : MatchState) :
  m <> [] ->
  match_at re before (m ++ s) = Some st ->
  consumed st = rev m ++ before ->
  replace_all re tpl 0 before (m ++ s)
  = expand tpl st ++ replace_all re tpl 0 (rev m ++ before) s.
Proof.
  intros Hm E Hcons. destruct m as [|c m]; [congruence|].
  cbn [app replace_all]. cbn [app] in E. rewrite E. f_equal.
  unfold matched_length. rewrite Hcons, length_app, length_rev.
  cbn [List.length].
  replace (S (List.length m) + List.length before - List.length before)
    with (S (List.length m)) by lia.
  rewrite replace_all_skip. cbn [rev]. now rewrite <- app_assoc.
Qed.

Lemma item_match_none_nil (before : JSString) :
  match_at Part001.re_item before [] = None.
Proof.
  destruct (match_at Part001.re_item before []) as [st|] eqn:E; [|reflexivity].
  apply item_match in E. destruct E as (ws1 & ws2 & cap & r & E & _).
  destruct ws1; discriminate.
Qed.

Lemma item_match_none_mid (c : codeunit) (before after : JSString) :
  isLineTerminator c = false ->
  match_at Part001.re_item (c :: before) after = None.
Proof.
  intros Hc. unfold match_at. cbn [Part001.re_item pattern fl matcher].
  unfold at_bol. cbn [consumed]. rewrite Hc. now rewrite andb_false_r.
Qed.

Lemma last_unit (I before : JSString) :
  I <> [] -> forallb (fun c => negb (isLineTerminator c)) I = true ->
  exists c b, rev I ++ before = c :: b /\ isLineTerminator c = false.
Proof.
  intros Hne Hl. destruct (rev I) as [|c b] eqn:E.
  - apply (f_equal (@rev codeunit)) in E. rewrite rev_involutive in E.
    cbn in E. congruence.
  - exists c, (b ++ before). split; [reflexivity|].
    rewrite forallb_forall in Hl. specialize (Hl c).
    apply negb_true_iff, Hl, in_rev. rewrite E. now left.
Qed.

(** The list-item pass over lines that are items: each line becomes an li
    element. *)
Lemma listItems_lines (Is : list JSString) :
  (forall I, In I Is ->
     forallb (fun c => negb (isLineTerminator c)) I = true /\
     exists c t, I = c :: t /\ isSpace c = false) ->
  forall before, line_start before ->
    replace_all Part001.re_item
      [Text (lit "<li>"); Dollar1; Text (lit "</li>")] 0 before
      (join [LF] (map (fun I => lit "* " ++ I) Is))
    = join [LF] (map (fun I => lit "<li>" ++ I ++ lit "</li>") Is).
Proof.
  induction Is as [|I Is IH]; intros H before Hb.
  - cbn [map join replace_all]. now rewrite item_match_none_nil.
  - destruct (H I) as (Hl & Hhead); [now left|].
    assert (Hne : I <> []) by (destruct Hhead as (c & t & -> & _); discriminate).
    destruct Is as [|I2 Is].
    + cbn [map join].
      replace (lit "* " ++ I) with ((lit "* " ++ I) ++ [])
        by apply app_nil_r.
      rewrite (@replace_all_match_step _ _ (lit "* " ++ I) [] before
                 {| consumed := rev (lit "* " ++ I) ++ before; rest := [];
                    cap1 := Some I |}).
      * cbn [expand flat_map cap1 replace_all].
        rewrite item_match_none_nil. now rewrite !app_nil_r.
      * discriminate.
      * rewrite <- app_assoc. apply item_match_intro; auto.
      * reflexivity.
    + change (join [LF] (map (fun I => lit "* " ++ I) (I :: I2 :: Is)))
        with ((lit "* " ++ I) ++ [LF]
              ++ join [LF] (map (fun I => lit "* " ++ I) (I2 :: Is))).
      change (join [LF] (map (fun I => lit "<li>" ++ I ++ lit "</li>")
                           (I :: I2 :: Is)))
        with ((lit "<li>" ++ I ++ lit "</li>") ++ [LF]
              ++ join [LF] (map (fun I => lit "<li>" ++ I ++ lit "</li>")
                              (I2 :: Is))).
      rewrite (@replace_all_match_step _ _ (lit "* " ++ I) _ before
                 {| consumed := rev (lit "* " ++ I) ++ before;
                    rest := [LF] ++ join [LF]
                              (map (fun I => lit "* " ++ I) (I2 :: Is));
                    cap1 := Some I |}).
      * cbn [expand flat_map cap1]. rewrite app_nil_r.
        rewrite <- !app_assoc. do 3 f_equal.
        cbn [app replace_all].
        change (lit "* " ++ I) with ([STAR; 32%N] ++ I).
        rewrite rev_app_distr, <- app_assoc.
        destruct (@last_unit I (rev [STAR; 32%N] ++ before) Hne Hl)
          as (c & b & -> & Hc).
        rewrite (@item_match_none_mid c b _ Hc). f_equal.
        apply IH.
        -- intros J HJ. apply H. now right.
        -- right. exists LF, (c :: b). now split.
      * discriminate.
      * rewrite <- app_assoc. apply item_match_intro; auto.
        right. eexists. reflexivity.
      * reflexivity.
Qed.

Lemma items_span (Is : list JSString) :
  Is <> [] ->
  exists mid,
    join [LF] (map (fun I => lit "<li>" ++ I ++ lit "</li>") Is)
    = lit "<li>" ++ mid ++ lit "</li>".
Proof.
  induction Is as [|I Is IH]; intros Hne; [congruence|].
  destruct Is as [|I2 Is].
  - exists I. reflexivity.
  - destruct IH as (mid & E); [discriminate|].
    change (join [LF] (map (fun I => lit "<li>" ++ I ++ lit "</li>")
                         (I :: I2 :: Is)))
      with ((lit "<li>" ++ I ++ lit "</li>") ++ [LF]
            ++ join [LF] (map (fun I => lit "<li>" ++ I ++ lit "</li>")
                            (I2 :: Is))).
    rewrite E. exists (I ++ lit "</li>" ++ [LF] ++ lit "<li>" ++ mid).
    now rewrite <- !app_assoc.
Qed.

Lemma listWrap_span (mid : JSString) :
  Part001.listWrap (lit "<li>" ++ mid ++ lit "</li>")
  = lit "<ul>" ++ (lit "<li>" ++ mid ++ lit "</li>") ++ lit "</ul>".
Proof.
  unfold Part001.listWrap, replace.
  change (global (fl Part001.re_items)) with false. cbv iota.
  assert (E := @replace_first_items [] mid []).
  cbn [app] in E. rewrite !app_nil_r in E. cbn [app]. rewrite E.
  - now rewrite <- !app_assoc.
  - intros a b Eq. apply (f_equal (@List.length codeunit)) in Eq.
    rewrite !length_app in Eq. cbn in Eq. lia.
  - intros a b Eq. apply (f_equal (@List.length codeunit)) in Eq.
    rewrite !length_app in Eq. cbn in Eq. lia.
Qed.

Lemma includes_absent (n0 : codeunit) (n s : JSString) :
  ~ In n0 s -> includes (n0 :: n) s = false.
Proof.
  intros H. rewrite <- (app_nil_r s), includes_skip by exact H. reflexivity.
Qed.

Lemma blank_join (lines : list JSString) :
  (forall l, In l lines -> ~ In LF l /\ l <> []) ->
  includes [LF; LF] (join [LF] lines) = false.
Proof.
  induction lines as [|l lines IH]; intros H; [reflexivity|].
  destruct (H l) as (Hl & Hne); [now left|].
  destruct lines as [|l2 lines].
  - cbn [join]. now apply includes_absent.
  - change (join [LF] (l :: l2 :: lines))
      with (l ++ [LF] ++ join [LF] (l2 :: lines)).
    rewrite includes_two_skip by assumption.
    cbn [app includes]. rewrite IH by (intros x Hx; apply H; now right).
    rewrite orb_false_r. cbn [starts_with]. rewrite N.eqb_refl. cbn [andb].
    destruct (H l2) as (Hl2 & Hne2); [right; now left|].
    destruct l2 as [|c l2]; [congruence|].
    destruct lines as [|l3 lines]; cbn [join app];
      destruct (N.eqb_spec LF c) as [<-|_]; try reflexivity;
      exfalso; apply Hl2; now left.
Qed.

Lemma escape_join (items : list JSString) :
  Part001.escapeHtml (join [LF] (map (fun i => lit "* " ++ i) items))
  = join [LF] (map (fun I => lit "* " ++ I) (map Part001.escapeHtml items)).
Proof.
  induction items as [|i items IH]; [reflexivity|].
  destruct items as [|i2 items].
  - cbn [map join]. now rewrite escapeHtml_app.
  - change (join [LF] (map (fun i => lit "* " ++ i) (i :: i2 :: items)))
      with ((lit "* " ++ i) ++ [LF]
            ++ join [LF] (map (fun i => lit "* " ++ i) (i2 :: items))).
    rewrite !escapeHtml_app, IH. reflexivity.
Qed.

Lemma escaped_head (s : JSString) :
  (exists c t, s = c :: t /\ isSpace c = false) ->
  exists c t, Part001.escapeHtml s = c :: t /\ isSpace c = false.
Proof.
  intros (c & t & -> & Hc). rewrite escapeHtml_escape_string.
  cbn [Dom.escape_string flat_map]. unfold Dom.escape_unit.
  destruct (c =? AMP)%N; [eexists; eexists; split; reflexivity|].
  destruct (N.eqb_spec c NBSP) as [->|_]; [discriminate|].
  destruct (c =? LT)%N; [eexists; eexists; split; reflexivity|].
  destruct (c =? GT)%N; [eexists; eexists; split; reflexivity|].
  exists c. eexists. split; [reflexivity | exact Hc].
Qed.

Lemma one_star_lines (Is : list JSString) :
  (forall I, In I Is -> ~ In STAR I /\ ~ In LF I) ->
  one_star_per_line false (join [LF] (map (fun I => lit "* " ++ I) Is)) = true.
Proof.
  induction Is as [|I Is IH]; intros H; [reflexivity|].
  destruct (H I) as (Hs & Hl); [now left|].
  destruct Is as [|I2 Is].
  - cbn [map join].
    replace (lit "* " ++ I) with (STAR :: 32%N :: I ++ [])
      by (now rewrite app_nil_r).
    cbn [one_star_per_line]. rewrite N.eqb_refl.
    change (32 =? STAR)%N with false. change (32 =? LF)%N with false. cbv iota.
    now rewrite one_star_skip.
  - change (join [LF] (map (fun I => lit "* " ++ I) (I :: I2 :: Is)))
      with (STAR :: 32%N :: I ++ LF
            :: join [LF] (map (fun I => lit "* " ++ I) (I2 :: Is))).
    cbn [one_star_per_line]. rewrite N.eqb_refl.
    change (32 =? STAR)%N with false. change (32 =? LF)%N with false. cbv iota.
    rewrite one_star_skip by assumption.
    cbn [one_star_per_line]. change (LF =? STAR)%N with false.
    rewrite N.eqb_refl. apply IH. intros J HJ. apply H. now right.
Qed.

(** X13.  A list.  Lines that each hold an asterisk, a space and the text of
    an item (one line, no asterisk, no backtick, not empty, not starting
    with white space) are rendered as one ul element inside the paragraph,
    with one li element per line holding the escaped text of the item, the
    newlines between the lines kept. *)
Theorem bullet_list (items : list JSString) :
  items <> [] -> (forall i, In i items -> item_text i) ->
  Part001.renderMarkdown (join [LF] (map (fun i => lit "* " ++ i) items))
  = lit "<p><ul>"
    ++ join [LF]
         (map (fun i => lit "<li>" ++ Part001.escapeHtml i ++ lit "</li>") items)
    ++ lit "</ul></p>".
Proof.
  intros Hne Hitems.
  unfold Part001.renderMarkdown. cbv zeta.
  rewrite codeBlocks_never_matches, escape_join.
  set (Is := map Part001.escapeHtml items).
  assert (HIs : forall I, In I Is ->
            (~ In STAR I /\ ~ In BACKTICK I /\ ~ In LT I) /\
            forallb (fun c => negb (isLineTerminator c)) I = true /\
            exists c t, I = c :: t /\ isSpace c = false).
  { intros I HI. apply in_map_iff in HI. destruct HI as (i & <- & Hi).
    destruct (Hitems i Hi) as (Hline & Hhead).
    destruct (escaped_one_line Hline) as (H1 & H2).
    split; [exact H1|]. split; [exact H2 | now apply escaped_head]. }
  set (html := join [LF] (map (fun I => lit "* " ++ I) Is)).
  assert (Hstar : one_star_per_line false html = true).
  { apply one_star_lines. intros I HI.
    destruct (HIs I HI) as ((Hs & _) & Hl & _).
    split; [exact Hs | now apply one_line_no_LF]. }
  assert (Htick : ~ In BACKTICK html).
  { subst html. clear Hstar. induction Is as [|I Is' IH]; [easy|].
    destruct (HIs I) as ((_ & Ht & _) & _); [now left|].
    assert (Hline : ~ In BACKTICK (lit "* " ++ I)).
    { intros [H|[H|H]]; [discriminate | discriminate | now apply Ht]. }
    destruct Is' as [|I2 Is'']; [exact Hline|].
    change (join [LF] (map (fun I => lit "* " ++ I) (I :: I2 :: Is'')))
      with ((lit "* " ++ I) ++ [LF]
            ++ join [LF] (map (fun I => lit "* " ++ I) (I2 :: Is''))).
    intros H. apply in_app_or in H. destruct H as [H|H]; [now apply Hline|].
    apply in_app_or in H. destruct H as [[H|[]]|H]; [discriminate|].
    revert H. apply IH. intros J HJ. apply HIs. now right. }
  rewrite bold_id_lines, italic_id_lines, inlineCode_id by assumption.
  assert (E : Part001.listItems html
              = join [LF] (map (fun I => lit "<li>" ++ I ++ lit "</li>") Is)).
  { apply listItems_lines; [|now left].
    intros I HI. destruct (HIs I HI) as (_ & H2). exact H2. }
  rewrite E.
  destruct (@items_span Is) as (mid & Emid).
  { subst Is. destruct items; [congruence | discriminate]. }
  rewrite Emid, listWrap_span, <- Emid.
  rewrite paragraphs_id.
  - subst Is. rewrite map_map. now rewrite <- !app_assoc.
  - change (lit "<ul>") with (tag (lit "ul")).
    rewrite includes_two_skip; [|cbn; intuition discriminate | discriminate].
    apply blank_app; [|reflexivity | reflexivity].
    apply blank_join. intros l Hl. apply in_map_iff in Hl.
    destruct Hl as (I & <- & HI).
    destruct (HIs I HI) as (_ & Hline & _).
    split; [|discriminate].
    rewrite !in_app_iff. intros [H|[H|H]];
      [cbn in H; intuition discriminate
      | revert H; now apply one_line_no_LF
      | cbn in H; intuition discriminate].
Qed.

(** X13, at a list of two items, the second with an ampersand. *)
Lemma bullet_list_witness :
  Part001.renderMarkdown (lit "* uno" ++ [LF] ++ lit "* dos & tres")
  = lit "<p><ul><li>uno</li>" ++ [LF] ++ lit "<li>dos &amp; tres</li></ul></p>".
Proof.
  apply (@bullet_list [lit "uno"; lit "dos & tres"]); [discriminate|].
  intros i [<-|[<-|[]]]; (split; [split; [|split]|]);
    try reflexivity; try (vm_compute; intuition discriminate);
    eexists; eexists; split; reflexivity.
Defined.

(** ** The control-panel version: commands and replies *)

Lemma split_join (sep : codeunit) (s : JSString) :
  join [sep] (split sep s) = s.
Proof.
  induction s as [|c s IH]; [reflexivity|].
  cbn [split]. destruct (c =? sep)%N eqn:E.
  - apply N.eqb_eq in E. subst c.
    destruct (split sep s) as [|p ps] eqn:Es.
    + cbn [join] in IH. now subst s.
    + change (join [sep] ([] :: p :: ps)) with (sep :: join [sep] (p :: ps)).
      now rewrite IH.
  - destruct (split sep s) as [|p ps] eqn:Es.
    + cbn [join] in *. now subst s.
    + destruct ps as [|q ps]; cbn [join app] in *; now rewrite IH.
Qed.

Lemma split_parts (sep : codeunit) (s p : JSString) :
  In p (split sep s) -> ~ In sep p.
Proof.
  revert p. induction s as [|c s IH]; intros p H.
  - destruct H as [<-|[]]. easy.
  - cbn [split] in H. destruct (N.eqb_spec c sep) as [->|Hc].
    + destruct H as [<-|H]; [easy | now apply IH].
    + destruct (split sep s) as [|q qs] eqn:Es.
      * destruct H as [<-|[]]. intros [E|[]]. congruence.
      * destruct H as [<-|H].
        -- intros [E|Hin]; [congruence|]. revert Hin. apply IH. now left.
        -- apply IH. now right.
Qed.

Lemma split_no_sep (sep : codeunit) (w : JSString) :
  ~ In sep w -> split sep w = [w].
Proof.
  induction w as [|c w IH]; intros H; [reflexivity|].
  cbn [split]. destruct (N.eqb_spec c sep) as [->|_];
    [exfalso; apply H; now left|].
  rewrite IH; [reflexivity|]. intros Hin. apply H. now right.
Qed.

Lemma split_app (sep : codeunit) (w s : JSString) :
  ~ In sep w ->
  split sep (w ++ sep :: s) = w :: split sep s.
Proof.
  induction w as [|c w IH]; intros H.
  - cbn [app split]. now rewrite N.eqb_refl.
  - cbn [app split]. destruct (N.eqb_spec c sep) as [->|_];
      [exfalso; apply H; now left|].
    rewrite IH; [reflexivity|]. intros Hin. apply H. now right.
Qed.

Lemma join_split (sep : codeunit) (ws : list JSString) :
  ws <> [] -> (forall w, In w ws -> ~ In sep w) ->
  split sep (join [sep] ws) = ws.
Proof.
  induction ws as [|w ws IH]; intros Hne H; [congruence|].
  destruct ws as [|w2 ws].
  - cbn [join]. apply split_no_sep. apply H. now left.
  - change (join [sep] (w :: w2 :: ws)) with (w ++ sep :: join [sep] (w2 :: ws)).
    rewrite split_app by (apply H; now left).
    rewrite IH; [reflexivity | discriminate |].
    intros x Hx. apply H. now right.
Qed.

(** X14.  What a command sends.  For a command made of words separated by
    single spaces, the request carries the first word as [comando_especial]
    and the second word alone as [text], the empty text when there is no
    second word: the words after the second never leave the page.  For any
    command at all, the three properties are in the body. *)
Theorem command_sends_first_argument_only :
  (forall user w0 args,
     ~ In SPACE w0 -> (forall a, In a args -> ~ In SPACE a) ->
     StaticPanel.command_body user (join [SPACE] (w0 :: args))
     = JObj [(lit "user_id", JStr user);
             (lit "text", JStr (hd [] args));
             (lit "comando_especial", JStr w0)]) /\
  (forall user command, exists name text,
     StaticPanel.command_body user command
     = JObj [(lit "user_id", JStr user);
             (lit "text", JStr text);
             (lit "comando_especial", JStr name)] /\
     ~ In SPACE name /\ ~ In SPACE text).
Proof.
  split.
  - intros user w0 args H0 Hargs.
    unfold StaticPanel.command_body, StaticPanel.command_name,
      StaticPanel.command_text.
    rewrite join_split;
      [|discriminate | intros w [<-|Hw]; [exact H0 | now apply Hargs]].
    destruct args as [|a args].
    + cbn [join]. rewrite includes_absent by exact H0. reflexivity.
    + change (join [SPACE] (w0 :: a :: args))
        with (w0 ++ [SPACE] ++ join [SPACE] (a :: args)).
      rewrite includes_app. reflexivity.
  - intros user command.
    unfold StaticPanel.command_body, StaticPanel.command_name,
      StaticPanel.command_text.
    assert (Hparts := @split_parts SPACE command).
    destruct (split SPACE command) as [|name [|text parts]] eqn:Es.
    + destruct command as [|c command]; [discriminate|].
      cbn [split] in Es. destruct (c =? SPACE)%N; [discriminate|].
      destruct (split SPACE command); discriminate.
    + assert (E : includes [SPACE] command = false).
      { apply includes_absent. rewrite <- (split_join SPACE command), Es.
        cbn [join]. apply Hparts. now left. }
      rewrite E. exists name, []. split; [reflexivity|].
      split; [apply Hparts; now left | easy].
    + assert (E : includes [SPACE] command = true).
      { rewrite <- (split_join SPACE command), Es.
        change (join [SPACE] (name :: text :: parts))
          with (name ++ [SPACE] ++ join [SPACE] (text :: parts)).
        apply includes_app. }
      rewrite E. exists name, text. split; [reflexivity|].
      split; apply Hparts; [now left | right; now left].
Qed.

(** X14, at a command with two arguments. *)
Lemma command_sends_first_argument_only_witness :
  StaticPanel.command_body (lit "pablo_main") (lit "/estado muy feliz")
  = JObj [(lit "user_id", JStr (lit "pablo_main"));
          (lit "text", JStr (lit "muy"));
          (lit "comando_especial", JStr (lit "/estado"))].
Proof.
  apply (proj1 command_sends_first_argument_only (lit "pablo_main")
           (lit "/estado") [lit "muy"; lit "feliz"]).
  - vm_compute. intuition discriminate.
  - intros a [<-|[<-|[]]]; vm_compute; intuition discriminate.
Defined.

Lemma panel_reply_inv rt o data s :
  panel_reply rt o = Some (data, s) ->
  exists r t ps,
    o = Resolved r /\ body r = BodyText t /\
    JSON_parse rt t = Normal (JObj ps) /\ data = JObj ps /\
    lookup (lit "text") ps = Some (JStr s).
Proof.
  unfold panel_reply. destruct o as [e|r]; [discriminate|].
  destruct (body r) as [t|e] eqn:Eb; [|discriminate].
  destruct (JSON_parse rt t) as [d|e] eqn:Ep; [|discriminate].
  destruct d as [| | | | |ps]; try discriminate.
  cbn [get_property].
  destruct (lookup (lit "text") ps) as [[| | |s'| |]|] eqn:El; try discriminate.
  intros H. injection H as <- <-. now exists r, t, ps.
Qed.

(** A value that the setter of [textContent] can convert is one that the
    setter of [className] can convert. *)
Lemma className_converts rt (v : option JSValue) (t : JSString) :
  Part000Page.textContent_of rt v = Normal t ->
  exists c, StaticPanel.ToString_opt rt v = Normal c.
Proof.
  destruct v as [[]|]; cbn [Part000Page.textContent_of StaticPanel.ToString_opt];
    intros H; eauto.
  all: eexists; reflexivity.
Qed.

Lemma updateUIFromResponse_run rt te_null (ps : list (JSString * JSValue)) st :
  StaticPanel.updateUIFromResponse rt te_null (JObj ps) st
  = match Part000Page.textContent_of rt (lookup (lit "estado_actual") ps) with
    | Throw e => (st, Throw e)
    | Normal t =>
        match StaticPanel.ToString_opt rt (lookup (lit "estado_actual") ps) with
        | Throw e => (StaticPanel.set_currentState_textContent t st, Throw e)
        | Normal c =>
            match Part000Page.textContent_of rt
                    (lookup (lit "contador_estado") ps) with
            | Throw e =>
                (StaticPanel.set_currentState_className c
                   (StaticPanel.set_currentState_textContent t st), Throw e)
            | Normal k =>
                (StaticPanel.setTimeout
                   (StaticPanel.set_state_buttons
                      (map (fun btn =>
                              (fst btn,
                               StaticPanel.strict_equal (fst btn)
                                 (lookup (lit "estado_actual") ps)))
                           (StaticPanel.state_buttons st))
                      (StaticPanel.set_stateCounter_textContent k
                         (StaticPanel.set_currentState_className c
                            (StaticPanel.set_currentState_textContent t st)))),
                 Normal tt)
            end
        end
    end.
Proof.
  run_static. cbn [get_property].
  destruct (Part000Page.textContent_of rt (lookup (lit "estado_actual") ps));
    [|reflexivity].
  destruct (StaticPanel.ToString_opt rt (lookup (lit "estado_actual") ps));
    [|reflexivity].
  destruct (Part000Page.textContent_of rt (lookup (lit "contador_estado") ps));
    reflexivity.
Qed.

Lemma panel_settle_reply rt te_null te_replace o data s (ts : JSString) st :
  panel_reply rt o = Some (data, s) ->
  StaticPanel.sendMessage_settle rt te_null te_replace o ts st
  = match StaticPanel.updateUIFromResponse rt te_null data
            (StaticPanel.appendChild
               (StaticScript.messageEl (reply_class data) s
                  (Some (lit "Saulo")) ts) st) with
    | (st1, Normal _) =>
        (StaticPanel.focus (StaticPanel.set_sendButton_disabled false st1),
         Normal tt)
    | (st1, Throw _) =>
        (StaticPanel.focus (StaticPanel.set_sendButton_disabled false
           (StaticPanel.appendChild
              (StaticScript.messageEl (lit "system")
                 (lit "Error de conexi" ++ [o_acute] ++ lit "n con Saulo.")
                 None ts) st1)),
         Normal tt)
    end.
Proof.
  intros H. apply panel_reply_inv in H.
  destruct H as (r & t & ps & -> & Eb & Ep & -> & El).
  unfold reply_class. cbn [get_property].
  unfold StaticPanel.sendMessage_settle, StaticPanel.await_fetch,
    StaticPanel.await_json, StaticPanel.read, StaticPanel.addMessage,
    try_finally, try_catch, bind, ret, call, modify, throw.
  rewrite Eb, Ep. cbn [get_property]. rewrite El.
  destruct (StaticPanel.truthy_opt (lookup (lit "bloqueado") ps));
    [|destruct (StaticPanel.truthy_opt (lookup (lit "es_ontologico") ps))];
    match goal with
    | |- context [StaticPanel.updateUIFromResponse ?a ?b ?c ?d] =>
        destruct (StaticPanel.updateUIFromResponse a b c d) as [st1 [[]|e]]
    end; reflexivity.
Qed.

Lemma panel_settle_failure rt te_null te_replace o (ts : JSString) st :
  panel_reply rt o = None ->
  StaticPanel.sendMessage_settle rt te_null te_replace o ts st
  = (StaticPanel.focus (StaticPanel.set_sendButton_disabled false
       (StaticPanel.appendChild
          (StaticScript.messageEl (lit "system")
             (lit "Error de conexi" ++ [o_acute] ++ lit "n con Saulo.")
             None ts) st)),
     Normal tt).
Proof.
  unfold panel_reply. run_static.
  destruct o as [e|r]; [reflexivity|].
  destruct (body r) as [t|e]; [|reflexivity].
  destruct (JSON_parse rt t) as [d|e]; [|reflexivity].
  destruct d as [| | | | |ps]; try reflexivity.
  cbn [get_property].
  destruct (lookup (lit "text") ps) as [[| | |s'| |]|]; try discriminate;
    intros _;
    (destruct (StaticPanel.truthy_opt (lookup (lit "bloqueado") ps));
     [|destruct (StaticPanel.truthy_opt (lookup (lit "es_ontologico") ps))]);
    reflexivity.
Qed.

(** X15.  A send of the control panel, once the request has settled.  The
    call never throws, always leaves the button enabled and the input
    focused and makes no request.  When the body did not parse to an object
    whose [text] is a string, the one message appended is the connection
    error, nothing of the state shown changes and nothing is scheduled.
    Otherwise the reply is appended, of class blocked if [bloqueado] is
    truthy, else ontological if [es_ontologico] is, and the state shown is
    then updated from [estado_actual] and [contador_estado]: when both can
    be converted to strings, the state, the counter and the buttons are
    set, one reload of the state is scheduled and the reply is the only
    message; when [estado_actual] cannot be converted nothing of the state
    shown changes, and when only [contador_estado] cannot, the state is set
    but not the counter or the buttons; in both of these cases the
    connection error is appended after the reply and nothing is
    scheduled. *)
Theorem panel_send_settles rt te_null te_replace o (ts : JSString) st :
  exists st',
    StaticPanel.sendMessage_settle rt te_null te_replace o ts st
    = (st', Normal tt) /\
    StaticPanel.sendButton_disabled st' = false /\
    StaticPanel.messageInput_focused st' = true /\
    StaticPanel.requests st' = StaticPanel.requests st /\
    StaticPanel.messageInput_value st' = StaticPanel.messageInput_value st /\
    let failed :=
      StaticScript.messageEl (lit "system")
        (lit "Error de conexi" ++ [o_acute] ++ lit "n con Saulo.") None ts in
    match panel_reply rt o with
    | None =>
        StaticPanel.messages st' = StaticPanel.messages st ++ [failed] /\
        StaticPanel.timers st' = StaticPanel.timers st /\
        StaticPanel.currentState_textContent st' =
          StaticPanel.currentState_textContent st /\
        StaticPanel.currentState_className st' =
          StaticPanel.currentState_className st /\
        StaticPanel.stateCounter_textContent st' =
          StaticPanel.stateCounter_textContent st /\
        StaticPanel.state_buttons st' = StaticPanel.state_buttons st
    | Some (data, s) =>
        let reply :=
          StaticScript.messageEl (reply_class data) s (Some (lit "Saulo")) ts in
        let estado_actual := get_property data (lit "estado_actual") in
        let contador_estado := get_property data (lit "contador_estado") in
        match Part000Page.textContent_of rt estado_actual with
        | Throw _ =>
            StaticPanel.messages st' =
              StaticPanel.messages st ++ [reply; failed] /\
            StaticPanel.timers st' = StaticPanel.timers st /\
            StaticPanel.currentState_textContent st' =
              StaticPanel.currentState_textContent st /\
            StaticPanel.currentState_className st' =
              StaticPanel.currentState_className st /\
            StaticPanel.stateCounter_textContent st' =
              StaticPanel.stateCounter_textContent st /\
            StaticPanel.state_buttons st' = StaticPanel.state_buttons st
        | Normal state_text =>
            StaticPanel.currentState_textContent st' = state_text /\
            StaticPanel.ToString_opt rt estado_actual
              = Normal (StaticPanel.currentState_className st') /\
            match Part000Page.textContent_of rt contador_estado with
            | Throw _ =>
                StaticPanel.messages st' =
                  StaticPanel.messages st ++ [reply; failed] /\
                StaticPanel.timers st' = StaticPanel.timers st /\
                StaticPanel.stateCounter_textContent st' =
                  StaticPanel.stateCounter_textContent st /\
                StaticPanel.state_buttons st' = StaticPanel.state_buttons st
            | Normal counter_text =>
                StaticPanel.messages st' = StaticPanel.messages st ++ [reply] /\
                StaticPanel.timers st' = S (StaticPanel.timers st) /\
                StaticPanel.stateCounter_textContent st' = counter_text /\
                StaticPanel.state_buttons st' =
                  map (fun btn =>
                         (fst btn,
                          StaticPanel.strict_equal (fst btn) estado_actual))
                      (StaticPanel.state_buttons st)
            end
        end
    end.
Proof.
  cbv zeta.
  destruct (panel_reply rt o) as [[data s]|] eqn:E.
  - rewrite (panel_settle_reply rt te_null te_replace o ts st E).
    apply panel_reply_inv in E.
    destruct E as (r & t & ps & -> & Eb & Ep & -> & El).
    rewrite updateUIFromResponse_run. cbn [get_property].
    destruct (Part000Page.textContent_of rt (lookup (lit "estado_actual") ps))
      as [state_text|e1] eqn:E1.
    + destruct (className_converts rt _ E1) as (c & Ec). rewrite Ec.
      destruct (Part000Page.textContent_of rt
                  (lookup (lit "contador_estado") ps)) as [counter_text|e2];
        (eexists; split; [reflexivity|]; static_fields;
         rewrite <- ?app_assoc; repeat split; reflexivity).
    + eexists; split; [reflexivity|]; static_fields.
      rewrite <- ?app_assoc. repeat split; reflexivity.
  - rewrite (panel_settle_failure rt te_null te_replace o ts st E).
    eexists. split; [reflexivity|]. static_fields. repeat split; reflexivity.
Qed.

Lemma command_settle_reply rt te_null te_replace o data s (ts : JSString) st :
  panel_reply rt o = Some (data, s) ->
  StaticPanel.sendCommand_settle rt te_null te_replace o ts st
  = (StaticPanel.fetch
       (StaticPanel.estado
          (StaticPanel.appendChild
             (StaticScript.messageEl (lit "system") s None ts) st))
       (StaticPanel.appendChild
          (StaticScript.messageEl (lit "system") s None ts) st),
     Normal tt).
Proof.
  intros H. apply panel_reply_inv in H.
  destruct H as (r & t & ps & -> & Eb & Ep & -> & El).
  run_static. rewrite Eb, Ep. cbn [get_property]. rewrite El. reflexivity.
Qed.

Lemma command_settle_failure rt te_null te_replace o (ts : JSString) st :
  panel_reply rt o = None ->
  StaticPanel.sendCommand_settle rt te_null te_replace o ts st
  = (StaticPanel.appendChild
       (StaticScript.messageEl (lit "system")
          (lit "Error: "
           ++ message (command_error rt te_null te_replace o))
          None ts) st,
     Normal tt).
Proof.
  unfold panel_reply, command_error. run_static.
  destruct o as [e|r]; [reflexivity|].
  destruct (body r) as [t|e]; [|reflexivity].
  destruct (JSON_parse rt t) as [d|e]; [|reflexivity].
  destruct d as [| | | | |ps]; try reflexivity.
  cbn [get_property].
  destruct (lookup (lit "text") ps) as [[| | |s'| |]|]; try discriminate;
    reflexivity.
Qed.

(** X16.  A text that starts with a slash is a command, not a message.
    [sendMessage] shows it as the user's message, makes the one request of
    the command, empties the input and returns, without disabling the
    button.  When that request has settled, [sendCommand] never throws and
    appends exactly one system message: the [text] of the answer when the
    body parsed to an object with a string [text], followed by a reload of
    the state; and otherwise "Error: " with the message of the error, with
    no reload.  The button is as it was throughout. *)
Theorem slash_text_is_a_command
    rt te_null te_replace (ts : JSString) st text :
  trim (StaticPanel.messageInput_value st) = text ->
  starts_with (lit "/") text = true ->
  exists st',
    StaticPanel.sendMessage_begin te_replace ts st
    = (st', Normal (StaticPanel.Command text)) /\
    StaticPanel.messages st' =
      StaticPanel.messages st
      ++ [StaticScript.messageEl (lit "user") text None ts] /\
    StaticPanel.messageInput_value st' = [] /\
    StaticPanel.sendButton_disabled st' = StaticPanel.sendButton_disabled st /\
    StaticPanel.requests st' =
      StaticPanel.requests st
      ++ [StaticPanel.conversar st
            (StaticPanel.command_body (StaticPanel.userId st) text)] /\
    StaticPanel.timers st' = StaticPanel.timers st /\
    forall o (ts2 : JSString), exists st'',
      StaticPanel.sendCommand_settle rt te_null te_replace o ts2 st'
      = (st'', Normal tt) /\
      StaticPanel.sendButton_disabled st'' = StaticPanel.sendButton_disabled st /\
      StaticPanel.timers st'' = StaticPanel.timers st /\
      match panel_reply rt o with
      | Some (_, s) =>
          StaticPanel.messages st'' =
            StaticPanel.messages st'
            ++ [StaticScript.messageEl (lit "system") s None ts2] /\
          StaticPanel.requests st'' =
            StaticPanel.requests st' ++ [StaticPanel.estado st]
      | None =>
          StaticPanel.messages st'' =
            StaticPanel.messages st'
            ++ [StaticScript.messageEl (lit "system")
                  (lit "Error: "
                   ++ message (command_error rt te_null te_replace o))
                  None ts2] /\
          StaticPanel.requests st'' = StaticPanel.requests st'
      end.
Proof.
  intros Hin Hslash.
  assert (Hbegin : StaticPanel.sendMessage_begin te_replace ts st
    = (StaticPanel.set_messageInput_value []
         (StaticPanel.fetch
            (StaticPanel.conversar
               (StaticPanel.appendChild
                  (StaticScript.messageEl (lit "user") text None ts) st)
               (StaticPanel.command_body (StaticPanel.userId st) text))
            (StaticPanel.appendChild
               (StaticScript.messageEl (lit "user") text None ts) st)),
       Normal (StaticPanel.Command text))).
  { run_static. rewrite Hin.
    destruct text as [|c text]; [discriminate|]. rewrite Hslash. reflexivity. }
  rewrite Hbegin. eexists. split; [reflexivity|]. static_fields.
  split; [reflexivity|]. split; [reflexivity|]. split; [reflexivity|].
  split; [reflexivity|]. split; [reflexivity|].
  intros o ts2. destruct (panel_reply rt o) as [[data s]|] eqn:E.
  - rewrite (command_settle_reply rt te_null te_replace o ts2 _ E).
    eexists. split; [reflexivity|]. static_fields. repeat split; reflexivity.
  - rewrite (command_settle_failure rt te_null te_replace o ts2 _ E).
    eexists. split; [reflexivity|]. static_fields. repeat split; reflexivity.
Qed.

(** X16, on a fresh panel whose input holds "/reset", with the request
    rejected. *)
Lemma slash_text_is_a_command_witness :
  exists st',
    StaticPanel.sendMessage_begin a_replace_error (lit "10:00")
      (fresh_panel_page (lit "/reset"))
    = (st', Normal (StaticPanel.Command (lit "/reset"))) /\
    StaticPanel.sendButton_disabled st' = false /\
    StaticPanel.requests st' =
      [StaticPanel.conversar (fresh_panel_page (lit "/reset"))
         (JObj [(lit "user_id", JStr (lit "pablo_main"));
                (lit "text", JStr []);
                (lit "comando_especial", JStr (lit "/reset"))])] /\
    exists st'',
      StaticPanel.sendCommand_settle canned_runtime a_type_error
        a_replace_error (Rejected failed_to_fetch) (lit "10:01") st'
      = (st'', Normal tt) /\
      StaticPanel.messages st'' =
        [StaticScript.messageEl (lit "user") (lit "/reset") None (lit "10:00");
         StaticScript.messageEl (lit "system") (lit "Error: Failed to fetch")
           None (lit "10:01")].
Proof.
  destruct (@slash_text_is_a_command canned_runtime a_type_error
              a_replace_error (lit "10:00") (fresh_panel_page (lit "/reset"))
              (lit "/reset") eq_refl eq_refl)
    as (st' & H1 & H2 & _ & H4 & H5 & _ & H7).
  exists st'. split; [exact H1|]. split; [exact H4|]. split; [exact H5|].
  destruct (H7 (Rejected failed_to_fetch) (lit "10:01"))
    as (st'' & K1 & _ & _ & K4 & _).
  exists st''. split; [exact K1|]. rewrite K4, H2. reflexivity.
Defined.

(** X17.  A change of state that fails is silent.  When the request of
    [changeSauloState] has settled, the call never throws; with a body that
    parsed to an object with a string [text] it appends that text as a
    system message and reloads the state; in every other case it changes
    nothing on the page at all, no message included. *)
Theorem failed_state_change_is_silent
    rt te_null te_replace o (ts : JSString) st :
  exists st',
    StaticPanel.changeSauloState_settle rt te_null te_replace o ts st
    = (st', Normal tt) /\
    match panel_reply rt o with
    | Some (_, s) =>
        st' = StaticPanel.fetch
                (StaticPanel.estado st)
                (StaticPanel.appendChild
                   (StaticScript.messageEl (lit "system") s None ts) st)
    | None => st' = st
    end.
Proof.
  destruct (panel_reply rt o) as [[data s]|] eqn:E.
  - apply panel_reply_inv in E.
    destruct E as (r & t & ps & -> & Eb & Ep & -> & El).
    run_static. rewrite Eb, Ep. cbn [get_property]. rewrite El.
    eexists. split; reflexivity.
  - revert E. unfold panel_reply. run_static.
    destruct o as [e|r]; [eexists; split; reflexivity|].
    destruct (body r) as [t|e]; [|eexists; split; reflexivity].
    destruct (JSON_parse rt t) as [d|e]; [|eexists; split; reflexivity].
    destruct d as [| | | | |ps]; try (eexists; split; reflexivity).
    cbn [get_property].
    destruct (lookup (lit "text") ps) as [[| | |s'| |]|]; try discriminate;
      eexists; split; reflexivity.
Qed.

(** ** The control-panel version: the state of Saulo *)

Lemma add_insight_run rt te_null (x : JSValue) st :
  x <> JNull ->
  StatePanel.add_insight rt te_null x st
  = match shown_insight rt x with
    | Normal el => (StatePanel.appendChild el st, Normal tt)
    | Throw e => (st, Throw e)
    end.
Proof.
  intros Hx. unfold shown_insight.
  assert (Hread : forall key s,
    StatePanel.read te_null (Some x) key s = (s, Normal (get_property x key))).
  { intros key s. unfold StatePanel.read, ret. destruct x; congruence. }
  unfold StatePanel.add_insight, bind, call, modify.
  rewrite Hread.
  destruct (ToString rt _) as [category|e]; [|reflexivity].
  rewrite Hread.
  destruct (StaticPanel.ToString_opt rt _) as [interpretation|e]; reflexivity.
Qed.

Lemma forEach_insights rt te_null (l : list JSValue) :
  forall st, exists c,
    StatePanel.forEach (StatePanel.add_insight rt te_null) l st
    = (StatePanel.set_insights
         (StatePanel.insights st ++ shown_insights rt l) st, c).
Proof.
  assert (Hid : forall st,
    StatePanel.set_insights (StatePanel.insights st ++ []) st = st).
  { intros [a b c d e f g]. unfold StatePanel.set_insights. cbn.
    now rewrite app_nil_r. }
  induction l as [|x l IH]; intros st.
  - cbn [StatePanel.forEach shown_insights]. unfold ret.
    rewrite Hid. now eexists.
  - cbn [StatePanel.forEach]. unfold bind.
    assert (Hx : x = JNull \/ x <> JNull)
      by (destruct x; auto; right; discriminate).
    destruct Hx as [->|Hx].
    + cbn [shown_insights]. rewrite Hid. now eexists.
    + rewrite (add_insight_run rt te_null st Hx).
      assert (Es : shown_insights rt (x :: l)
                   = match shown_insight rt x with
                     | Normal el => el :: shown_insights rt l
                     | Throw _ => []
                     end)
        by (destruct x; congruence || reflexivity).
      rewrite Es.
      destruct (shown_insight rt x) as [el|e].
      * destruct (IH (StatePanel.appendChild el st)) as (c & ->).
        exists c. unfold StatePanel.appendChild, StatePanel.set_insights.
        state_fields. now rewrite <- app_assoc.
      * rewrite Hid. now eexists.
Qed.

Lemma estado_of_inv rt o data e :
  estado_of rt o = Some (data, e) ->
  exists r t,
    o = Resolved r /\ body r = BodyText t /\ JSON_parse rt t = Normal data /\
    data <> JNull /\ get_property data (lit "estado") = Some e /\ e <> JNull.
Proof.
  unfold estado_of. destruct o as [err|r]; [discriminate|].
  destruct (body r) as [t|err] eqn:Eb; [|discriminate].
  destruct (JSON_parse rt t) as [d|err] eqn:Ep; [|discriminate].
  destruct d as [| | | | |ps]; try discriminate.
  cbn [get_property].
  destruct (lookup (lit "estado") ps) as [[| | | | |]|] eqn:El;
    try discriminate; intros H; injection H as <- <-;
    exists r, t; repeat split; (assumption || discriminate).
Qed.

Lemma show_insights_run rt te_null te_forEach gz (v : option JSValue) st :
  exists c,
    StatePanel.show_insights rt te_null te_forEach gz v st
    = (StatePanel.set_insights
         (StatePanel.insights st
          ++ match v with
             | Some (JArr l) => shown_insights rt l
             | _ => []
             end) st, c).
Proof.
  assert (Hid : forall s,
    StatePanel.set_insights (StatePanel.insights s ++ []) s = s).
  { intros [a b c d e f g]. unfold StatePanel.set_insights. cbn.
    now rewrite app_nil_r. }
  unfold StatePanel.show_insights.
  destruct v as [[| b | q | s | l | ps]|]; rewrite ?Hid;
    try (eexists; reflexivity).
  - destruct s; eexists; reflexivity.
  - destruct l as [|x l].
    + cbn [shown_insights]. rewrite Hid. eexists. reflexivity.
    + apply forEach_insights.
  - destruct (gz _); eexists; reflexivity.
Qed.

Lemma updateUIState_run rt te_null te_forEach gz data e st :
  data <> JNull -> get_property data (lit "estado") = Some e -> e <> JNull ->
  StatePanel.updateUIState rt te_null te_forEach gz data st
  = match Part000Page.textContent_of rt
            (get_property e (lit "current_state")) with
    | Throw x => (st, Throw x)
    | Normal t =>
    let s1 := StatePanel.set_currentState_textContent t st in
    match StaticPanel.ToString_opt rt
            (get_property e (lit "current_state")) with
    | Throw x => (s1, Throw x)
    | Normal c =>
    let s2 := StatePanel.set_currentState_className c s1 in
    match Part000Page.textContent_of rt
            (get_property e (lit "state_counter")) with
    | Throw x => (s2, Throw x)
    | Normal k =>
    let s3 := StatePanel.set_stateCounter_textContent k s2 in
    match Part000Page.textContent_of rt
            (Some (StatePanel.or_else
                     (get_property e (lit "total_ontological_exchanges"))
                     (JNum 0))) with
    | Throw x => (s3, Throw x)
    | Normal n =>
    let s4 := StatePanel.set_ontologicalExchanges_textContent n s3 in
    match Part000Page.textContent_of rt
            (Some (StatePanel.or_else
                     (get_property e (lit "last_deep_topic"))
                     (JStr (lit "Ninguno")))) with
    | Throw x => (s4, Throw x)
    | Normal topic =>
        StatePanel.show_insights rt te_null te_forEach gz
          (get_property data (lit "insights_ontologicos"))
          (StatePanel.set_insights []
             (StatePanel.set_state_buttons
                (map (fun btn =>
                        (fst btn,
                         StaticPanel.strict_equal (fst btn)
                           (get_property e (lit "current_state"))))
                     (StatePanel.state_buttons st))
                (StatePanel.set_lastTopic_textContent topic s4)))
    end end end end end.
Proof.
  intros Hd Ee He. cbv zeta.
  assert (Hread : forall key s,
    StatePanel.read te_null (Some data) key s
    = (s, Normal (get_property data key))).
  { intros key s. unfold StatePanel.read, ret. destruct data; congruence. }
  assert (Hread' : forall key s,
    StatePanel.read te_null (Some e) key s
    = (s, Normal (get_property e key))).
  { intros key s. unfold StatePanel.read, ret. destruct e; congruence. }
  unfold StatePanel.updateUIState, bind, modify, call.
  rewrite !Hread, Ee. rewrite Hread'.
  destruct (Part000Page.textContent_of rt (get_property e (lit "current_state")));
    [|reflexivity].
  rewrite Hread'.
  destruct (StaticPanel.ToString_opt rt (get_property e (lit "current_state")));
    [|reflexivity].
  rewrite Hread'.
  destruct (Part000Page.textContent_of rt (get_property e (lit "state_counter")));
    [|reflexivity].
  rewrite Hread'.
  destruct (Part000Page.textContent_of rt
              (Some (StatePanel.or_else
                       (get_property e (lit "total_ontological_exchanges"))
                       (JNum 0)))); [|reflexivity].
  rewrite Hread'.
  destruct (Part000Page.textContent_of rt
              (Some (StatePanel.or_else
                       (get_property e (lit "last_deep_topic"))
                       (JStr (lit "Ninguno"))))); [|reflexivity].
  rewrite Hread'. state_fields. reflexivity.
Qed.

(** X18.  Reloading the state.  [loadSauloState] never throws.  When the
    request failed, the body was not JSON or [null], or it has no [estado],
    the panel keeps all it showed; so it does when [current_state] cannot
    be converted to a string.  Otherwise the state is set from
    [current_state], and when the counter, the number of exchanges (0 for a
    falsy value) and the topic ("Ninguno" for a falsy value) can all be
    converted as well, they are set, the buttons are set, and the insights
    shown before are all discarded: the panel then holds one element for
    each insight of the array up to the first one that is [null] or cannot
    be converted, in the order of the array, with the category and the
    interpretation put into the markup as they are, and no element at all
    when [insights_ontologicos] is not an array.  When one of the three
    cannot be converted, the buttons and the insights stay as they were. *)
Theorem state_reload_replaces_or_keeps
    rt te_null te_forEach gz (o : FetchResult) (st : StatePanel.State) :
  exists st',
    StatePanel.loadSauloState_settle rt te_null te_forEach gz o st
    = (st', Normal tt) /\
    match estado_of rt o with
    | None => st' = st
    | Some (data, e) =>
        let current_state := get_property e (lit "current_state") in
        match Part000Page.textContent_of rt current_state with
        | Throw _ => st' = st
        | Normal state_text =>
            StatePanel.currentState_textContent st' = state_text /\
            StaticPanel.ToString_opt rt current_state
              = Normal (StatePanel.currentState_className st') /\
            match
              Part000Page.textContent_of rt
                (get_property e (lit "state_counter")),
              Part000Page.textContent_of rt
                (Some (StatePanel.or_else
                         (get_property e (lit "total_ontological_exchanges"))
                         (JNum 0))),
              Part000Page.textContent_of rt
                (Some (StatePanel.or_else
                         (get_property e (lit "last_deep_topic"))
                         (JStr (lit "Ninguno"))))
            with
            | Normal counter, Normal exchanges, Normal topic =>
                StatePanel.stateCounter_textContent st' = counter /\
                StatePanel.ontologicalExchanges_textContent st' = exchanges /\
                StatePanel.lastTopic_textContent st' = topic /\
                StatePanel.state_buttons st' =
                  map (fun btn =>
                         (fst btn,
                          StaticPanel.strict_equal (fst btn) current_state))
                      (StatePanel.state_buttons st) /\
                StatePanel.insights st' =
                  match get_property data (lit "insights_ontologicos") with
                  | Some (JArr l) => shown_insights rt l
                  | _ => []
                  end
            | _, _, _ =>
                StatePanel.state_buttons st' = StatePanel.state_buttons st /\
                StatePanel.insights st' = StatePanel.insights st
            end
        end
    end.
Proof.
  destruct (estado_of rt o) as [[data e]|] eqn:E.
  - apply estado_of_inv in E.
    destruct E as (r & t & -> & Eb & Ep & Hd & Ee & He).
    unfold StatePanel.loadSauloState_settle, StatePanel.await_fetch,
      StatePanel.await_json, try_catch, bind, ret, call.
    rewrite Eb, Ep.
    rewrite (updateUIState_run rt te_null te_forEach gz st Hd Ee He).
    cbv zeta.
    destruct (Part000Page.textContent_of rt
                (get_property e (lit "current_state"))) as [state_text|x] eqn:E1;
      [|now exists st].
    destruct (className_converts rt _ E1) as (c & Ec). rewrite Ec.
    destruct (Part000Page.textContent_of rt
                (get_property e (lit "state_counter"))) as [counter|x];
      [|eexists; split; [reflexivity|]; state_fields; repeat split;
        destruct (Part000Page.textContent_of rt _);
        destruct (Part000Page.textContent_of rt _); repeat split].
    destruct (Part000Page.textContent_of rt
                (Some (StatePanel.or_else
                         (get_property e (lit "total_ontological_exchanges"))
                         (JNum 0)))) as [exchanges|x];
      [|eexists; split; [reflexivity|]; state_fields; repeat split;
        destruct (Part000Page.textContent_of rt _); repeat split].
    destruct (Part000Page.textContent_of rt
                (Some (StatePanel.or_else
                         (get_property e (lit "last_deep_topic"))
                         (JStr (lit "Ninguno"))))) as [topic|x];
      [|eexists; split; [reflexivity|]; state_fields; repeat split].
    match goal with
    | |- context [StatePanel.show_insights _ _ _ _ ?v ?s] =>
        destruct (show_insights_run rt te_null te_forEach gz v s) as (cc & Hc);
        rewrite Hc
    end.
    eexists. split; [destruct cc as [[]|err]; reflexivity|].
    state_fields. repeat split; reflexivity.
  - exists st. split; [|reflexivity].
    revert E. unfold estado_of.
    unfold StatePanel.loadSauloState_settle, StatePanel.await_fetch,
      StatePanel.await_json, try_catch, bind, ret, call, throw.
    destruct o as [err|r]; [reflexivity|].
    destruct (body r) as [t|err]; [|reflexivity].
    destruct (JSON_parse rt t) as [d|err]; [|reflexivity].
    destruct d as [| | | | |ps]; try reflexivity.
    cbn [get_property].
    unfold StatePanel.updateUIState, StatePanel.read, bind, ret, throw.
    cbn [get_property].
    destruct (lookup (lit "estado") ps) as [[| | | | |]|]; try discriminate;
      reflexivity.
Qed.

(** ** Paragraphs *)

Lemma blank_pass_keeps (l rest' : JSString) :
  includes [LF; LF] l = false -> last l 0%N <> LF ->
  forall before,
    replace_all Part001.re_blank [Text (lit "</p><p>")] 0 before (l ++ rest')
    = l ++ replace_all Part001.re_blank [Text (lit "</p><p>")] 0
             (rev l ++ before) rest'.
Proof.
  induction l as [|c l IH]; intros Hb Hlast before; [reflexivity|].
  cbn [includes] in Hb. apply orb_false_iff in Hb. destruct Hb as (Hs & Hb).
  assert (Hl : last l 0%N <> LF).
  { destruct l as [|d l]; [discriminate | exact Hlast]. }
  cbn [app replace_all]. rewrite blank_needs_two.
  - f_equal. rewrite (IH Hb Hl). cbn [rev]. now rewrite <- app_assoc.
  - cbn [starts_with] in *.
    destruct (N.eqb_spec LF c) as [<-|_]; [|reflexivity]. cbn [andb] in *.
    destruct l as [|d l]; [now cbn in Hlast|].
    cbn [app]. rewrite andb_true_r in *. exact Hs.
Qed.

Lemma blank_pass_breaks (rest' before : JSString) :
  replace_all Part001.re_blank [Text (lit "</p><p>")] 0 before
    ([LF; LF] ++ rest')
  = lit "</p><p>"
    ++ replace_all Part001.re_blank [Text (lit "</p><p>")] 0
         (rev [LF; LF] ++ before) rest'.
Proof.
  rewrite (@replace_all_match_step _ _ [LF; LF] rest' before
             {| consumed := rev [LF; LF] ++ before; rest := rest';
                cap1 := None |}); [| discriminate | | reflexivity].
  - cbn [expand flat_map]. now rewrite app_nil_r.
  - unfold match_at. cbn [Part001.re_blank pattern fl].
    now rewrite matcher_str.
Qed.

Lemma paragraphs_join (Ps : list JSString) :
  (forall P, In P Ps -> includes [LF; LF] P = false /\ last P 0%N <> LF) ->
  forall before,
    replace_all Part001.re_blank [Text (lit "</p><p>")] 0 before
      (join [LF; LF] Ps)
    = join (lit "</p><p>") Ps.
Proof.
  assert (Hnil : forall before,
    replace_all Part001.re_blank [Text (lit "</p><p>")] 0 before [] = []).
  { intros before. cbn [replace_all]. now rewrite blank_needs_two. }
  induction Ps as [|P Ps IH]; intros H before; [apply Hnil|].
  destruct (H P) as (Hb & Hl); [now left|].
  destruct Ps as [|P2 Ps].
  - cbn [join]. rewrite <- (app_nil_r P) at 1.
    rewrite blank_pass_keeps by assumption. now rewrite Hnil, app_nil_r.
  - change (join [LF; LF] (P :: P2 :: Ps))
      with (P ++ [LF; LF] ++ join [LF; LF] (P2 :: Ps)).
    change (join (lit "</p><p>") (P :: P2 :: Ps))
      with (P ++ lit "</p><p>" ++ join (lit "</p><p>") (P2 :: Ps)).
    rewrite blank_pass_keeps by assumption.
    rewrite blank_pass_breaks, IH; [reflexivity|].
    intros Q HQ. apply H. now right.
Qed.

Lemma escape_string_nil (s : JSString) :
  Dom.escape_string s = [] -> s = [].
Proof.
  destruct s as [|c s]; [reflexivity|]. intros H.
  apply (f_equal (@List.length codeunit)) in H.
  pose proof (escape_string_length (c :: s)) as Hlen.
  rewrite H in Hlen. cbn in Hlen. lia.
Qed.

Lemma last_after (a : JSString) (d : codeunit) (t : JSString) (x : codeunit) :
  last (a ++ d :: t) x = last (d :: t) x.
Proof.
  induction a as [|c a IH]; [reflexivity|].
  cbn [app]. cbn [last]. destruct (a ++ d :: t) eqn:E; [|exact IH].
  destruct a; discriminate.
Qed.

Lemma escaped_last (s : JSString) :
  last s 0%N <> LF -> last (Part001.escapeHtml s) 0%N <> LF.
Proof.
  rewrite escapeHtml_escape_string.
  induction s as [|c s IH]; intros H; [exact H|].
  cbn [Dom.escape_string flat_map]. fold (Dom.escape_string s).
  destruct (Dom.escape_string s) as [|d t] eqn:E.
  - apply escape_string_nil in E. subst s. cbn [last] in H.
    rewrite app_nil_r. unfold Dom.escape_unit.
    destruct (c =? AMP)%N; [discriminate|].
    destruct (c =? NBSP)%N; [discriminate|].
    destruct (c =? LT)%N; [discriminate|].
    destruct (c =? GT)%N; [discriminate|].
    exact H.
  - rewrite last_after. apply IH.
    destruct s as [|x s]; [discriminate | exact H].
Qed.

Lemma escape_join_blank (ps : list JSString) :
  Part001.escapeHtml (join [LF; LF] ps)
  = join [LF; LF] (map Part001.escapeHtml ps).
Proof.
  induction ps as [|p ps IH]; [reflexivity|].
  destruct ps as [|p2 ps]; [reflexivity|].
  change (join [LF; LF] (p :: p2 :: ps))
    with (p ++ [LF; LF] ++ join [LF; LF] (p2 :: ps)).
  rewrite !escapeHtml_app, IH. reflexivity.
Qed.

Lemma in_join (c : codeunit) (sep : JSString) (l : list JSString) :
  ~ In c sep -> (forall x, In x l -> ~ In c x) -> ~ In c (join sep l).
Proof.
  intros Hsep. induction l as [|x l IH]; intros H; [easy|].
  destruct l as [|y l]; [apply H; now left|].
  change (join sep (x :: y :: l)) with (x ++ sep ++ join sep (y :: l)).
  rewrite !in_app_iff. intros [Hx|[Hs|Hj]].
  - revert Hx. apply H. now left.
  - now apply Hsep.
  - revert Hj. apply IH. intros z Hz. apply H. now right.
Qed.

(** X19.  Paragraphs.  Texts with no asterisk, no backtick and no empty
    line, none of them ending in a newline, that are separated by one empty
    line each (two newlines) are rendered as one paragraph each, holding the
    escaped text, in the same order. *)
Theorem blank_lines_split_paragraphs (ps : list JSString) :
  (forall p, In p ps -> plain p /\ last p 0%N <> LF) ->
  Part001.renderMarkdown (join [LF; LF] ps)
  = lit "<p>" ++ join (lit "</p><p>") (map Part001.escapeHtml ps)
    ++ lit "</p>".
Proof.
  intros Hps.
  unfold Part001.renderMarkdown. cbv zeta. rewrite escape_join_blank.
  set (Ps := map Part001.escapeHtml ps).
  assert (HPs : forall P, In P Ps ->
            (~ In STAR P /\ ~ In BACKTICK P /\ ~ In LT P) /\
            includes [LF; LF] P = false /\ last P 0%N <> LF).
  { intros P HP. apply in_map_iff in HP. destruct HP as (p & <- & Hp).
    destruct (Hps p Hp) as (Hplain & Hlast).
    destruct (escaped_plain Hplain) as (H1 & H2).
    split; [exact H1|]. split; [exact H2 | now apply escaped_last]. }
  set (html := join [LF; LF] Ps).
  assert (Hs : ~ In STAR html).
  { apply in_join; [cbn; intuition discriminate|].
    intros P HP. apply (HPs P HP). }
  assert (Ht : ~ In BACKTICK html).
  { apply in_join; [cbn; intuition discriminate|].
    intros P HP. apply (HPs P HP). }
  assert (Hl : ~ In LT html).
  { apply in_join; [cbn; intuition discriminate|].
    intros P HP. apply (HPs P HP). }
  rewrite bold_id by (rewrite stars_absent by exact Hs; lia).
  rewrite italic_id, inlineCode_id, listItems_id by assumption.
  rewrite listWrap_id by (now apply includes_absent).
  rewrite codeBlocks_id by assumption.
  unfold Part001.paragraphs, replace.
  change (global (fl Part001.re_blank)) with true. cbv iota.
  subst html. rewrite paragraphs_join; [reflexivity|].
  intros P HP. apply (HPs P HP).
Qed.

(** X19, at three paragraphs, the second of two lines. *)
Lemma blank_lines_split_paragraphs_witness :
  Part001.renderMarkdown
    (lit "uno" ++ [LF; LF] ++ lit "dos" ++ [LF] ++ lit "y medio" ++ [LF; LF]
     ++ lit "1 < 3")
  = lit "<p>uno</p><p>dos" ++ [LF] ++ lit "y medio</p><p>1 &lt; 3</p>".
Proof.
  apply (@blank_lines_split_paragraphs
           [lit "uno"; lit "dos" ++ [LF] ++ lit "y medio"; lit "1 < 3"]).
  intros p [<-|[<-|[<-|[]]]];
    (split; [split; [|split]|]); try reflexivity;
    vm_compute; intuition discriminate.
Defined.
